(** * Notification sound generators: a shallow embedding and its properties

    The three generator scripts (generate-sounds.py, add-mechanical-sound.py,
    add-thock-sounds.py) are embedded as functions in a small state and error
    monad over a [world] that holds what the scripts share with their
    environment: the module-level generator of Python's [random] and the
    files on disk.

    Numbers.  A Python float is modelled by the rational it stands for
    ([Q]).  [fl] rounds a rational to the nearest binary64 value, ties to
    even, and [float_mul] and [float_div] are [*] and [/] of IEEE arithmetic
    on the doubles nearest to their operands; the exponent range is not
    bounded, so overflow to [inf] and gradual underflow are outside the
    model.  They are used where the result of the code depends on the
    rounding: in [int(sample_rate * duration)] for a duration that is a
    parameter, and in the final pass that normalizes a buffer.  Elsewhere a
    decimal literal stands for its decimal value and [+], [*], [/] are
    exact.  [math.sin], [math.exp] and [math.pi] are the members of the
    class [Math], known by the bounds the proofs use.  Integers are [Z]. *)

From Stdlib Require Import ZArith QArith Qround Qabs Qpower Lqa Lia Bool.
From stdpp Require Import base list gmap strings.

Local Open Scope Z_scope.

(** ** Python values and built-ins *)

Inductive exn : Set :=
  | ValueError          (* max() of an empty sequence *)
  | ZeroDivisionError   (* float division by zero *)
  | IndexError          (* list index out of range *)
  | StructError         (* struct.error: 'h' format requires -32768 <= number <= 32767 *)
  | OSError.            (* a destination that cannot be opened, a write the device refuses *)

Inductive result (A : Type) : Type :=
  | Ok (a : A)
  | Raise (e : exn).
Arguments Ok {A} a.
Arguments Raise {A} e.

Definition rbind {A B} (r : result A) (k : A -> result B) : result B :=
  match r with
  | Ok a => k a
  | Raise e => Raise e
  end.

Definition is_ok {A} (r : result A) : bool :=
  match r with Ok _ => true | Raise _ => false end.

Coercion inject_Z : Z >-> Q.

Definition Qltb (a b : Q) : bool := negb (Qle_bool b a).

(** [int(x)] on a float: truncation toward zero. *)
Definition py_int (x : Q) : Z := Z.quot (Qnum x) (Zpos (Qden x)).

(** Two-argument [min] and [max]: the first argument unless the second is
    strictly smaller (larger). *)
Definition py_min (a b : Q) : Q := if Qltb b a then b else a.
Definition py_max (a b : Q) : Q := if Qltb a b then b else a.

(** [max(iterable)]: ValueError on an empty one. *)
Definition py_max_list (l : list Q) : result Q :=
  match l with
  | [] => Raise ValueError
  | x :: l' => Ok (fold_left py_max l' x)
  end.

(** [a / b] on floats. *)
Definition fdiv (a b : Q) : result Q :=
  if Qeq_bool b 0 then Raise ZeroDivisionError else Ok (a / b)%Q.

(** ** Binary64 rounding *)

(** The nearest integer, a tie going to the even one. *)
Definition round_half_even (x : Q) : Z :=
  let f := Qfloor x in
  let d := (x - inject_Z f)%Q in
  if Qltb d (1 # 2) then f
  else if Qltb (1 # 2) d then f + 1
  else if Z.even f then f else f + 1.

(** The exponent of the binade of [x]: [2^ilog2 x <= |x| < 2^(ilog2 x + 1)]. *)
Definition ilog2 (x : Q) : Z :=
  let l := Z.log2 (Z.abs (Qnum x)) - Z.log2 (Zpos (Qden x)) in
  if Qle_bool (2 ^ l) (Qabs x) then l else l - 1.

(** The double nearest to [x]: a significand of 53 bits, rounded to nearest,
    ties to even. *)
Definition fl (x : Q) : Q :=
  if Qeq_bool x 0 then 0%Q
  else let e := ilog2 x - 52 in
       (inject_Z (round_half_even (x / 2 ^ e)) * 2 ^ e)%Q.

(** [a * b] and [a / b] on floats, rounded as IEEE arithmetic rounds them. *)
Definition float_mul (a b : Q) : Q := fl (fl a * fl b).

Definition float_div (a b : Q) : result Q :=
  if Qeq_bool b 0 then Raise ZeroDivisionError else Ok (fl (fl a / fl b)).

(** [range(n)] and [[x] * n]; both are empty for [n <= 0]. *)
Definition py_range (n : Z) : list Z := map Z.of_nat (seq 0 (Z.to_nat n)).
Definition py_repeat {A} (x : A) (n : Z) : list A := replicate (Z.to_nat n) x.
Definition len {A} (l : list A) : Z := Z.of_nat (length l).

(** [l[i]]: a negative index counts from the end, anything else out of
    range is an IndexError. *)
Definition py_index {A} (l : list A) (i : Z) : result nat :=
  if (0 <=? i) && (i <? len l) then Ok (Z.to_nat i)
  else if (i <? 0) && (- len l <=? i) then Ok (Z.to_nat (len l + i))
  else Raise IndexError.

(** [samples[i] += v] *)
Definition list_iadd (samples : list Q) (i : Z) (v : Q) : result (list Q) :=
  rbind (py_index samples i) (fun k => Ok (alter (fun x => (x + v)%Q) k samples)).

(** [struct.pack('h', x)]: two bytes, two's complement, low byte first. *)
Definition struct_pack_h (x : Z) : result (list Z) :=
  if (-32768 <=? x) && (x <=? 32767)
  then Ok [Z.land x 255; Z.land (Z.shiftr x 8) 255]
  else Raise StructError.

(** ** The [math] module *)

Class Math : Type := {
  sin : Q -> Q;
  exp : Q -> Q;
  pi : Q;
  sin_proper : Proper (Qeq ==> Qeq) sin;
  sin_bound : forall x, (-1 <= sin x <= 1)%Q;
  sin_0 : (sin 0 == 0)%Q;
  exp_pos : forall x, (0 < exp x)%Q;
}.

(** ** The [random] module: MT19937 as CPython implements it *)

Module MT.

Definition N : nat := 624.
Definition M : nat := 397.
Definition MATRIX_A : Z := 0x9908b0df.
Definition UPPER_MASK : Z := 0x80000000.
Definition LOWER_MASK : Z := 0x7fffffff.

(** Arithmetic on [uint32_t] wraps around. *)
Definition u32 (x : Z) : Z := Z.land x 0xffffffff.

Record state : Type := { mt : list Z; index : nat }.

Definition get (a : list Z) (i : nat) : Z := nth i a 0.
Definition set (a : list Z) (i : nat) (v : Z) : list Z := <[i := v]> a.

Fixpoint init_fill (n : nat) (mti : Z) (prev : Z) : list Z :=
  match n with
  | O => []
  | S n' =>
      let x := u32 (1812433253 * (Z.lxor prev (Z.shiftr prev 30)) + mti) in
      x :: init_fill n' (mti + 1) x
  end.

Definition init_genrand (s : Z) : state :=
  {| mt := u32 s :: init_fill (N - 1) 1 (u32 s); index := N |}.

(** [if (i >= N) { mt[0] = mt[N-1]; i = 1; }] *)
Definition wrap (a : list Z) (i : nat) : list Z * nat :=
  if (N <=? i)%nat then (set a 0 (get a (N - 1)), 1%nat) else (a, i).

Fixpoint key_loop1 (k : nat) (key a : list Z) (i j : nat) : list Z * nat :=
  match k with
  | O => (a, i)
  | S k' =>
      let p := get a (i - 1) in
      let v := u32 (Z.lxor (get a i) (u32 ((Z.lxor p (Z.shiftr p 30)) * 1664525))
                    + get key j + Z.of_nat j) in
      let '(a', i') := wrap (set a i v) (S i) in
      key_loop1 k' key a' i' (if (length key <=? S j)%nat then O else S j)
  end.

Fixpoint key_loop2 (k : nat) (a : list Z) (i : nat) : list Z :=
  match k with
  | O => a
  | S k' =>
      let p := get a (i - 1) in
      let v := u32 (Z.lxor (get a i) (u32 ((Z.lxor p (Z.shiftr p 30)) * 1566083941))
                    - Z.of_nat i) in
      let '(a', i') := wrap (set a i v) (S i) in
      key_loop2 k' a' i'
  end.

Definition init_by_array (key : list Z) : state :=
  let a0 := mt (init_genrand 19650218) in
  let '(a1, i1) := key_loop1 (Nat.max N (length key)) key a0 1 0 in
  let a2 := key_loop2 (N - 1) a1 i1 in
  {| mt := set a2 0 0x80000000; index := N |}.

Definition twist (a : list Z) (kk src nxt : nat) : list Z :=
  let y := Z.lor (Z.land (get a kk) UPPER_MASK) (Z.land (get a nxt) LOWER_MASK) in
  let mag01 := if Z.testbit y 0 then MATRIX_A else 0 in
  set a kk (Z.lxor (Z.lxor (get a src) (Z.shiftr y 1)) mag01).

Fixpoint regen1 (n kk : nat) (a : list Z) : list Z :=
  match n with
  | O => a
  | S n' => regen1 n' (S kk) (twist a kk (kk + M) (S kk))
  end.

Fixpoint regen2 (n kk : nat) (a : list Z) : list Z :=
  match n with
  | O => a
  | S n' => regen2 n' (S kk) (twist a kk (kk + M - N) (S kk))
  end.

Definition regenerate (a : list Z) : list Z :=
  twist (regen2 (M - 1) (N - M) (regen1 (N - M) 0 a)) (N - 1) (M - 1) 0.

Definition temper (y0 : Z) : Z :=
  let y1 := Z.lxor y0 (Z.shiftr y0 11) in
  let y2 := Z.lxor y1 (Z.land (Z.shiftl y1 7) 0x9d2c5680) in
  let y3 := Z.lxor y2 (Z.land (Z.shiftl y2 15) 0xefc60000) in
  Z.lxor y3 (Z.shiftr y3 18).

Definition genrand_uint32 (s : state) : Z * state :=
  let '(a, i) := if (N <=? index s)%nat then (regenerate (mt s), O)
                 else (mt s, index s) in
  (u32 (temper (get a i)), {| mt := a; index := S i |}).

(** [random.seed(n)] for an int: the key is [abs(n)] in 32-bit words, low
    word first. *)
Fixpoint key_words (fuel : nat) (n : Z) : list Z :=
  match fuel with
  | O => []
  | S fuel' =>
      Z.land n 0xffffffff ::
      (if Z.shiftr n 32 =? 0 then [] else key_words fuel' (Z.shiftr n 32))
  end.

Definition seed (n : Z) : state :=
  init_by_array (key_words (S (Z.to_nat (Z.log2 (Z.abs n)))) (Z.abs n)).

(** [random.random()]: 53 random bits over 2^53. *)
Definition random (s : state) : Q * state :=
  let '(x, s1) := genrand_uint32 s in
  let '(y, s2) := genrand_uint32 s1 in
  let a := Z.shiftr x 5 in
  let b := Z.shiftr y 6 in
  (Qmake (a * 67108864 + b) 9007199254740992, s2).

End MT.

(** ** The world: the shared generator and the disk *)

(** A file written through [wave]: the header fields once they are on disk
    (channels, sample width, frame rate) and the payload bytes. *)
Record wav_data : Type := {
  params : option (Z * Z * Z);
  payload : list Z;
}.

Definition empty_wav : wav_data := {| params := None; payload := [] |}.

(** [space] is the number of payload bytes the device still accepts; a
    write beyond it is refused with OSError.  [unwritable] tells the paths
    that cannot be opened for writing (a directory that is missing, a file
    or directory without permission). *)
Record world : Type := {
  rng : MT.state;
  fs : gmap string wav_data;
  space : nat;
  unwritable : string -> bool;
}.

Definition py (A : Type) : Type := world -> result A * world.

Definition ret {A} (a : A) : py A := fun w => (Ok a, w).
Definition raise {A} (e : exn) : py A := fun w => (Raise e, w).
Definition lift {A} (r : result A) : py A := fun w => (r, w).
Definition bind {A B} (c : py A) (k : A -> py B) : py B :=
  fun w => match c w with
           | (Ok a, w') => k a w'
           | (Raise e, w') => (Raise e, w')
           end.

Declare Scope py_scope.
Delimit Scope py_scope with py.
Notation "x <- c ;; k" := (bind c (fun x => k))
  (at level 90, c at next level, right associativity) : py_scope.
Notation "c ;;; k" := (bind c (fun _ => k))
  (at level 90, right associativity) : py_scope.
Local Open Scope py_scope.

(** [for x in l: s = body(x, s)] *)
Fixpoint for_each {A S} (l : list A) (body : A -> S -> py S) (s : S) : py S :=
  match l with
  | [] => ret s
  | x :: l' => s' <- body x s ;; for_each l' body s'
  end.

Definition for_range {S} (n : Z) (body : Z -> S -> py S) (s : S) : py S :=
  for_each (py_range n) body s.

Definition random_seed (n : Z) : py unit :=
  fun w => (Ok tt, {| rng := MT.seed n; fs := fs w; space := space w;
                      unwritable := unwritable w |}).

Definition random_random : py Q :=
  fun w => let '(r, g) := MT.random (rng w) in
           (Ok r, {| rng := g; fs := fs w; space := space w;
                     unwritable := unwritable w |}).

(** ** The [wave] module, as far as the scripts use it *)

(** The [Wave_write] object: the destination and the parameters set on it. *)
Record Wave_write : Type := {
  wpath : string;
  nchannels : Z;
  sampwidth : Z;
  framerate : Z;
}.

(** [wave.open(filename, 'w')] opens the destination for writing at once:
    the file exists, empty, from here on.  When the destination cannot be
    opened, [open] raises FileNotFoundError or PermissionError, which are
    OSErrors, and nothing is created. *)
Definition wave_open (filename : string) : py Wave_write :=
  fun w =>
    if unwritable w filename then (Raise OSError, w)
    else (Ok {| wpath := filename; nchannels := 0; sampwidth := 0; framerate := 0 |},
          {| rng := rng w; fs := <[filename := empty_wav]> (fs w); space := space w;
             unwritable := unwritable w |}).

Definition setnchannels (f : Wave_write) (n : Z) : Wave_write :=
  {| wpath := wpath f; nchannels := n; sampwidth := sampwidth f; framerate := framerate f |}.
Definition setsampwidth (f : Wave_write) (n : Z) : Wave_write :=
  {| wpath := wpath f; nchannels := nchannels f; sampwidth := n; framerate := framerate f |}.
Definition setframerate (f : Wave_write) (n : Z) : Wave_write :=
  {| wpath := wpath f; nchannels := nchannels f; sampwidth := sampwidth f; framerate := n |}.

Definition header (f : Wave_write) : Z * Z * Z := (nchannels f, sampwidth f, framerate f).

Definition file_at (w : world) (p : string) : wav_data := default empty_wav (fs w !! p).

(** [wav_file.writeframes(data)]: the header goes out with the first frames
    and is kept in step with the payload after every call. *)
Definition writeframes (f : Wave_write) (data : list Z) : py unit :=
  fun w =>
    if (length data <=? space w)%nat
    then (Ok tt,
          {| rng := rng w;
             fs := <[wpath f := {| params := Some (header f);
                                    payload := payload (file_at w (wpath f)) ++ data |}]> (fs w);
             space := space w - length data;
             unwritable := unwritable w |})
    else (Raise OSError, w).

(** [wav_file.close()]: a header is written if none was. *)
Definition wave_close (f : Wave_write) : py unit :=
  fun w => (Ok tt,
            {| rng := rng w;
               fs := <[wpath f := {| params := Some (header f);
                                      payload := payload (file_at w (wpath f)) |}]> (fs w);
               space := space w;
               unwritable := unwritable w |}).

(** [with wave.open(filename, 'w') as wav_file: setters; body]: the scripts
    set the parameters first ([setup]), then write; the file is closed on
    the way out, also when [body] raises, and the exception goes on.  When
    [wave.open] itself raises, the block is not entered. *)
Definition with_wave_open {A} (filename : string)
    (setup : Wave_write -> Wave_write) (body : Wave_write -> py A) : py A :=
  wav_file <- wave_open filename ;;
  let wav_file := setup wav_file in
  fun w => let '(r, w') := body wav_file w in
           let '(_, w'') := wave_close wav_file w' in
           (r, w'').

(** ** Loops the generators share *)

Definition sample_rate : Z := 44100.

(** [samples = [0.0] * num_samples] *)
Definition zeros (num_samples : Z) : list Q := py_repeat 0%Q num_samples.

(** The accumulation loop of a component that starts with the buffer:
    [for i in range(count): samples[i] += value(i)]. *)
Definition add_samples (count : Z) (value : Z -> py Q) (samples : list Q)
    : py (list Q) :=
  for_range count (fun i samples =>
    v <- value i ;;
    lift (list_iadd samples i v)) samples.

(** The accumulation loop of a component that starts at [start]:
    [for i in range(count):
         sample_idx = start + i
         if sample_idx < num_samples:
             samples[sample_idx] += value(i)]. *)
Definition add_samples_at (num_samples start count : Z) (value : Z -> py Q)
    (samples : list Q) : py (list Q) :=
  for_range count (fun i samples =>
    let sample_idx := start + i in
    if sample_idx <? num_samples
    then v <- value i ;; lift (list_iadd samples sample_idx v)
    else ret samples) samples.

(** The write loop: [for sample in samples:
                        wav_file.writeframes(struct.pack('h', to_int(sample)))]
    inside [with wave.open(...)], after the three setters. *)
Definition write_wav {A} (filename : string) (to_int : A -> Z) (samples : list A)
    : py unit :=
  with_wave_open filename
    (fun wav_file => setframerate (setsampwidth (setnchannels wav_file 1) 2) sample_rate)
    (fun wav_file =>
       for_each samples (fun sample _ =>
         let sample_int := to_int sample in
         frame <- lift (struct_pack_h sample_int) ;;
         writeframes wav_file frame) tt).

(** [int(max(-32767, min(32767, sample * 32767)))] *)
Definition clamp_to_int16 (sample : Q) : Z :=
  py_int (py_max (-32767) (py_min 32767 (sample * 32767)%Q)).

(** The final pass of the mech and thock generators: normalize first, then
    apply the volume.
    [max_sample = max(abs(s) for s in samples)
     if max_sample > 0:
         normalization = 1.0 / max_sample
         samples = [s * normalization for s in samples]
     samples = [s * volume for s in samples]] *)
Definition normalize_and_apply_volume (samples : list Q) (volume : Q)
    : result (list Q) :=
  rbind (py_max_list (map Qabs samples)) (fun max_sample =>
  rbind (if Qltb 0 max_sample
         then rbind (float_div 1.0 max_sample) (fun normalization =>
              Ok (map (fun s => float_mul s normalization) samples))
         else Ok samples) (fun samples =>
  Ok (map (fun s => float_mul s volume) samples))).

(** [(random.random() - 0.5) * range]: the jitter and noise draws. *)
Definition random_jitter (range : Q) : py Q :=
  r <- random_random ;;
  ret ((r - 0.5) * range)%Q.

(** [sum(l)] *)
Definition py_sum (l : list Q) : Q := fold_left Qplus l 0%Q.

(** [l[i]] as an expression. *)
Definition py_getitem (l : list Q) (i : Z) : result Q :=
  rbind (py_index l i) (fun k => Ok (nth k l 0%Q)).

(** [os.path.join(sounds_dir, name)] *)
Definition path_join (sounds_dir name : string) : string :=
  sounds_dir +:+ "/" +:+ name.

(** Divisions whose divisor is fixed by the constants of a script
    ([sample_rate], [click_samples * 0.1], ...) are written with [/]: the
    divisor is not zero.  Where it depends on a parameter, [fdiv] is used. *)

(** ** generate-sounds.py *)

Module GenerateSounds.
Section WithMath.
Context {math : Math}.
Local Open Scope Q_scope.

(** The fades of [generate_tone] and [generate_chord]: fade out in the last
    20%, fade in in the first 5%. *)
Definition apply_fades (num_samples i : Z) (sample : Q) : result Q :=
  rbind (if Qltb (num_samples * 0.8) i
         then rbind (fdiv (i - num_samples * 0.8) (num_samples * 0.2)) (fun q =>
              let fade := 1.0 - q in
              Ok (sample * fade))
         else Ok sample) (fun sample =>
  if Qltb i (num_samples * 0.05)
  then rbind (fdiv i (num_samples * 0.05)) (fun fade => Ok (sample * fade))
  else Ok sample).

(** The sample loop of [generate_tone]. *)
Definition tone_samples (frequency duration volume : Q) : py (list Z) :=
  let num_samples := py_int (float_mul sample_rate duration) in
  for_range num_samples (fun i samples =>
      let sample := volume * sin (2 * pi * frequency * i / sample_rate) in
      sample <- lift (apply_fades num_samples i sample) ;;
      let sample_int := py_int (sample * 32767) in
      ret (samples ++ [sample_int])) [].

Definition generate_tone (filename : string) (frequency duration volume : Q)
    : py unit :=
  samples <- tone_samples frequency duration volume ;;
  write_wav filename (fun sample => sample) samples.

(** The sample loop of [generate_chord]. *)
Definition chord_samples (frequencies : list Q) (duration volume : Q)
    : py (list Z) :=
  let num_samples := py_int (float_mul sample_rate duration) in
  for_range num_samples (fun i samples =>
      let sample := fold_left (fun sample freq =>
          sample + volume * sin (2 * pi * freq * i / sample_rate)) frequencies 0 in
      sample <- lift (fdiv sample (len frequencies)) ;;
      sample <- lift (apply_fades num_samples i sample) ;;
      let sample_int := py_int (sample * 32767) in
      ret (samples ++ [sample_int])) [].

Definition generate_chord (filename : string) (frequencies : list Q)
    (duration volume : Q) : py unit :=
  samples <- chord_samples frequencies duration volume ;;
  write_wav filename (fun sample => sample) samples.

(** One click of [generate_keyboard_click]: the body of
    [for click_num in range(num_clicks)]. *)
Definition keyboard_click (num_samples : Z) (volume : Q) (click_num : Z)
    (samples : list Q) : py (list Q) :=
  let click_duration := 0.025 in
  let gap_duration := 0.035 in
  let start_time := click_num * (click_duration + gap_duration) in
  let start_sample := py_int (start_time * sample_rate) in
  let click_samples := py_int (click_duration * sample_rate) in
  jitter <- random_jitter 0.1 ;;
  let freq_variation := 1.0 + jitter in
  let frequencies := [3000 * freq_variation; 4500 * freq_variation;
                      6000 * freq_variation] in
  add_samples_at num_samples start_sample click_samples (fun i =>
      let sample := fold_left (fun sample freq =>
          sample + volume * sin (2 * pi * freq * i / sample_rate)) frequencies 0 in
      r <- random_random ;;
      let noise := (r - 0.5) * volume * 0.15 in
      let sample := sample + noise in
      let sample := sample / (len frequencies + 1)%Z in
      let sample :=
        if Qltb i (click_samples * 0.1)
        then let attack := i / (click_samples * 0.1) in sample * (attack * attack)
        else sample in
      let sample :=
        if Qltb (click_samples * 0.3) i
        then let decay_progress := (i - click_samples * 0.3) / (click_samples * 0.7) in
             let decay := 1.0 - (decay_progress * decay_progress) in
             sample * decay
        else sample in
      ret sample) samples.

Definition keyboard_total_duration (num_clicks : Z) : Q :=
  let click_duration := 0.025 in
  let gap_duration := 0.035 in
  (click_duration * num_clicks) + (gap_duration * (num_clicks - 1)%Z).

Definition generate_keyboard_click (filename : string) (num_clicks : Z) (volume : Q)
    : py unit :=
  let total_duration := keyboard_total_duration num_clicks in
  let num_samples := py_int (sample_rate * total_duration) in
  let samples := zeros num_samples in
  samples <- for_range num_clicks (keyboard_click num_samples volume) samples ;;
  write_wav filename clamp_to_int16 samples.

(** One tone of the ascending melody: the body of
    [for freq, start_time, tone_duration in tones]. *)
Definition melody_tone (num_samples : Z) (tone : Q * Q * Q) (samples : list Q)
    : py (list Q) :=
  let '(freq, start_time, tone_duration) := tone in
  let start_sample := py_int (start_time * sample_rate) in
  let tone_samples := py_int (tone_duration * sample_rate) in
  add_samples_at num_samples start_sample tone_samples (fun i =>
      let sample := 0.25 * sin (2 * pi * freq * i / sample_rate) in
      let sample :=
        if Qltb i (tone_samples * 0.05)
        then sample * (i / (tone_samples * 0.05))
        else sample in
      let sample :=
        if Qltb (tone_samples * 0.8) i
        then let fade := 1.0 - ((i - tone_samples * 0.8) / (tone_samples * 0.2)) in
             sample * fade
        else sample in
      ret sample) samples.

Definition tones : list (Q * Q * Q) :=
  [ (523.25, 0.0, 0.15);
    (659.25, 0.15, 0.15);
    (783.99, 0.3, 0.3) ].

(** The buffer of complete.wav, as [main] mixes it. *)
Definition complete_samples : py (list Q) :=
  let duration := 0.6 in
  let num_samples := py_int (sample_rate * duration) in
  let samples := zeros num_samples in
  for_each tones (melody_tone num_samples) samples.

Definition main (sounds_dir : string) : py unit :=
  generate_chord (path_join sounds_dir "bell.wav") [800; 1000; 1200] 0.4 0.25 ;;;
  generate_chord (path_join sounds_dir "chime.wav") [1046.50; 1318.51] 0.5 0.3 ;;;
  generate_tone (path_join sounds_dir "subtle.wav") 880 0.15 0.2 ;;;
  samples <- complete_samples ;;
  write_wav (path_join sounds_dir "complete.wav")
    (fun sample => py_int (sample * 32767)) samples ;;;
  random_seed 42 ;;;
  generate_keyboard_click (path_join sounds_dir "click.wav") 1 0.15 ;;;
  random_seed 43 ;;;
  generate_keyboard_click (path_join sounds_dir "clicks.wav") 3 0.15.

End WithMath.
End GenerateSounds.

(** ** add-mechanical-sound.py *)

Module AddMechanicalSound.
Section WithMath.
Context {math : Math}.
Local Open Scope Q_scope.

(** Component 1: sharp high-frequency click (switch activation). *)
Definition click_component (num_samples : Z) (samples : list Q) : py (list Q) :=
  let click_duration := 0.008 in
  let click_samples := py_int (click_duration * sample_rate) in
  let click_freq := 4500 in
  add_samples (Z.min click_samples num_samples) (fun i =>
      let t := i / sample_rate in
      let envelope := exp (- t * 180) in
      let sample := 0 in
      let sample := sample + sin (2 * pi * click_freq * t) * envelope in
      let sample := sample + 0.5 * sin (2 * pi * click_freq * 2 * t) * envelope in
      let sample := sample + 0.3 * sin (2 * pi * click_freq * 3 * t) * envelope in
      ret (sample * 0.6)) samples.

(** Component 2: mid-frequency clack (keycap impact). *)
Definition clack_component (num_samples : Z) (samples : list Q) : py (list Q) :=
  let clack_start := 0.003 in
  let clack_duration := 0.015 in
  let clack_start_sample := py_int (clack_start * sample_rate) in
  let clack_samples := py_int (clack_duration * sample_rate) in
  let clack_freq := 2000 in
  add_samples_at num_samples clack_start_sample clack_samples (fun i =>
      let t := i / sample_rate in
      let envelope := exp (- t * 100) in
      let sample := sin (2 * pi * clack_freq * t) * envelope in
      let sample := sample + 0.4 * sin (2 * pi * clack_freq * 1.5 * t) * envelope in
      ret (sample * 0.5)) samples.

(** Component 3: low-frequency thock (housing resonance). *)
Definition thock_component (num_samples : Z) (samples : list Q) : py (list Q) :=
  let thock_start := 0.005 in
  let thock_duration := 0.03 in
  let thock_start_sample := py_int (thock_start * sample_rate) in
  let thock_samples := py_int (thock_duration * sample_rate) in
  let thock_freq := 400 in
  add_samples_at num_samples thock_start_sample thock_samples (fun i =>
      let t := i / sample_rate in
      let envelope := exp (- t * 50) in
      let sample := sin (2 * pi * thock_freq * t) * envelope in
      let sample := sample + 0.3 * sin (2 * pi * thock_freq * 2 * t) * envelope in
      ret (sample * 0.4)) samples.

(** Component 4: broadband noise burst, from the generator re-seeded with 42. *)
Definition noise_component (num_samples : Z) (samples : list Q) : py (list Q) :=
  let noise_duration := 0.012 in
  let noise_samples := py_int (noise_duration * sample_rate) in
  random_seed 42 ;;;
  add_samples (Z.min noise_samples num_samples) (fun i =>
      let t := i / sample_rate in
      let envelope := exp (- t * 150) in
      r <- random_random ;;
      let noise := (r - 0.5) * 2.0 in
      ret (noise * envelope * 0.15)) samples.

(** The buffer of [generate_mechanical_keyboard_click] before the final pass. *)
Definition mechanical_click_samples : py (list Q) :=
  let duration := 0.06 in
  let num_samples := py_int (sample_rate * duration) in
  let samples := zeros num_samples in
  samples <- click_component num_samples samples ;;
  samples <- clack_component num_samples samples ;;
  samples <- thock_component num_samples samples ;;
  noise_component num_samples samples.

Definition generate_mechanical_keyboard_click (filename : string) (volume : Q)
    : py unit :=
  samples <- mechanical_click_samples ;;
  samples <- lift (normalize_and_apply_volume samples volume) ;;
  write_wav filename clamp_to_int16 samples.

(** "Generate one mechanical click at this position": the four components
    of one click of the typing sound. *)
Definition one_click (num_samples start_sample : Z) (samples : list Q)
    : py (list Q) :=
  jitter <- random_jitter 0.08 ;;
  let freq_variation := 1.0 + jitter in
  let click_duration := 0.008 in
  let click_sample_count := py_int (click_duration * sample_rate) in
  let click_freq := 4500 * freq_variation in
  samples <- add_samples_at num_samples start_sample click_sample_count (fun i =>
      let t := i / sample_rate in
      let envelope := exp (- t * 180) in
      let sample := 0 in
      let sample := sample + sin (2 * pi * click_freq * t) * envelope in
      let sample := sample + 0.5 * sin (2 * pi * click_freq * 2 * t) * envelope in
      let sample := sample + 0.3 * sin (2 * pi * click_freq * 3 * t) * envelope in
      ret (sample * 0.6)) samples ;;
  let clack_start := 0.003 in
  let clack_duration := 0.015 in
  let clack_start_sample := py_int (clack_start * sample_rate) in
  let clack_sample_count := py_int (clack_duration * sample_rate) in
  let clack_freq := 2000 * freq_variation in
  samples <- add_samples_at num_samples (start_sample + clack_start_sample)
               clack_sample_count (fun i =>
      let t := i / sample_rate in
      let envelope := exp (- t * 100) in
      let sample := sin (2 * pi * clack_freq * t) * envelope in
      let sample := sample + 0.4 * sin (2 * pi * clack_freq * 1.5 * t) * envelope in
      ret (sample * 0.5)) samples ;;
  let thock_start := 0.005 in
  let thock_duration := 0.03 in
  let thock_start_sample := py_int (thock_start * sample_rate) in
  let thock_sample_count := py_int (thock_duration * sample_rate) in
  let thock_freq := 400 * freq_variation in
  samples <- add_samples_at num_samples (start_sample + thock_start_sample)
               thock_sample_count (fun i =>
      let t := i / sample_rate in
      let envelope := exp (- t * 50) in
      let sample := sin (2 * pi * thock_freq * t) * envelope in
      let sample := sample + 0.3 * sin (2 * pi * thock_freq * 2 * t) * envelope in
      ret (sample * 0.4)) samples ;;
  let noise_duration := 0.012 in
  let noise_sample_count := py_int (noise_duration * sample_rate) in
  add_samples_at num_samples start_sample noise_sample_count (fun i =>
      let t := i / sample_rate in
      let envelope := exp (- t * 150) in
      r <- random_random ;;
      let noise := (r - 0.5) * 2.0 in
      ret (noise * envelope * 0.15)) samples.

Definition click_base_duration : Q := 0.06.
Definition gap_duration : Q := 0.04.

(** [[gap_duration + (random.random() - 0.5) * 0.02 for _ in range(num_clicks - 1)]] *)
Definition draw_gap_variations (num_clicks : Z) : py (list Q) :=
  for_range (num_clicks - 1)%Z (fun _ gaps =>
      jitter <- random_jitter 0.02 ;;
      ret (gaps ++ [gap_duration + jitter])) [].

(** The body of [for click_num in range(num_clicks)]; the loop carries the
    buffer and [current_position]. *)
Definition click_step (num_samples : Z) (gap_variations : list Q) (click_num : Z)
    (st : list Q * Q) : py (list Q * Q) :=
  let '(samples, current_position) := st in
  let start_sample := py_int (current_position * sample_rate) in
  samples <- one_click num_samples start_sample samples ;;
  let current_position := current_position + click_base_duration in
  current_position <-
    (if (click_num <? len gap_variations)%Z
     then gap <- lift (py_getitem gap_variations click_num) ;;
          ret (current_position + gap)
     else ret current_position) ;;
  ret (samples, current_position).

Definition generate_multiple_mechanical_clicks (filename : string)
    (num_clicks : Z) (volume : Q) : py unit :=
  random_seed 44 ;;;
  gap_variations <- draw_gap_variations num_clicks ;;
  let total_duration := (click_base_duration * num_clicks) + py_sum gap_variations in
  let num_samples := py_int (sample_rate * total_duration) in
  let samples := zeros num_samples in
  st <- for_range num_clicks (click_step num_samples gap_variations) (samples, 0) ;;
  let samples := fst st in
  samples <- lift (normalize_and_apply_volume samples volume) ;;
  write_wav filename clamp_to_int16 samples.

Definition main (sounds_dir : string) : py unit :=
  generate_mechanical_keyboard_click (path_join sounds_dir "mech.wav") 0.15 ;;;
  generate_multiple_mechanical_clicks (path_join sounds_dir "mechs.wav") 3 0.15.

End WithMath.
End AddMechanicalSound.

(** ** add-thock-sounds.py *)

Module AddThockSounds.
Section WithMath.
Context {math : Math}.
Local Open Scope Q_scope.

(** Component 1: reduced high-frequency click. *)
Definition click_component (num_samples : Z) (samples : list Q) : py (list Q) :=
  let click_duration := 0.006 in
  let click_samples := py_int (click_duration * sample_rate) in
  let click_freq := 4000 in
  add_samples (Z.min click_samples num_samples) (fun i =>
      let t := i / sample_rate in
      let envelope := exp (- t * 200) in
      let sample := 0 in
      let sample := sample + sin (2 * pi * click_freq * t) * envelope in
      let sample := sample + 0.3 * sin (2 * pi * click_freq * 2 * t) * envelope in
      ret (sample * 0.3)) samples.

(** Component 2: moderate mid-frequency clack. *)
Definition clack_component (num_samples : Z) (samples : list Q) : py (list Q) :=
  let clack_start := 0.003 in
  let clack_duration := 0.012 in
  let clack_start_sample := py_int (clack_start * sample_rate) in
  let clack_samples := py_int (clack_duration * sample_rate) in
  let clack_freq := 1800 in
  add_samples_at num_samples clack_start_sample clack_samples (fun i =>
      let t := i / sample_rate in
      let envelope := exp (- t * 90) in
      let sample := sin (2 * pi * clack_freq * t) * envelope in
      let sample := sample + 0.3 * sin (2 * pi * clack_freq * 1.5 * t) * envelope in
      ret (sample * 0.4)) samples.

Definition thock_start : Q := 0.004.
Definition thock_duration : Q := 0.05.
Definition thock_decay : Q := 35.

(** The value the thock adds at local sample [i]. *)
Definition thock_value (i : Z) : Q :=
  let thock_freq := 350 in
  let t := i / sample_rate in
  let envelope := exp (- t * thock_decay) in
  let sample := sin (2 * pi * thock_freq * t) * envelope in
  let sample := sample + 0.5 * sin (2 * pi * thock_freq * 2 * t) * envelope in
  let sample := sample + 0.3 * sin (2 * pi * thock_freq * 3 * t) * envelope in
  sample * 0.9.

(** Component 3: emphasized low-frequency thock. *)
Definition thock_component (num_samples : Z) (samples : list Q) : py (list Q) :=
  let thock_start_sample := py_int (thock_start * sample_rate) in
  let thock_samples := py_int (thock_duration * sample_rate) in
  add_samples_at num_samples thock_start_sample thock_samples
    (fun i => ret (thock_value i)) samples.

(** Component 4: minimal noise, from the generator re-seeded with 45. *)
Definition noise_component (num_samples : Z) (samples : list Q) : py (list Q) :=
  let noise_duration := 0.008 in
  let noise_samples := py_int (noise_duration * sample_rate) in
  random_seed 45 ;;;
  add_samples (Z.min noise_samples num_samples) (fun i =>
      let t := i / sample_rate in
      let envelope := exp (- t * 170) in
      r <- random_random ;;
      let noise := (r - 0.5) * 2.0 in
      ret (noise * envelope * 0.08)) samples.

Definition duration : Q := 0.08.

(** The buffer of [generate_thock_click] before the final pass. *)
Definition thock_click_samples : py (list Q) :=
  let num_samples := py_int (sample_rate * duration) in
  let samples := zeros num_samples in
  samples <- click_component num_samples samples ;;
  samples <- clack_component num_samples samples ;;
  samples <- thock_component num_samples samples ;;
  noise_component num_samples samples.

Definition generate_thock_click (filename : string) (volume : Q) : py unit :=
  samples <- thock_click_samples ;;
  samples <- lift (normalize_and_apply_volume samples volume) ;;
  write_wav filename clamp_to_int16 samples.

(** The four components of one click of the typing sound. *)
Definition one_click (num_samples start_sample : Z) (samples : list Q)
    : py (list Q) :=
  jitter <- random_jitter 0.08 ;;
  let freq_variation := 1.0 + jitter in
  let click_duration := 0.006 in
  let click_sample_count := py_int (click_duration * sample_rate) in
  let click_freq := 4000 * freq_variation in
  samples <- add_samples_at num_samples start_sample click_sample_count (fun i =>
      let t := i / sample_rate in
      let envelope := exp (- t * 200) in
      let sample := 0 in
      let sample := sample + sin (2 * pi * click_freq * t) * envelope in
      let sample := sample + 0.3 * sin (2 * pi * click_freq * 2 * t) * envelope in
      ret (sample * 0.3)) samples ;;
  let clack_start := 0.003 in
  let clack_duration := 0.012 in
  let clack_start_sample := py_int (clack_start * sample_rate) in
  let clack_sample_count := py_int (clack_duration * sample_rate) in
  let clack_freq := 1800 * freq_variation in
  samples <- add_samples_at num_samples (start_sample + clack_start_sample)
               clack_sample_count (fun i =>
      let t := i / sample_rate in
      let envelope := exp (- t * 90) in
      let sample := sin (2 * pi * clack_freq * t) * envelope in
      let sample := sample + 0.3 * sin (2 * pi * clack_freq * 1.5 * t) * envelope in
      ret (sample * 0.4)) samples ;;
  let thock_start := 0.004 in
  let thock_duration := 0.05 in
  let thock_start_sample := py_int (thock_start * sample_rate) in
  let thock_sample_count := py_int (thock_duration * sample_rate) in
  let thock_freq := 350 * freq_variation in
  samples <- add_samples_at num_samples (start_sample + thock_start_sample)
               thock_sample_count (fun i =>
      let t := i / sample_rate in
      let envelope := exp (- t * 35) in
      let sample := sin (2 * pi * thock_freq * t) * envelope in
      let sample := sample + 0.5 * sin (2 * pi * thock_freq * 2 * t) * envelope in
      let sample := sample + 0.3 * sin (2 * pi * thock_freq * 3 * t) * envelope in
      ret (sample * 0.9)) samples ;;
  let noise_duration := 0.008 in
  let noise_sample_count := py_int (noise_duration * sample_rate) in
  add_samples_at num_samples start_sample noise_sample_count (fun i =>
      let t := i / sample_rate in
      let envelope := exp (- t * 170) in
      r <- random_random ;;
      let noise := (r - 0.5) * 2.0 in
      ret (noise * envelope * 0.08)) samples.

Definition click_base_duration : Q := 0.08.
Definition gap_duration : Q := 0.045.

(** [[gap_duration + (random.random() - 0.5) * 0.02 for _ in range(num_clicks - 1)]] *)
Definition draw_gap_variations (num_clicks : Z) : py (list Q) :=
  for_range (num_clicks - 1)%Z (fun _ gaps =>
      jitter <- random_jitter 0.02 ;;
      ret (gaps ++ [gap_duration + jitter])) [].

(** The body of [for click_num in range(num_clicks)]; the loop carries the
    buffer and [current_position]. *)
Definition click_step (num_samples : Z) (gap_variations : list Q) (click_num : Z)
    (st : list Q * Q) : py (list Q * Q) :=
  let '(samples, current_position) := st in
  let start_sample := py_int (current_position * sample_rate) in
  samples <- one_click num_samples start_sample samples ;;
  let current_position := current_position + click_base_duration in
  current_position <-
    (if (click_num <? len gap_variations)%Z
     then gap <- lift (py_getitem gap_variations click_num) ;;
          ret (current_position + gap)
     else ret current_position) ;;
  ret (samples, current_position).

Definition generate_multiple_thock_clicks (filename : string)
    (num_clicks : Z) (volume : Q) : py unit :=
  random_seed 46 ;;;
  gap_variations <- draw_gap_variations num_clicks ;;
  let total_duration := (click_base_duration * num_clicks) + py_sum gap_variations in
  let num_samples := py_int (sample_rate * total_duration) in
  let samples := zeros num_samples in
  st <- for_range num_clicks (click_step num_samples gap_variations) (samples, 0) ;;
  let samples := fst st in
  samples <- lift (normalize_and_apply_volume samples volume) ;;
  write_wav filename clamp_to_int16 samples.

Definition main (sounds_dir : string) : py unit :=
  generate_thock_click (path_join sounds_dir "thock.wav") 0.15 ;;;
  generate_multiple_thock_clicks (path_join sounds_dir "thocks.wav") 3 0.15.

End WithMath.
End AddThockSounds.

(** ** A rational stand-in for [math], to run the generators on

    [2x / (1 + x^2)] stays within [-1, 1] and vanishes at 0; [1 + x] for
    [x >= 0] and [1 / (1 - x)] below is positive. *)

Definition rational_sin (x : Q) : Q := (2 * x / (1 + x * x))%Q.
Definition rational_exp (x : Q) : Q :=
  if Qle_bool 0 x then (1 + x)%Q else (1 / (1 - x))%Q.

Definition rational_math : Math.
Proof.
  assert (Hsq : forall y : Q, (0 <= y * y)%Q).
  { intros y. destruct (Qlt_le_dec y 0) as [Hn | Hp].
    - assert (E : (y * y == (- y) * (- y))%Q) by ring.
      rewrite E. apply Qmult_le_0_compat; lra.
    - apply Qmult_le_0_compat; lra. }
  refine {| sin := rational_sin; exp := rational_exp; pi := 3.141592653589793%Q |}.
  - intros x y E. unfold rational_sin. rewrite E. reflexivity.
  - intros x. unfold rational_sin.
    pose proof (Hsq x) as H0. pose proof (Hsq (x + 1)%Q) as H1.
    pose proof (Hsq (x - 1)%Q) as H2.
    split; [apply Qle_shift_div_l; lra | apply Qle_shift_div_r; lra].
  - reflexivity.
  - intros x. unfold rational_exp. destruct (Qle_bool 0 x) eqn:E.
    + apply Qle_bool_iff in E. lra.
    + assert (Hx : (x < 0)%Q).
      { apply Qnot_le_lt. intros Hle. apply Qle_bool_iff in Hle. congruence. }
      apply Qlt_shift_div_l; lra.
Defined.


(** * Definitions the properties are stated with *)

(** A per-sample value that never raises: it yields [h i w] and leaves the
    world [adv w]. *)
Definition advances (value : Z -> py Q) (h : Z -> world -> Q)
    (adv : world -> world) : Prop :=
  forall i w, value i w = (Ok (h i w), adv w).

(** The world after one call of [random.random()], and the number drawn. *)
Definition draw (w : world) : world :=
  {| rng := snd (MT.random (rng w)); fs := fs w; space := space w;
     unwritable := unwritable w |}.
Definition drawn (w : world) : Q := fst (MT.random (rng w)).

(** The world after [random.seed(n)]. *)
Definition seeded (n : Z) (w : world) : world :=
  {| rng := MT.seed n; fs := fs w; space := space w; unwritable := unwritable w |}.

(** The generator after [n] draws depends on the generator before only. *)
Fixpoint draws (n : nat) (g : MT.state) : MT.state :=
  match n with
  | O => g
  | S n' => snd (MT.random (draws n' g))
  end.

(** The payload bytes of a list of 16-bit values. *)
Definition frame_bytes (ints : list Z) : list Z :=
  concat (map (fun x => [Z.land x 255; Z.land (Z.shiftr x 8) 255]) ints).

Definition int16 (x : Z) : Prop := -32768 <= x <= 32767.

Definition wav_header : Z * Z * Z := (1, 2, sample_rate).

(** [clamp(s, lo, hi)] *)
Definition spec_clamp (s lo hi : Q) : Q :=
  if Qltb s lo then lo else if Qltb hi s then hi else s.

(** [round(x)]: the nearest integer, a tie going to the even one. *)
Definition spec_round (x : Q) : Z :=
  let f := Qfloor x in
  let d := (x - inject_Z f)%Q in
  if Qltb d (1 # 2) then f
  else if Qltb (1 # 2) d then f + 1
  else if Z.even f then f else f + 1.


(** The largest magnitude among the stored values. *)
Definition peak_magnitude (ints : list Z) : Z :=
  fold_right Z.max 0 (map Z.abs ints).

(** A loop of the generators that succeeds, keeps the length of the buffer
    and moves the world by [adv]. *)
Definition keeps_length (c : list Q -> py (list Q)) (n : Z) (adv : world -> world)
    : Prop :=
  forall samples w, n <= len samples ->
  exists samples', c samples w = (Ok samples', adv w) /\ length samples' = length samples.

(** Two worlds with the same disk: they may differ in the generator. *)
Definition same_disk (w1 w2 : world) : Prop :=
  fs w1 = fs w2 /\ space w1 = space w2 /\ unwritable w1 = unwritable w2.

(** The result of [c] and the disk it leaves do not depend on the state the
    shared generator is in when [c] starts. *)
Definition oblivious {A} (c : py A) : Prop :=
  forall w1 w2, same_disk w1 w2 ->
    fst (c w1) = fst (c w2) /\ same_disk (snd (c w1)) (snd (c w2)).

(** [c] moreover leaves the generator in a state of its own choosing. *)
Definition resets {A} (c : py A) : Prop :=
  forall w1 w2, same_disk w1 w2 -> c w1 = c w2.

(** The gaps the typing sounds draw: [m] of them, one draw each, starting
    in world [w]. *)
Fixpoint gaps_drawn (gap_duration range : Q) (m : nat) (w : world) : list Q :=
  match m with
  | O => []
  | S m' => (gap_duration + (drawn w - 0.5) * range)%Q
            :: gaps_drawn gap_duration range m' (draw w)
  end.

(** [sum over j < k of (click_base_duration + gap_j)] *)
Definition spec_offset (click_base_duration : Q) (gaps : list Q) (k : nat) : Q :=
  py_sum (map (fun gap => (click_base_duration + gap)%Q) (take k gaps)).

(** The world a single click leaves: the generator [draws] after the seed;
    nothing on the disk when the destination cannot be opened, and
    otherwise at [filename] the header and the frames the device had room
    for. *)
Definition click_outcome (seed : Z) (draws_made : nat) (filename : string)
    (stored : list Z) (w : world) : result unit * world :=
  let k := Nat.min (length stored) (space w / 2) in
  if unwritable w filename
  then (Raise OSError,
        {| rng := draws draws_made (MT.seed seed); fs := fs w; space := space w;
           unwritable := unwritable w |})
  else
  (if (length stored <=? space w / 2)%nat then Ok tt else Raise OSError,
   {| rng := draws draws_made (MT.seed seed);
      fs := <[filename := {| params := Some wav_header;
                             payload := frame_bytes (take k stored) |}]> (fs w);
      space := space w - 2 * k;
      unwritable := unwritable w |}).

(** A world to run the scripts in: the generator as [random.seed(7)] leaves
    it, an empty disk with room for [room] payload bytes, where every path
    can be opened. *)
Definition fresh_world (room : nat) : world :=
  {| rng := MT.seed 7; fs := ∅; space := room; unwritable := fun _ => false |}.

(** ** The melody of complete.wav *)

Section MelodyValue.
Context {math : Math}.
Local Open Scope Q_scope.

(** The value a tone of the melody adds at its local sample [i]. *)
Definition melody_value (freq : Q) (tone_samples i : Z) : Q :=
  let sample := 0.25 * sin (2 * pi * freq * i / sample_rate) in
  let sample :=
    if Qltb i (tone_samples * 0.05)
    then sample * (i / (tone_samples * 0.05))
    else sample in
  let sample :=
    if Qltb (tone_samples * 0.8) i
    then let fade := 1.0 - ((i - tone_samples * 0.8) / (tone_samples * 0.2)) in
         sample * fade
    else sample in
  sample.

(** Buffers whose samples are all within the amplitude of one tone and
    still silent from [start] on. *)
Definition melody_so_far (start : Z) (samples : list Q) : Prop :=
  forall (k : nat) (x : Q), samples !! k = Some x ->
    - (0.25) <= x <= 0.25 /\ ((start <= Z.of_nat k)%Z -> x == 0).

End MelodyValue.

(** ** Definitions for the whole runs *)

Section KeyboardValue.
Context {math : Math}.
Local Open Scope Q_scope.

(** The value one click adds at its local sample [i], given the frequency
    jitter of the click and the number [r] drawn for the noise. *)
Definition keyboard_value (volume jitter : Q) (i : Z) (r : Q) : Q :=
  let click_samples := py_int (0.025 * sample_rate) in
  let freq_variation := 1.0 + jitter in
  let frequencies := [3000 * freq_variation; 4500 * freq_variation;
                      6000 * freq_variation] in
  let sample := fold_left (fun sample freq =>
      sample + volume * sin (2 * pi * freq * i / sample_rate)) frequencies 0 in
  let noise := (r - 0.5) * volume * 0.15 in
  let sample := sample + noise in
  let sample := sample / (len frequencies + 1)%Z in
  let sample :=
    if Qltb i (click_samples * 0.1)
    then let attack := i / (click_samples * 0.1) in sample * (attack * attack)
    else sample in
  let sample :=
    if Qltb (click_samples * 0.3) i
    then let decay_progress := (i - click_samples * 0.3) / (click_samples * 0.7) in
         let decay := 1.0 - (decay_progress * decay_progress) in
         sample * decay
    else sample in
  sample.

(** Buffers within [bound] in magnitude and still silent from [start] on. *)
Definition quiet_from (bound : Q) (start : Z) (samples : list Q) : Prop :=
  forall (k : nat) (x : Q), samples !! k = Some x ->
    - bound <= x <= bound /\ ((start <= Z.of_nat k)%Z -> x == 0).

End KeyboardValue.

(** ** Events, as the specification words them *)

Section Events.
Context {math : Math}.
Local Open Scope Q_scope.

(** The partials of a harmonic event at local time [t]: each
    [(multiplier, weight)] gives [weight * sin(2 pi freq multiplier t)]. *)
Definition partials_sum (freq : Q) (partials : list (Q * Q)) (t : Q) : Q :=
  fold_right (fun p acc => snd p * sin (2 * pi * freq * fst p * t) + acc) 0 partials.

(** A harmonic event at its local sample [i]: the partials under the
    envelope [exp(-t * decay)], times the gain. *)
Definition harmonic (freq : Q) (partials : list (Q * Q)) (decay gain : Q) (i : Z) : Q :=
  let t := i / sample_rate in
  partials_sum freq partials t * exp (- t * decay) * gain.

(** A noise event at its local sample [i], for the number [r] drawn:
    [(r - 0.5) * 2] under the envelope, times the gain. *)
Definition noise (decay gain : Q) (i : Z) (r : Q) : Q :=
  let t := i / sample_rate in
  (r - 0.5) * 2.0 * exp (- t * decay) * gain.

End Events.

(** The samples an event reaches: [count] of them from [start] on, inside
    the buffer. *)
Definition in_window (start count num_samples k : Z) : bool :=
  (start <=? k) && (k <? start + count) && (k <? num_samples).

(** What an event adds to sample [k]: its value at the local sample
    [k - start] inside its window, nothing elsewhere. *)
Definition contribution (start count num_samples : Z) (value : Z -> Q) (k : Z) : Q :=
  if in_window start count num_samples k then value (k - start) else 0%Q.

(** A loop of the generators that returns, keeps the length of the buffer,
    moves the world by [adv] and adds [f w k] to sample [k]. *)
Definition adds (c : list Q -> py (list Q)) (n : Z) (adv : world -> world)
    (f : world -> Z -> Q) : Prop :=
  forall samples w, n <= len samples ->
  exists samples',
    c samples w = (Ok samples', adv w)
    /\ length samples' = length samples
    /\ forall (k : nat) (x : Q), samples !! k = Some x ->
         exists x', samples' !! k = Some x' /\ (x' == x + f w (Z.of_nat k))%Q.

(** The samples at which the clicks of a typing sound start: click [j] at
    [int(offset_j * sample_rate)]. *)
Definition click_starts (base : Q) (gaps : list Q) (k : nat) : list Z :=
  map (fun j => py_int (spec_offset base gaps j * sample_rate)%Q) (seq 0 k).

(** The body of the click loop that add-mechanical-sound.py and
    add-thock-sounds.py share, over the click and the click length of each. *)
Definition typing_step (one_click : Z -> Z -> list Q -> py (list Q)) (base : Q)
    (num_samples : Z) (gap_variations : list Q) (click_num : Z)
    (st : list Q * Q) : py (list Q * Q) :=
  let '(samples, current_position) := st in
  let start_sample := py_int (current_position * sample_rate) in
  samples <- one_click num_samples start_sample samples ;;
  let current_position := (current_position + base)%Q in
  current_position <-
    (if (click_num <? len gap_variations)%Z
     then gap <- lift (py_getitem gap_variations click_num) ;;
          ret (current_position + gap)%Q
     else ret current_position) ;;
  ret (samples, current_position).

(** The typing sound the two scripts share, over the seed, the click, the
    click length and the nominal gap of each. *)
Definition typing_sound (seed : Z) (one_click : Z -> Z -> list Q -> py (list Q))
    (base gap : Q) (filename : string) (num_clicks : Z) (volume : Q) : py unit :=
  random_seed seed ;;;
  gap_variations <- for_range (num_clicks - 1)%Z (fun _ gaps =>
      jitter <- random_jitter 0.02 ;;
      ret (gaps ++ [(gap + jitter)%Q])) [] ;;
  let total_duration := ((base * num_clicks) + py_sum gap_variations)%Q in
  let num_samples := py_int (sample_rate * total_duration) in
  let samples := zeros num_samples in
  st <- for_range num_clicks (typing_step one_click base num_samples gap_variations)
          (samples, 0%Q) ;;
  let samples := fst st in
  samples <- lift (normalize_and_apply_volume samples volume) ;;
  write_wav filename clamp_to_int16 samples.

(** A click that returns, keeps the length of the buffer and only draws
    from the generator. *)
Definition click_returns (one_click : Z -> Z -> list Q -> py (list Q)) : Prop :=
  forall (num_samples start_sample : Z) (samples : list Q) (w : world),
    0 <= start_sample -> num_samples <= len samples ->
    exists samples' m,
      one_click num_samples start_sample samples w = (Ok samples', Nat.iter m draw w)
      /\ length samples' = length samples.

(** The scripts only write.  To say what a payload holds, the inverse of the
    ['h'] format as the [struct] module defines it, low byte first:
    [struct.unpack('<h', bytes([lo, hi]))[0]]. *)
Definition unpack_h (lo hi : Z) : Z :=
  let u := lo + 256 * hi in
  if u <? 32768 then u else u - 65536.

(** The 16-bit frames of a payload, read back two bytes at a time. *)
Fixpoint read_frames (bytes : list Z) : list Z :=
  match bytes with
  | lo :: hi :: rest => unpack_h lo hi :: read_frames rest
  | _ => []
  end.

(** The outcome of writing [stored] at [filename] with the generator left
    alone: the result, and the world.  A destination that cannot be opened
    leaves the world as it is. *)
Definition write_outcome (filename : string) (stored : list Z) (w : world)
    : result unit * world :=
  let written := Nat.min (length stored) (space w / 2) in
  if unwritable w filename then (Raise OSError, w)
  else
  (if (length stored <=? space w / 2)%nat then Ok tt else Raise OSError,
   {| rng := rng w;
      fs := <[filename := {| params := Some wav_header;
                             payload := frame_bytes (take written stored) |}]> (fs w);
      space := space w - 2 * written;
      unwritable := unwritable w |}).

(** A loop of the generators that returns, keeps the length of the buffer
    and leaves the samples from [bound] on as they were. *)
Definition leaves_tail (c : list Q -> py (list Q)) (n bound : Z) : Prop :=
  forall samples w, n <= len samples ->
  exists samples' w',
    c samples w = (Ok samples', w')
    /\ length samples' = length samples
    /\ forall k : nat, bound <= Z.of_nat k -> samples' !! k = samples !! k.

(** The world once [stored] has been written at [filename] in full. *)
Definition wrote (filename : string) (stored : list Z) (w : world) : world :=
  {| rng := rng w;
     fs := <[filename := {| params := Some wav_header;
                            payload := frame_bytes stored |}]> (fs w);
     space := space w - 2 * length stored;
     unwritable := unwritable w |}.

(** The file a complete write of [stored] leaves. *)
Definition wav_of (stored : list Z) : wav_data :=
  {| params := Some wav_header; payload := frame_bytes stored |}.

(** * Properties *)

(** ** Built-ins *)

Section Builtins.
Local Open Scope Q_scope.

Lemma Qltb_lt (a b : Q) : Qltb a b = true <-> a < b.
Proof.
  unfold Qltb. rewrite negb_true_iff. split.
  - intros E. apply Qnot_le_lt. intros Hle. apply Qle_bool_iff in Hle. congruence.
  - intros Hlt. destruct (Qle_bool b a) eqn:E; [| reflexivity].
    apply Qle_bool_iff in E. lra.
Qed.

Lemma Qltb_ge (a b : Q) : Qltb a b = false <-> b <= a.
Proof.
  unfold Qltb. rewrite negb_false_iff. apply Qle_bool_iff.
Qed.

Lemma py_int_nonneg (x : Q) : 0 <= x -> py_int x = Qfloor x.
Proof.
  destruct x as [n d]. unfold Qle, py_int, Qfloor. simpl. intros Hn.
  apply Z.quot_div_nonneg; lia.
Qed.

Lemma py_int_nonpos (x : Q) : x <= 0 -> py_int x = Qceiling x.
Proof.
  destruct x as [n d]. unfold Qle, py_int, Qceiling, Qfloor. simpl. intros Hn.
  replace n with (- - n)%Z at 1 by lia.
  rewrite Z.quot_opp_l by lia. f_equal.
  apply Z.quot_div_nonneg; lia.
Qed.

Lemma py_int_proper : Proper (Qeq ==> eq) py_int.
Proof.
  intros x y E. destruct (Qlt_le_dec x 0) as [Hn | Hp].
  - rewrite !py_int_nonpos by lra. now rewrite E.
  - rewrite !py_int_nonneg by lra. now rewrite E.
Qed.

Lemma py_int_inject_Z (z : Z) : py_int (inject_Z z) = z.
Proof. unfold py_int. simpl. apply Z.quot_1_r. Qed.

(** Truncation moves toward zero by less than one. *)
Lemma py_int_floor_bounds (x : Q) :
  0 <= x -> inject_Z (py_int x) <= x /\ x < inject_Z (py_int x) + 1.
Proof.
  intros Hx. rewrite py_int_nonneg by exact Hx. split.
  - apply Qfloor_le.
  - pose proof (Qlt_floor x) as H. rewrite inject_Z_plus in H.
    change (inject_Z 1) with 1 in H. exact H.
Qed.


Lemma py_int_sign_nonneg (x : Q) : 0 <= x -> (0 <= py_int x)%Z.
Proof.
  intros Hx. rewrite py_int_nonneg by exact Hx.
  change 0%Z with (Qfloor 0). now apply Qfloor_resp_le.
Qed.

Lemma py_int_sign_nonpos (x : Q) : x <= 0 -> (py_int x <= 0)%Z.
Proof.
  intros Hx. rewrite py_int_nonpos by exact Hx.
  change 0%Z with (Qceiling 0). now apply Qceiling_resp_le.
Qed.

(** A value within [-b, b] stays there when truncated. *)
Lemma py_int_within (x : Q) (b : Z) :
  - inject_Z b <= x <= inject_Z b -> (- b <= py_int x <= b)%Z.
Proof.
  intros [Hlo Hhi].
  assert (Hb : (0 <= b)%Z).
  { rewrite Zle_Qle. change (inject_Z 0) with 0. lra. }
  destruct (Qlt_le_dec x 0) as [Hn | Hp].
  - assert (Hx : x <= 0) by lra.
    pose proof (py_int_sign_nonpos x Hx) as Hs.
    rewrite (py_int_nonpos x Hx) in *. split; [| lia].
    rewrite <- (Qceiling_Z (- b)). apply Qceiling_resp_le.
    rewrite inject_Z_opp. exact Hlo.
  - pose proof (py_int_sign_nonneg x Hp) as Hs.
    rewrite (py_int_nonneg x Hp) in *. split; [lia |].
    rewrite <- (Qfloor_Z b). now apply Qfloor_resp_le.
Qed.

Lemma py_int_mono (x y : Q) : x <= y -> (py_int x <= py_int y)%Z.
Proof.
  intros Hxy. destruct (Qlt_le_dec x 0) as [Hx | Hx];
    destruct (Qlt_le_dec y 0) as [Hy | Hy].
  - rewrite !py_int_nonpos by lra. now apply Qceiling_resp_le.
  - assert (Hx' : x <= 0) by lra.
    pose proof (py_int_sign_nonpos x Hx').
    pose proof (py_int_sign_nonneg y Hy). lia.
  - lra.
  - rewrite !py_int_nonneg by lra. now apply Qfloor_resp_le.
Qed.

Lemma py_min_spec (a b : Q) : py_min a b <= a /\ py_min a b <= b /\
  (py_min a b = a \/ py_min a b = b).
Proof.
  unfold py_min. destruct (Qltb b a) eqn:E.
  - apply Qltb_lt in E. repeat split; try lra. now right.
  - apply Qltb_ge in E. repeat split; try lra. now left.
Qed.

Lemma py_max_spec (a b : Q) : a <= py_max a b /\ b <= py_max a b /\
  (py_max a b = a \/ py_max a b = b).
Proof.
  unfold py_max. destruct (Qltb a b) eqn:E.
  - apply Qltb_lt in E. repeat split; try lra. now right.
  - apply Qltb_ge in E. repeat split; try lra. now left.
Qed.

End Builtins.

(** ** Binary64 rounding *)

Section Floats.
Local Open Scope Q_scope.

Lemma Qfloor_eq (x : Q) (z : Z) : inject_Z z <= x -> x < inject_Z z + 1 -> Qfloor x = z.
Proof.
  intros Hlo Hhi.
  pose proof (Qfloor_le x) as H1. pose proof (Qlt_floor x) as H2.
  rewrite inject_Z_plus in H2. change (inject_Z 1) with 1 in H2.
  set (f := Qfloor x) in *.
  assert (A : inject_Z f < inject_Z (z + 1)).
  { rewrite inject_Z_plus. change (inject_Z 1) with 1. lra. }
  assert (B : inject_Z z < inject_Z (f + 1)).
  { rewrite inject_Z_plus. change (inject_Z 1) with 1. lra. }
  rewrite <- Zlt_Qlt in A, B. lia.
Qed.

(** The three cases of rounding to the nearest integer. *)
Lemma round_half_even_cases (x : Q) :
  let f := Qfloor x in
  let d := x - inject_Z f in
  0 <= d /\ d < 1 /\
  ((d < 1 # 2 /\ round_half_even x = f)
   \/ ((1 # 2) < d /\ round_half_even x = (f + 1)%Z)
   \/ (d == 1 # 2 /\ round_half_even x = if Z.even f then f else (f + 1)%Z)).
Proof.
  intros f d.
  pose proof (Qfloor_le x) as H1. pose proof (Qlt_floor x) as H2.
  rewrite inject_Z_plus in H2. change (inject_Z 1) with 1 in H2.
  fold f in H1, H2.
  split; [unfold d; lra |]. split; [unfold d; lra |].
  unfold round_half_even. fold f. fold d.
  destruct (Qltb d (1 # 2)) eqn:E1.
  - apply Qltb_lt in E1. left. auto.
  - apply Qltb_ge in E1. destruct (Qltb (1 # 2) d) eqn:E2.
    + apply Qltb_lt in E2. right. left. auto.
    + apply Qltb_ge in E2. right. right. split; [lra | reflexivity].
Qed.

Lemma round_half_even_near (x : Q) :
  - (1 # 2) <= inject_Z (round_half_even x) - x <= 1 # 2.
Proof.
  destruct (round_half_even_cases x) as (H0 & H1 & [[Hd ->] | [[Hd ->] | [Hd ->]]]);
    cbv zeta in *.
  - lra.
  - rewrite inject_Z_plus. change (inject_Z 1) with 1. lra.
  - destruct (Z.even (Qfloor x)); [lra |].
    rewrite inject_Z_plus. change (inject_Z 1) with 1. lra.
Qed.

Lemma round_half_even_Z (z : Z) : round_half_even (inject_Z z) = z.
Proof.
  unfold round_half_even. rewrite Qfloor_Z.
  assert (E : Qltb (inject_Z z - inject_Z z) (1 # 2) = true) by (apply Qltb_lt; lra).
  now rewrite E.
Qed.

Lemma round_half_even_proper : Proper (Qeq ==> eq) round_half_even.
Proof.
  intros x y E. unfold round_half_even.
  rewrite (Qfloor_comp _ _ E).
  assert (Ed : x - inject_Z (Qfloor y) == y - inject_Z (Qfloor y)) by (rewrite E; reflexivity).
  assert (E1 : Qltb (x - inject_Z (Qfloor y)) (1 # 2) = Qltb (y - inject_Z (Qfloor y)) (1 # 2)).
  { destruct (Qltb (y - _) _) eqn:H; [apply Qltb_lt in H; apply Qltb_lt | apply Qltb_ge in H; apply Qltb_ge]; lra. }
  assert (E2 : Qltb (1 # 2) (x - inject_Z (Qfloor y)) = Qltb (1 # 2) (y - inject_Z (Qfloor y))).
  { destruct (Qltb _ (y - _)) eqn:H; [apply Qltb_lt in H; apply Qltb_lt | apply Qltb_ge in H; apply Qltb_ge]; lra. }
  now rewrite E1, E2.
Qed.

Lemma round_half_even_mono (x y : Q) : x <= y -> (round_half_even x <= round_half_even y)%Z.
Proof.
  intros Hxy.
  pose proof (Qfloor_resp_le _ _ Hxy) as Hf.
  destruct (round_half_even_cases x) as (Hx0 & Hx1 & Hx).
  destruct (round_half_even_cases y) as (Hy0 & Hy1 & Hy).
  cbv zeta in *.
  destruct (Z.eq_dec (Qfloor x) (Qfloor y)) as [E | Hne].
  - rewrite E in *.
    destruct Hx as [[Hd ->] | [[Hd ->] | [Hd ->]]];
      destruct Hy as [[Hd' ->] | [[Hd' ->] | [Hd' ->]]];
      try lia; try (exfalso; lra); destruct (Z.even (Qfloor y)); try lia; exfalso; lra.
  - assert (Hlt : (Qfloor x + 1 <= Qfloor y)%Z) by lia.
    assert (Hrx : (round_half_even x <= Qfloor x + 1)%Z).
    { destruct Hx as [[_ ->] | [[_ ->] | [_ ->]]]; try lia.
      destruct (Z.even (Qfloor x)); lia. }
    assert (Hry : (Qfloor y <= round_half_even y)%Z).
    { destruct Hy as [[_ ->] | [[_ ->] | [_ ->]]]; try lia.
      destruct (Z.even (Qfloor y)); lia. }
    lia.
Qed.

Lemma round_half_even_opp (x : Q) : round_half_even (- x) = (- round_half_even x)%Z.
Proof.
  destruct (round_half_even_cases x) as (Hx0 & Hx1 & Hx). cbv zeta in *.
  set (f := Qfloor x) in *.
  destruct (Qeq_dec x (inject_Z f)) as [Ei | Hni].
  - assert (E : - x == inject_Z (- f)) by (rewrite inject_Z_opp, Ei; reflexivity).
    rewrite (round_half_even_proper _ _ E), round_half_even_Z.
    rewrite (round_half_even_proper _ _ Ei), round_half_even_Z. reflexivity.
  - assert (Hf : Qfloor (- x) = (- f - 1)%Z).
    { apply Qfloor_eq.
      - unfold Z.sub. rewrite inject_Z_plus, inject_Z_opp. change (inject_Z (- (1))) with (- (1)). lra.
      - unfold Z.sub. rewrite inject_Z_plus, inject_Z_opp. change (inject_Z (- (1))) with (- (1)).
        assert (0 < x - inject_Z f).
        { destruct (Qlt_le_dec 0 (x - inject_Z f)); [assumption |]. exfalso. apply Hni. lra. }
        lra. }
    destruct (round_half_even_cases (- x)) as (Hn0 & Hn1 & Hn). cbv zeta in *.
    rewrite Hf in *. unfold Z.sub in *.
    rewrite inject_Z_plus, inject_Z_opp in *. change (inject_Z (- (1))) with (- (1)) in *.
    destruct Hx as [[Hd ->] | [[Hd ->] | [Hd ->]]];
      destruct Hn as [[Hd' ->] | [[Hd' ->] | [Hd' ->]]]; try lia; try (exfalso; lra).
    replace (- f + - (1))%Z with (- (f + 1))%Z by lia.
    rewrite Z.even_opp, Z.even_add. change (Z.even 1) with false.
    destruct (Z.even f); cbn; lia.
Qed.

Lemma two_neq_0 : ~ 2 == 0.
Proof. lra. Qed.

Lemma pow2_pos (e : Z) : 0 < 2 ^ e.
Proof. apply Qpower_0_lt. lra. Qed.

Lemma pow2_Z (a : Z) : (0 <= a)%Z -> 2 ^ a == inject_Z (2 ^ a).
Proof. intros Ha. rewrite Zpower_Qpower by exact Ha. reflexivity. Qed.

Lemma Qdiv_lt_cross (n d p b : Q) :
  0 < d -> 0 < b -> n * b < p * d -> n / d < p / b.
Proof.
  intros Hd Hb H. apply Qlt_shift_div_r; [exact Hd |].
  assert (E : p / b * d == p * d / b) by (field; lra). rewrite E.
  apply Qlt_shift_div_l; [exact Hb | exact H].
Qed.

Lemma Qmult_lt_le (n p b d : Q) :
  0 <= n -> 0 < b -> n < p -> b <= d -> n * b < p * d.
Proof.
  intros Hn Hb Hnp Hbd.
  assert (H1 : n * b < p * b) by (apply Qmult_lt_compat_r; assumption).
  assert (H2 : 0 <= p * (d - b)) by (apply Qmult_le_0_compat; lra).
  lra.
Qed.

Lemma Qmult_le_lt (n p b d : Q) :
  0 < n -> 0 < b -> n <= p -> b < d -> n * b < p * d.
Proof.
  intros Hn Hb Hnp Hbd.
  assert (H1 : n * b < n * d) by (rewrite !(Qmult_comm n); apply Qmult_lt_compat_r; assumption).
  assert (H2 : 0 <= (p - n) * d) by (apply Qmult_le_0_compat; lra).
  lra.
Qed.

(** [ilog2 x] is the exponent of the binade of [x]. *)
Lemma ilog2_spec (x : Q) :
  ~ x == 0 -> 2 ^ ilog2 x <= Qabs x /\ Qabs x < 2 ^ (ilog2 x + 1).
Proof.
  intros Hx. destruct x as [n d]. unfold ilog2. cbn [Qnum Qden].
  set (a := Z.log2 (Z.abs n)). set (b := Z.log2 (Zpos d)).
  assert (Hn : (0 < Z.abs n)%Z).
  { unfold Qeq in Hx. cbn in Hx. lia. }
  destruct (Z.log2_spec (Z.abs n) Hn) as [Ha1 Ha2]. fold a in Ha1, Ha2.
  destruct (Z.log2_spec (Zpos d)) as [Hb1 Hb2]; [lia |]. fold b in Hb1, Hb2.
  assert (Ha0 : (0 <= a)%Z) by apply Z.log2_nonneg.
  assert (Hb0 : (0 <= b)%Z) by apply Z.log2_nonneg.
  assert (Eabs : Qabs (n # d) == inject_Z (Z.abs n) / inject_Z (Zpos d)).
  { unfold Qabs. apply Qmake_Qdiv. }
  set (N := inject_Z (Z.abs n)) in *. set (D := inject_Z (Zpos d)) in *.
  assert (HD : 0 < D) by (unfold D; change 0 with (inject_Z 0); rewrite <- Zlt_Qlt; lia).
  assert (HN : 0 < N) by (unfold N; change 0 with (inject_Z 0); rewrite <- Zlt_Qlt; lia).
  assert (QA1 : 2 ^ a <= N) by (rewrite pow2_Z by lia; unfold N; rewrite <- Zle_Qle; lia).
  assert (QA2 : N < 2 ^ (a + 1))
    by (rewrite pow2_Z by lia; unfold N; rewrite <- Zlt_Qlt; rewrite <- Z.add_1_r in Ha2; lia).
  assert (QB1 : 2 ^ b <= D) by (rewrite pow2_Z by lia; unfold D; rewrite <- Zle_Qle; lia).
  assert (QB2 : D < 2 ^ (b + 1))
    by (rewrite pow2_Z by lia; unfold D; rewrite <- Zlt_Qlt; rewrite <- Z.add_1_r in Hb2; lia).
  pose proof (pow2_pos a). pose proof (pow2_pos b).
  pose proof (pow2_pos (a + 1)). pose proof (pow2_pos (b + 1)).
  assert (U : N / D < 2 ^ (a - b + 1)).
  { replace (a - b + 1)%Z with (a + 1 - b)%Z by lia.
    rewrite Qpower_minus by lra.
    apply Qdiv_lt_cross; [assumption | assumption |].
    apply Qmult_lt_le; lra. }
  assert (L : 2 ^ (a - b - 1) < N / D).
  { replace (a - b - 1)%Z with (a - (b + 1))%Z by lia.
    rewrite Qpower_minus by lra.
    apply Qdiv_lt_cross; [assumption | assumption |].
    apply Qmult_le_lt; lra. }
  destruct (Qle_bool (2 ^ (a - b)) (Qabs (n # d))) eqn:E.
  - apply Qle_bool_iff in E. rewrite Eabs in *. split; [exact E | exact U].
  - assert (Hlt : N / D < 2 ^ (a - b)).
    { apply Qnot_le_lt. intros Hle. rewrite <- Eabs in Hle.
      apply Qle_bool_iff in Hle. congruence. }
    replace (a - b - 1 + 1)%Z with (a - b)%Z by lia. rewrite Eabs.
    split; [lra | exact Hlt].
Qed.

Lemma ilog2_unique (x : Q) (l : Z) :
  2 ^ l <= Qabs x -> Qabs x < 2 ^ (l + 1) -> ilog2 x = l.
Proof.
  intros Hlo Hhi.
  assert (Hx : ~ x == 0).
  { intros E. rewrite E in Hlo. pose proof (pow2_pos l). change (Qabs 0) with 0 in Hlo. lra. }
  destruct (ilog2_spec x Hx) as [Slo Shi].
  assert (H1 : (ilog2 x < l + 1)%Z).
  { apply (Qpower_lt_compat_l_inv 2); lra. }
  assert (H2 : (l < ilog2 x + 1)%Z).
  { apply (Qpower_lt_compat_l_inv 2); lra. }
  lia.
Qed.

Lemma ilog2_proper (x y : Q) : ~ x == 0 -> Qabs x == Qabs y -> ilog2 x = ilog2 y.
Proof.
  intros Hx E. destruct (ilog2_spec x Hx) as [Slo Shi].
  symmetry. apply ilog2_unique; rewrite <- E; assumption.
Qed.

Lemma ilog2_mono (x y : Q) : ~ x == 0 -> Qabs x <= Qabs y -> (ilog2 x <= ilog2 y)%Z.
Proof.
  intros Hx Hxy.
  assert (Hy : ~ y == 0).
  { intros E. rewrite E in Hxy. change (Qabs 0) with 0 in Hxy.
    pose proof (Qabs_nonneg x). apply Hx.
    assert (Ez : Qabs x == 0) by lra.
    destruct (Qabs_Qle_condition x 0) as [Hc _].
    assert (Hle : Qabs x <= 0) by lra. apply Hc in Hle. lra. }
  destruct (ilog2_spec x Hx) as [Xlo Xhi]. destruct (ilog2_spec y Hy) as [Ylo Yhi].
  assert (H : (ilog2 x < ilog2 y + 1)%Z) by (apply (Qpower_lt_compat_l_inv 2); lra).
  lia.
Qed.

Lemma fl_0 : fl 0 = 0.
Proof. reflexivity. Qed.

Lemma fl_zero (x : Q) : x == 0 -> fl x = 0.
Proof. intros E. unfold fl. now rewrite (proj2 (Qeq_bool_iff x 0) E). Qed.

Lemma fl_nonzero (x : Q) :
  ~ x == 0 ->
  fl x = inject_Z (round_half_even (x / 2 ^ (ilog2 x - 52))) * 2 ^ (ilog2 x - 52).
Proof.
  intros Hx. unfold fl. destruct (Qeq_bool x 0) eqn:E; [| reflexivity].
  apply Qeq_bool_iff in E. contradiction.
Qed.

(** The significand of a non-zero number lies in [2^52, 2^53). *)
Lemma significand_bounds (x : Q) :
  ~ x == 0 ->
  let y := x / 2 ^ (ilog2 x - 52) in
  2 ^ 52 <= Qabs y /\ Qabs y < 2 ^ 53.
Proof.
  intros Hx y. destruct (ilog2_spec x Hx) as [Slo Shi].
  pose proof (pow2_pos (ilog2 x - 52)) as He.
  assert (Ey : Qabs y == Qabs x / 2 ^ (ilog2 x - 52)).
  { unfold y, Qdiv. rewrite Qabs_Qmult. rewrite (Qabs_pos (/ _)); [reflexivity |].
    apply Qlt_le_weak, Qinv_lt_0_compat, He. }
  rewrite Ey. split.
  - apply Qle_shift_div_l; [exact He |].
    rewrite <- Qpower_plus by lra.
    replace (52 + (ilog2 x - 52))%Z with (ilog2 x) by lia. exact Slo.
  - apply Qlt_shift_div_r; [exact He |].
    rewrite <- Qpower_plus by lra.
    replace (53 + (ilog2 x - 52))%Z with (ilog2 x + 1)%Z by lia. exact Shi.
Qed.

Lemma fl_proper : Proper (Qeq ==> Qeq) fl.
Proof.
  intros x y E. destruct (Qeq_dec x 0) as [Hz | Hnz].
  - rewrite (fl_zero x Hz), (fl_zero y) by (rewrite <- E; exact Hz). reflexivity.
  - assert (Hy : ~ y == 0) by (rewrite <- E; exact Hnz).
    rewrite (fl_nonzero x Hnz), (fl_nonzero y Hy).
    assert (El : ilog2 x = ilog2 y) by (apply ilog2_proper; [exact Hnz | now rewrite E]).
    rewrite El.
    assert (Eq : x / 2 ^ (ilog2 y - 52) == y / 2 ^ (ilog2 y - 52)) by (rewrite E; reflexivity).
    rewrite (round_half_even_proper _ _ Eq). reflexivity.
Qed.

Lemma fl_opp (x : Q) : fl (- x) == - fl x.
Proof.
  destruct (Qeq_dec x 0) as [Hz | Hnz].
  - rewrite (fl_zero x Hz), (fl_zero (- x)) by (rewrite Hz; reflexivity). reflexivity.
  - assert (Hn : ~ - x == 0) by (intros E; apply Hnz; lra).
    rewrite (fl_nonzero x Hnz), (fl_nonzero (- x) Hn).
    assert (El : ilog2 (- x) = ilog2 x) by (apply ilog2_proper; [exact Hn | apply Qabs_opp]).
    rewrite El.
    assert (Eq : - x / 2 ^ (ilog2 x - 52) == - (x / 2 ^ (ilog2 x - 52))).
    { pose proof (pow2_pos (ilog2 x - 52)). field. lra. }
    rewrite (round_half_even_proper _ _ Eq), round_half_even_opp, inject_Z_opp. ring.
Qed.

(** Rounding moves a number by at most half a unit in the last place:
    a relative error of [2^-53] at most. *)
Lemma fl_error (x : Q) : Qabs (fl x - x) <= Qabs x * (1 # 9007199254740992).
Proof.
  destruct (Qeq_dec x 0) as [Hz | Hnz].
  - rewrite (fl_zero x Hz).
    assert (E : 0 - x == 0) by lra. rewrite E, Hz. discriminate.
  - rewrite (fl_nonzero x Hnz).
    destruct (significand_bounds x Hnz) as [Slo _]. cbv zeta in Slo.
    set (e := (ilog2 x - 52)%Z) in *. set (y := x / 2 ^ e) in *.
    pose proof (pow2_pos e) as He.
    pose proof (round_half_even_near y) as [Nlo Nhi].
    assert (Ex : x == y * 2 ^ e) by (unfold y; field; lra).
    assert (Ed : inject_Z (round_half_even y) * 2 ^ e - x
                 == (inject_Z (round_half_even y) - y) * 2 ^ e) by (rewrite Ex at 1; ring).
    rewrite Ed, Qabs_Qmult, (Qabs_pos (2 ^ e)) by lra.
    assert (Hd : Qabs (inject_Z (round_half_even y) - y) <= 1 # 2)
      by (apply Qabs_Qle_condition; split; lra).
    assert (Ea : Qabs x == Qabs y * 2 ^ e).
    { rewrite Ex at 1. rewrite Qabs_Qmult, (Qabs_pos (2 ^ e)) by lra. reflexivity. }
    rewrite Ea.
    change (2 ^ 52) with 4503599627370496 in Slo.
    assert (H1 : 0 <= ((1 # 2) - Qabs (inject_Z (round_half_even y) - y)) * 2 ^ e)
      by (apply Qmult_le_0_compat; lra).
    assert (H2 : 0 <= (Qabs y - 4503599627370496) * 2 ^ e)
      by (apply Qmult_le_0_compat; lra).
    lra.
Qed.

Lemma fl_nonneg_bounds (x : Q) :
  0 <= x ->
  x * (1 - (1 # 9007199254740992)) <= fl x <= x * (1 + (1 # 9007199254740992)).
Proof.
  intros Hx. pose proof (fl_error x) as H.
  rewrite (Qabs_pos x Hx) in H. apply Qabs_Qle_condition in H. lra.
Qed.

Lemma fl_pos (x : Q) : 0 < x -> 0 < fl x.
Proof.
  intros Hx. destruct (fl_nonneg_bounds x) as [Hlo _]; [lra |].
  assert (H : 0 < x * (1 - (1 # 9007199254740992))).
  { apply Qmult_lt_0_compat; [exact Hx | reflexivity]. }
  lra.
Qed.

Lemma fl_nonneg (x : Q) : 0 <= x -> 0 <= fl x.
Proof.
  intros Hx. destruct (Qeq_dec x 0) as [Hz | Hnz].
  - rewrite (fl_zero x Hz). lra.
  - apply Qlt_le_weak, fl_pos.
    destruct (Qlt_le_dec 0 x); [assumption | exfalso; apply Hnz; lra].
Qed.

Lemma round_half_even_lower (y : Q) (z : Z) :
  inject_Z z <= y -> (z <= round_half_even y)%Z.
Proof.
  intros H. rewrite <- (round_half_even_Z z). now apply round_half_even_mono.
Qed.

Lemma round_half_even_upper (y : Q) (z : Z) :
  y <= inject_Z z -> (round_half_even y <= z)%Z.
Proof.
  intros H. rewrite <- (round_half_even_Z z). now apply round_half_even_mono.
Qed.

(** Rounding is monotone on the positive numbers ... *)
Lemma fl_mono_pos (x y : Q) : 0 < x -> x <= y -> fl x <= fl y.
Proof.
  intros Hx Hxy.
  assert (Hnx : ~ x == 0) by lra. assert (Hny : ~ y == 0) by lra.
  rewrite (fl_nonzero x Hnx), (fl_nonzero y Hny).
  destruct (significand_bounds x Hnx) as [_ Xhi].
  destruct (significand_bounds y Hny) as [Ylo _]. cbv zeta in Xhi, Ylo.
  assert (Hl : (ilog2 x <= ilog2 y)%Z).
  { apply ilog2_mono; [exact Hnx |]. rewrite !Qabs_pos by lra. exact Hxy. }
  set (ex := (ilog2 x - 52)%Z) in *. set (ey := (ilog2 y - 52)%Z) in *.
  pose proof (pow2_pos ex) as Hex. pose proof (pow2_pos ey) as Hey.
  assert (Hxe : 0 < x / 2 ^ ex) by (apply Qlt_shift_div_l; lra).
  assert (Hye : 0 < y / 2 ^ ey) by (apply Qlt_shift_div_l; lra).
  rewrite Qabs_pos in Xhi, Ylo by lra.
  destruct (Z.eq_dec ex ey) as [E | Hne].
  - rewrite E in *.
    assert (Hq : x / 2 ^ ey <= y / 2 ^ ey).
    { apply Qle_shift_div_l; [exact Hey |].
      assert (Ec : x / 2 ^ ey * 2 ^ ey == x) by (field; lra). lra. }
    pose proof (round_half_even_mono _ _ Hq) as Hr.
    rewrite Zle_Qle in Hr.
    assert (H : 0 <= (inject_Z (round_half_even (y / 2 ^ ey))
                      - inject_Z (round_half_even (x / 2 ^ ey))) * 2 ^ ey)
      by (apply Qmult_le_0_compat; lra).
    lra.
  - assert (Hlt : (ex + 1 <= ey)%Z) by (unfold ex, ey in *; lia).
    assert (Rx : (round_half_even (x / 2 ^ ex) <= 2 ^ 53)%Z).
    { apply round_half_even_upper. rewrite <- pow2_Z by lia. lra. }
    assert (Ry : (2 ^ 52 <= round_half_even (y / 2 ^ ey))%Z).
    { apply round_half_even_lower. rewrite <- pow2_Z by lia. exact Ylo. }
    rewrite Zle_Qle in Rx, Ry. rewrite <- !pow2_Z in Rx, Ry by lia.
    assert (A : inject_Z (round_half_even (x / 2 ^ ex)) * 2 ^ ex <= 2 ^ 53 * 2 ^ ex).
    { assert (H : 0 <= (2 ^ 53 - inject_Z (round_half_even (x / 2 ^ ex))) * 2 ^ ex)
        by (apply Qmult_le_0_compat; lra).
      lra. }
    assert (B : 2 ^ 52 * 2 ^ ey <= inject_Z (round_half_even (y / 2 ^ ey)) * 2 ^ ey).
    { assert (H : 0 <= (inject_Z (round_half_even (y / 2 ^ ey)) - 2 ^ 52) * 2 ^ ey)
        by (apply Qmult_le_0_compat; lra).
      lra. }
    assert (C : 2 ^ 53 * 2 ^ ex <= 2 ^ 52 * 2 ^ ey).
    { rewrite <- !Qpower_plus by lra. apply Qpower_le_compat_l; [lia | lra]. }
    lra.
Qed.

(** ... and so everywhere. *)
Lemma fl_mono (x y : Q) : x <= y -> fl x <= fl y.
Proof.
  intros Hxy.
  destruct (Qlt_le_dec 0 x) as [Hx | Hx].
  - now apply fl_mono_pos.
  - destruct (Qlt_le_dec y 0) as [Hy | Hy].
    + assert (H : fl (- y) <= fl (- x)) by (apply fl_mono_pos; lra).
      rewrite !fl_opp in H. lra.
    + assert (H1 : 0 <= fl (- x)) by (apply fl_nonneg; lra).
      rewrite fl_opp in H1.
      pose proof (fl_nonneg y Hy). lra.
Qed.

Lemma fl_abs (x : Q) : Qabs (fl x) == fl (Qabs x).
Proof.
  destruct (Qlt_le_dec x 0) as [Hn | Hp].
  - assert (Hx : x <= 0) by lra.
    assert (E : Qabs x == - x) by (apply Qabs_neg; exact Hx).
    rewrite (fl_proper _ _ E), fl_opp.
    apply Qabs_neg.
    assert (H : 0 <= fl (- x)) by (apply fl_nonneg; lra).
    rewrite fl_opp in H. lra.
  - assert (E : Qabs x == x) by (apply Qabs_pos; exact Hp).
    rewrite (fl_proper _ _ E). apply Qabs_pos. now apply fl_nonneg.
Qed.

(** Integers below [2^53] in magnitude are doubles. *)
Lemma fl_Z (k : Z) : (Z.abs k < 2 ^ 53)%Z -> fl (inject_Z k) == inject_Z k.
Proof.
  intros Hk. destruct (Z.eq_dec k 0%Z) as [-> | Hnz]; [reflexivity |].
  assert (Hq : ~ inject_Z k == 0).
  { intros E. apply Hnz. unfold Qeq in E. cbn in E. lia. }
  rewrite (fl_nonzero _ Hq).
  destruct (ilog2_spec _ Hq) as [Slo _].
  assert (Hl : (ilog2 (inject_Z k) < 53)%Z).
  { apply (Qpower_lt_compat_l_inv 2); [| lra].
    assert (Ha : Qabs (inject_Z k) < 2 ^ 53).
    { rewrite pow2_Z by lia.
      assert (E : Qabs (inject_Z k) = inject_Z (Z.abs k)) by reflexivity.
      rewrite E, <- Zlt_Qlt. exact Hk. }
    lra. }
  set (e := (ilog2 (inject_Z k) - 52)%Z) in *.
  assert (He : (e <= 0)%Z) by (unfold e; lia).
  pose proof (pow2_pos e) as Hpe.
  assert (Eq : inject_Z k / 2 ^ e == inject_Z (k * 2 ^ (- e))).
  { rewrite inject_Z_mult, <- pow2_Z by lia. rewrite Qpower_opp. field. lra. }
  rewrite (round_half_even_proper _ _ Eq), round_half_even_Z.
  rewrite inject_Z_mult, <- pow2_Z by lia. rewrite Qpower_opp. field. lra.
Qed.

(** What [int()] makes of a rounded number lies between the floor and the
    ceiling of the number itself. *)
Lemma fl_between_integers (x : Q) :
  0 <= x -> x < 2 ^ 52 ->
  inject_Z (Qfloor x) <= fl x <= inject_Z (Qceiling x).
Proof.
  intros H0 H52.
  pose proof (Qfloor_le x) as Hf. pose proof (Qle_ceiling x) as Hc.
  assert (F0 : (0 <= Qfloor x)%Z).
  { change 0%Z with (Qfloor 0). now apply Qfloor_resp_le. }
  assert (C52 : (Qceiling x <= 2 ^ 52)%Z).
  { rewrite <- (Qceiling_Z (2 ^ 52)). apply Qceiling_resp_le.
    rewrite <- pow2_Z by lia. lra. }
  assert (FC : (Qfloor x <= Qceiling x)%Z).
  { rewrite Zle_Qle. lra. }
  split.
  - rewrite <- (fl_Z (Qfloor x)) by lia. now apply fl_mono.
  - rewrite <- (fl_Z (Qceiling x)) by lia. now apply fl_mono.
Qed.

Lemma float_mul_zero (a b : Q) : a == 0 -> float_mul a b = 0.
Proof.
  intros E. unfold float_mul. apply fl_zero. rewrite (fl_zero a E). ring.
Qed.

Lemma float_div_ok (a b : Q) : ~ b == 0 -> float_div a b = Ok (fl (fl a / fl b)).
Proof.
  intros Hb. unfold float_div. destruct (Qeq_bool b 0) eqn:E; [| reflexivity].
  apply Qeq_bool_iff in E. contradiction.
Qed.

End Floats.

(** ** Loops *)

Section Loops.

Lemma bind_ok {A B} (c : py A) (k : A -> py B) (w w' : world) (a : A) :
  c w = (Ok a, w') -> bind c k w = k a w'.
Proof. intros E. unfold bind. now rewrite E. Qed.

Lemma bind_raise {A B} (c : py A) (k : A -> py B) (w w' : world) (e : exn) :
  c w = (Raise e, w') -> bind c k w = (Raise e, w').
Proof. intros E. unfold bind. now rewrite E. Qed.

Lemma for_each_app {A S} (l1 l2 : list A) (body : A -> S -> py S) (s : S) (w : world) :
  for_each (l1 ++ l2) body s w
  = (s' <- for_each l1 body s ;; for_each l2 body s') w.
Proof.
  revert s w. induction l1 as [| x l1 IH]; intros s w; simpl.
  - reflexivity.
  - unfold bind. destruct (body x s w) as [[s1 | e] w1]; [| reflexivity].
    rewrite IH. reflexivity.
Qed.

Lemma for_each_ext {A S} (l : list A) (body1 body2 : A -> S -> py S) :
  (forall x s w, In x l -> body1 x s w = body2 x s w) ->
  forall s w, for_each l body1 s w = for_each l body2 s w.
Proof.
  induction l as [| x l IH]; intros Hext s w; simpl; [reflexivity |].
  unfold bind. rewrite (Hext x s w) by now left.
  destruct (body2 x s w) as [[s1 | e] w1]; [| reflexivity].
  apply IH. intros y s' w' Hy. apply Hext. now right.
Qed.

Lemma in_py_range (n i : Z) : In i (py_range n) <-> 0 <= i < n.
Proof.
  unfold py_range. rewrite in_map_iff. split.
  - intros (k & <- & Hk). apply in_seq in Hk. lia.
  - intros Hi. exists (Z.to_nat i). split; [lia |]. apply in_seq. lia.
Qed.

Lemma py_range_nonpos (n : Z) : n <= 0 -> py_range n = [].
Proof. intros Hn. unfold py_range. now replace (Z.to_nat n) with O by lia. Qed.

Lemma py_range_succ (n : Z) : 0 <= n -> py_range (n + 1) = py_range n ++ [n].
Proof.
  intros Hn. unfold py_range.
  replace (Z.to_nat (n + 1)) with (S (Z.to_nat n)) by lia.
  rewrite seq_S, map_app. simpl. f_equal. f_equal. lia.
Qed.

Lemma length_py_range (n : Z) : length (py_range n) = Z.to_nat n.
Proof. unfold py_range. now rewrite length_map, length_seq. Qed.

Lemma py_index_in_range {A} (l : list A) (i : Z) :
  0 <= i < len l -> py_index l i = Ok (Z.to_nat i).
Proof.
  intros [Hlo Hhi]. unfold py_index.
  now rewrite (proj2 (Z.leb_le 0 i) Hlo), (proj2 (Z.ltb_lt i (len l)) Hhi).
Qed.

Lemma list_iadd_in_range (samples : list Q) (i : Z) (v : Q) :
  0 <= i < len samples ->
  list_iadd samples i v = Ok (alter (fun x => (x + v)%Q) (Z.to_nat i) samples).
Proof. intros Hi. unfold list_iadd. now rewrite py_index_in_range. Qed.

Lemma len_zeros (n : Z) : len (zeros n) = Z.max 0 n.
Proof. unfold len, zeros, py_repeat. rewrite length_replicate. lia. Qed.

Lemma len_alter (f : Q -> Q) (k : nat) (l : list Q) : len (alter f k l) = len l.
Proof. unfold len. now rewrite length_alter. Qed.

Lemma iter_shift {A} (f : A -> A) (n : nat) (x : A) :
  Nat.iter n f (f x) = Nat.iter (S n) f x.
Proof. induction n as [| n IH]; simpl; [reflexivity | now rewrite IH]. Qed.

Lemma add_samples_at_seq (num_samples start : Z) (value : Z -> py Q)
    (h : Z -> world -> Q) (adv : world -> world) :
  advances value h adv -> 0 <= start ->
  forall (c a : nat) (samples : list Q) (w : world),
  num_samples <= len samples ->
  exists samples',
    for_each (map Z.of_nat (seq a c)) (fun i samples =>
        if start + i <? num_samples
        then v <- value i ;; lift (list_iadd samples (start + i) v)
        else ret samples) samples w
    = (Ok samples',
       Nat.iter (Z.to_nat (Z.min (Z.of_nat c) (num_samples - start - Z.of_nat a))) adv w)
    /\ length samples' = length samples
    /\ forall k : nat,
         samples' !! k =
         if decide (start + Z.of_nat a <= Z.of_nat k < start + Z.of_nat a + Z.of_nat c
                    /\ Z.of_nat k < num_samples)
         then (fun x => Qplus x (h (Z.of_nat k - start)
                   (Nat.iter (Z.to_nat (Z.of_nat k - start - Z.of_nat a)) adv w)))
                <$> samples !! k
         else samples !! k.
Proof.
  intros Hadv Hstart c. induction c as [| c IH]; intros a samples w Hlen.
  - exists samples. split; [| split].
    + replace (Z.to_nat (Z.min (Z.of_nat 0) (num_samples - start - Z.of_nat a)))
        with O by lia.
      reflexivity.
    + reflexivity.
    + intros k. case_decide; [lia | reflexivity].
  - cbn [seq map for_each].
    destruct (start + Z.of_nat a <? num_samples) eqn:E.
    + apply Z.ltb_lt in E.
      assert (Hin : 0 <= start + Z.of_nat a < len samples) by lia.
      set (v := h (Z.of_nat a) w).
      set (samples1 := alter (fun x => (x + v)%Q) (Z.to_nat (start + Z.of_nat a)) samples).
      destruct (IH (S a) samples1 (adv w)) as (samples' & Hrun & Hlen' & Hlook).
      { unfold samples1. rewrite len_alter. exact Hlen. }
      exists samples'. split; [| split].
      * erewrite bind_ok; cycle 1.
        { erewrite bind_ok by apply Hadv. unfold lift.
          rewrite list_iadd_in_range by exact Hin. reflexivity. }
        fold v samples1. rewrite Hrun. f_equal.
        rewrite iter_shift. f_equal. lia.
      * rewrite Hlen'. unfold samples1. apply length_alter.
      * intros k. rewrite Hlook. unfold samples1.
        destruct (decide (k = Z.to_nat (start + Z.of_nat a))) as [-> | Hne].
        -- rewrite list_lookup_alter_eq.
           case_decide; [lia |]. case_decide; [| lia].
           replace (Z.of_nat (Z.to_nat (start + Z.of_nat a)) - start) with (Z.of_nat a) by lia.
           replace (Z.to_nat (Z.of_nat a - Z.of_nat a)) with O by lia.
           reflexivity.
        -- rewrite list_lookup_alter_ne by congruence.
           repeat case_decide; try lia; try reflexivity.
           rewrite iter_shift.
           replace (S (Z.to_nat (Z.of_nat k - start - Z.of_nat (S a))))
             with (Z.to_nat (Z.of_nat k - start - Z.of_nat a)) by lia.
           reflexivity.
    + apply Z.ltb_ge in E.
      destruct (IH (S a) samples w Hlen) as (samples' & Hrun & Hlen' & Hlook).
      exists samples'. split; [| split].
      * erewrite bind_ok by reflexivity. rewrite Hrun. do 2 f_equal.
        replace (Z.to_nat (Z.min (Z.of_nat c) (num_samples - start - Z.of_nat (S a))))
          with O by lia.
        replace (Z.to_nat (Z.min (Z.of_nat (S c)) (num_samples - start - Z.of_nat a)))
          with O by lia.
        reflexivity.
      * exact Hlen'.
      * intros k. rewrite Hlook. repeat case_decide; try lia; reflexivity.
Qed.

Lemma add_samples_at_spec (num_samples start count : Z) (value : Z -> py Q)
    (h : Z -> world -> Q) (adv : world -> world) (samples : list Q) (w : world) :
  advances value h adv -> 0 <= start -> num_samples <= len samples ->
  exists samples',
    add_samples_at num_samples start count value samples w
    = (Ok samples', Nat.iter (Z.to_nat (Z.min count (num_samples - start))) adv w)
    /\ length samples' = length samples
    /\ forall k : nat,
         samples' !! k =
         if decide (start <= Z.of_nat k < start + count /\ Z.of_nat k < num_samples)
         then (fun x => Qplus x (h (Z.of_nat k - start)
                   (Nat.iter (Z.to_nat (Z.of_nat k - start)) adv w)))
                <$> samples !! k
         else samples !! k.
Proof.
  intros Hadv Hstart Hlen.
  destruct (add_samples_at_seq num_samples start value h adv Hadv Hstart
              (Z.to_nat count) 0 samples w Hlen) as (samples' & Hrun & Hlen' & Hlook).
  exists samples'. split; [| split].
  - unfold add_samples_at, for_range, py_range. cbv zeta. rewrite Hrun.
    replace (Z.to_nat (Z.min (Z.of_nat (Z.to_nat count))
                         (num_samples - start - Z.of_nat 0)))
      with (Z.to_nat (Z.min count (num_samples - start))) by lia.
    reflexivity.
  - exact Hlen'.
  - intros k. rewrite Hlook.
    repeat case_decide; try lia; try reflexivity.
    replace (Z.of_nat k - start - Z.of_nat 0) with (Z.of_nat k - start) by lia.
    reflexivity.
Qed.

Lemma iter_id {A} (n : nat) (x : A) : Nat.iter n (fun y => y) x = x.
Proof. induction n as [| n IH]; simpl; [reflexivity | exact IH]. Qed.

(** A component whose values do not touch the world. *)
Lemma add_samples_at_pure (num_samples start count : Z) (f : Z -> Q)
    (samples : list Q) (w : world) :
  0 <= start -> num_samples <= len samples ->
  exists samples',
    add_samples_at num_samples start count (fun i => ret (f i)) samples w
    = (Ok samples', w)
    /\ length samples' = length samples
    /\ forall k : nat,
         samples' !! k =
         if decide (start <= Z.of_nat k < start + count /\ Z.of_nat k < num_samples)
         then (fun x => Qplus x (f (Z.of_nat k - start))) <$> samples !! k
         else samples !! k.
Proof.
  intros Hstart Hlen.
  destruct (add_samples_at_spec num_samples start count (fun i => ret (f i))
              (fun i _ => f i) (fun w => w) samples w) as (samples' & Hrun & Hlen' & Hlook);
    [intros i w'; reflexivity | exact Hstart | exact Hlen |].
  exists samples'. rewrite iter_id in Hrun. auto.
Qed.

(** The unguarded loop is the guarded one from 0 when it stays inside the
    buffer. *)
Lemma add_samples_as_at (count : Z) (value : Z -> py Q) (samples : list Q)
    (w : world) (num_samples : Z) :
  count <= num_samples ->
  add_samples count value samples w
  = add_samples_at num_samples 0 count value samples w.
Proof.
  intros Hc. unfold add_samples, add_samples_at, for_range.
  apply for_each_ext. intros i s w' Hi. apply in_py_range in Hi.
  cbv zeta. change (0 + i) with i.
  now rewrite (proj2 (Z.ltb_lt i num_samples)) by lia.
Qed.

Lemma random_random_eq (w : world) : random_random w = (Ok (drawn w), draw w).
Proof.
  unfold random_random, drawn, draw. now destruct (MT.random (rng w)).
Qed.

Lemma random_jitter_eq (range : Q) (w : world) :
  random_jitter range w = (Ok ((drawn w - 0.5) * range)%Q, draw w).
Proof.
  unfold random_jitter. erewrite bind_ok by apply random_random_eq. reflexivity.
Qed.

Lemma random_seed_eq (n : Z) (w : world) : random_seed n w = (Ok tt, seeded n w).
Proof. reflexivity. Qed.

Lemma fs_iter_draw (n : nat) (w : world) : fs (Nat.iter n draw w) = fs w.
Proof. induction n as [| n IH]; simpl; [reflexivity | exact IH]. Qed.

Lemma space_iter_draw (n : nat) (w : world) : space (Nat.iter n draw w) = space w.
Proof. induction n as [| n IH]; simpl; [reflexivity | exact IH]. Qed.

Lemma rng_iter_draw (n : nat) (w : world) : rng (Nat.iter n draw w) = draws n (rng w).
Proof. induction n as [| n IH]; simpl; [reflexivity | now rewrite IH]. Qed.

Lemma unwritable_iter_draw (n : nat) (w : world) :
  unwritable (Nat.iter n draw w) = unwritable w.
Proof. induction n as [| n IH]; simpl; [reflexivity | exact IH]. Qed.

(** Drawing only moves the generator. *)
Lemma iter_draw_world (n : nat) (w : world) :
  Nat.iter n draw w
  = {| rng := draws n (rng w); fs := fs w; space := space w; unwritable := unwritable w |}.
Proof.
  induction n as [| n IH]; simpl; [now destruct w |].
  rewrite IH. reflexivity.
Qed.

End Loops.

(** ** Writing a file *)

Section Writing.

Lemma struct_pack_h_ok (x : Z) :
  int16 x -> struct_pack_h x = Ok [Z.land x 255; Z.land (Z.shiftr x 8) 255].
Proof.
  intros [Hlo Hhi]. unfold struct_pack_h.
  now rewrite (proj2 (Z.leb_le _ _) Hlo), (proj2 (Z.leb_le _ _) Hhi).
Qed.

Lemma length_frame_bytes (ints : list Z) :
  length (frame_bytes ints) = (2 * length ints)%nat.
Proof.
  unfold frame_bytes. induction ints as [| x l IH]; simpl; [reflexivity |].
  rewrite IH. lia.
Qed.

Lemma frame_bytes_app (l1 l2 : list Z) :
  frame_bytes (l1 ++ l2) = frame_bytes l1 ++ frame_bytes l2.
Proof. unfold frame_bytes. now rewrite map_app, concat_app. Qed.

(** The write loop on a file that is open at [f]: it writes frames while the
    device has room for them. *)
Lemma write_loop_spec {A} (f : Wave_write) (to_int : A -> Z) :
  forall (samples : list A) (g : MT.state) (m : gmap string wav_data)
         (hdr : option (Z * Z * Z)) (p : list Z) (sp : nat) (un : string -> bool),
  Forall (fun s => int16 (to_int s)) samples ->
  let k := Nat.min (length samples) (sp / 2) in
  for_each samples (fun sample _ =>
      frame <- lift (struct_pack_h (to_int sample)) ;;
      writeframes f frame) tt
    {| rng := g; fs := <[wpath f := {| params := hdr; payload := p |}]> m; space := sp;
       unwritable := un |}
  = (if (length samples <=? sp / 2)%nat then Ok tt else Raise OSError,
     {| rng := g;
        fs := <[wpath f := {| params := if (k =? 0)%nat then hdr else Some (header f);
                               payload := p ++ frame_bytes (map to_int (take k samples)) |}]> m;
        space := sp - 2 * k;
        unwritable := un |}).
Proof.
  induction samples as [| s l IH]; intros g m hdr p sp un Hall.
  - simpl. unfold ret. rewrite app_nil_r, Nat.sub_0_r. reflexivity.
  - apply Forall_cons in Hall as [Hs Hl].
    cbn [for_each]. cbv zeta.
    destruct (le_lt_dec 2 sp) as [Hsp | Hsp].
    + erewrite bind_ok; cycle 1.
      { erewrite bind_ok by (unfold lift; rewrite struct_pack_h_ok by exact Hs; reflexivity).
        unfold writeframes. cbn [length space].
        rewrite (proj2 (Nat.leb_le 2 sp) Hsp).
        unfold file_at. cbn [fs]. rewrite lookup_insert_eq. cbn [default payload].
        rewrite insert_insert_eq. reflexivity. }
      rewrite (IH g m (Some (header f)) _ (sp - 2)%nat un Hl).
      assert (Hdiv : ((sp - 2) / 2 = sp / 2 - 1)%nat).
      { pose proof (Nat.div_mod_eq sp 2). pose proof (Nat.div_mod_eq (sp - 2) 2).
        pose proof (Nat.mod_upper_bound sp 2). pose proof (Nat.mod_upper_bound (sp - 2) 2).
        lia. }
      assert (Hpos : (1 <= sp / 2)%nat).
      { pose proof (Nat.div_mod_eq sp 2). pose proof (Nat.mod_upper_bound sp 2). lia. }
      rewrite Hdiv. cbn [length].
      replace (Nat.min (S (length l)) (sp / 2)) with (S (Nat.min (length l) (sp / 2 - 1))) by lia.
      cbn [take map]. f_equal.
      * destruct (length l <=? sp / 2 - 1)%nat eqn:E1;
          destruct (S (length l) <=? sp / 2)%nat eqn:E2; try reflexivity;
          [apply Nat.leb_le in E1; apply Nat.leb_gt in E2
          | apply Nat.leb_gt in E1; apply Nat.leb_le in E2]; lia.
      * f_equal; [| lia]. f_equal. f_equal.
        -- now destruct (Nat.min (length l) (sp / 2 - 1) =? 0)%nat.
        -- rewrite <- app_assoc. reflexivity.
    + erewrite bind_raise; cycle 1.
      { erewrite bind_ok by (unfold lift; rewrite struct_pack_h_ok by exact Hs; reflexivity).
        unfold writeframes. cbn [length space].
        rewrite (proj2 (Nat.leb_gt 2 sp) Hsp). reflexivity. }
      assert (Hz : (sp / 2 = 0)%nat) by (apply Nat.div_small; lia).
      rewrite Hz. cbn [length Nat.leb Nat.min take map Nat.eqb].
      unfold frame_bytes. cbn [map concat]. rewrite app_nil_r, Nat.sub_0_r.
      reflexivity.
Qed.

(** A destination that cannot be opened: [wave.open] raises, and the world
    is as it was. *)
Lemma write_wav_refused {A} (filename : string) (to_int : A -> Z) (samples : list A)
    (w : world) :
  unwritable w filename = true ->
  write_wav filename to_int samples w = (Raise OSError, w).
Proof.
  intros Hun. unfold write_wav, with_wave_open, bind, wave_open. now rewrite Hun.
Qed.

Lemma wave_open_ok (filename : string) (w : world) :
  unwritable w filename = false ->
  wave_open filename w
  = (Ok {| wpath := filename; nchannels := 0; sampwidth := 0; framerate := 0 |},
     {| rng := rng w; fs := <[filename := empty_wav]> (fs w); space := space w;
        unwritable := unwritable w |}).
Proof. intros Hun. unfold wave_open. now rewrite Hun. Qed.

(** [write_wav] on values that fit 16 bits, at a destination that can be
    opened: the destination holds the header and the frames the device had
    room for; the call fails with OSError when that is not all of them. *)
Lemma write_wav_spec {A} (filename : string) (to_int : A -> Z) (samples : list A)
    (w : world) :
  unwritable w filename = false ->
  Forall (fun s => int16 (to_int s)) samples ->
  let k := Nat.min (length samples) (space w / 2) in
  write_wav filename to_int samples w
  = (if (length samples <=? space w / 2)%nat then Ok tt else Raise OSError,
     {| rng := rng w;
        fs := <[filename := {| params := Some wav_header;
                               payload := frame_bytes (map to_int (take k samples)) |}]> (fs w);
        space := space w - 2 * k;
        unwritable := unwritable w |}).
Proof.
  intros Hun Hall k. unfold write_wav, with_wave_open.
  erewrite bind_ok by (apply wave_open_ok; exact Hun).
  set (f := setframerate _ _).
  pose proof (write_loop_spec f to_int samples (rng w) (fs w) None [] (space w)
                (unwritable w) Hall) as H.
  change (wpath f) with filename in H.
  unfold empty_wav. cbn [rng fs space unwritable]. rewrite H. clear H.
  fold k. unfold wave_close, file_at. cbn [rng fs space unwritable wpath].
  change (wpath f) with filename.
  rewrite lookup_insert_eq, insert_insert_eq. cbn [default payload app].
  reflexivity.
Qed.

End Writing.

(** ** The encoder as the specification words it *)

Section Encoder.
Local Open Scope Q_scope.

Lemma py_int_opp (x : Q) : py_int (- x) = (- py_int x)%Z.
Proof. destruct x as [n d]. unfold py_int. simpl. apply Z.quot_opp_l. lia. Qed.

(** The clamp of the code, applied after scaling, is the clamp to [-1, 1]
    applied before. *)
Lemma clamp_after_scaling (s : Q) :
  py_max (-32767) (py_min 32767 (s * 32767)) == spec_clamp s (-1) 1 * 32767.
Proof.
  unfold py_max, py_min, spec_clamp.
  destruct (Qltb (s * 32767) 32767) eqn:E1;
    destruct (Qltb s (-1)) eqn:E2; destruct (Qltb 1 s) eqn:E3;
    repeat match goal with
    | H : Qltb _ _ = true |- _ => apply Qltb_lt in H
    | H : Qltb _ _ = false |- _ => apply Qltb_ge in H
    end; try lra;
    match goal with
    | |- context [Qltb ?a ?b] => destruct (Qltb a b) eqn:E4
    end;
    repeat match goal with
    | H : Qltb _ _ = true |- _ => apply Qltb_lt in H
    | H : Qltb _ _ = false |- _ => apply Qltb_ge in H
    end; lra.
Qed.

Lemma clamp_to_int16_spec (s : Q) :
  clamp_to_int16 s = py_int (spec_clamp s (-1) 1 * 32767).
Proof. unfold clamp_to_int16. apply py_int_proper, clamp_after_scaling. Qed.

Lemma spec_clamp_bounds (s : Q) : -1 <= spec_clamp s (-1) 1 <= 1.
Proof.
  unfold spec_clamp.
  destruct (Qltb s (-1)) eqn:E2; [lra |]. destruct (Qltb 1 s) eqn:E3; [lra |].
  apply Qltb_ge in E2, E3. lra.
Qed.

Lemma spec_clamp_id (s : Q) : -1 <= s <= 1 -> spec_clamp s (-1) 1 = s.
Proof.
  intros [Hlo Hhi]. unfold spec_clamp.
  destruct (Qltb s (-1)) eqn:E2; [apply Qltb_lt in E2; lra |].
  destruct (Qltb 1 s) eqn:E3; [apply Qltb_lt in E3; lra | reflexivity].
Qed.

Lemma clamp_to_int16_range (s : Q) : (-32767 <= clamp_to_int16 s <= 32767)%Z.
Proof.
  rewrite clamp_to_int16_spec. pose proof (spec_clamp_bounds s) as [Hlo Hhi].
  apply (py_int_within _ 32767).
  change (inject_Z 32767) with 32767. lra.
Qed.

Lemma clamp_to_int16_fits (s : Q) : int16 (clamp_to_int16 s).
Proof. pose proof (clamp_to_int16_range s). unfold int16. lia. Qed.

(** [max(...)] of a non-empty sequence is one of its members and bounds
    them all. *)
Lemma fold_py_max_spec (l : list Q) (m : Q) :
  m <= fold_left py_max l m
  /\ Forall (fun y => y <= fold_left py_max l m) l
  /\ (fold_left py_max l m = m \/ In (fold_left py_max l m) l).
Proof.
  revert m. induction l as [| y l IH]; intros m; simpl.
  - split; [lra | split; [constructor | now left]].
  - destruct (IH (py_max m y)) as (H1 & H2 & H3).
    destruct (py_max_spec m y) as (Hm & Hy & Hor).
    split; [lra |]. split.
    + constructor; [lra | exact H2].
    + destruct H3 as [H3 | H3]; [| now right; right].
      rewrite H3. destruct Hor as [-> | ->]; [now left | now right; left].
Qed.

Lemma py_max_list_abs (samples : list Q) :
  samples <> [] ->
  exists peak, py_max_list (map Qabs samples) = Ok peak
    /\ Forall (fun s => Qabs s <= peak) samples
    /\ exists s, In s samples /\ peak = Qabs s.
Proof.
  destruct samples as [| x l]; [congruence |]. intros _. simpl.
  destruct (fold_py_max_spec (map Qabs l) (Qabs x)) as (H1 & H2 & H3).
  eexists. split; [reflexivity |]. split.
  - constructor; [exact H1 |]. rewrite Forall_map in H2. exact H2.
  - destruct H3 as [H3 | H3].
    + exists x. split; [now left | exact H3].
    + apply in_map_iff in H3 as (s & Hs & Hin). exists s. split; [now right | now symmetry].
Qed.

Lemma fdiv_ok (a b : Q) : ~ b == 0 -> fdiv a b = Ok (a / b).
Proof.
  intros Hb. unfold fdiv. destruct (Qeq_bool b 0) eqn:E; [| reflexivity].
  apply Qeq_bool_iff in E. contradiction.
Qed.

(** The final pass on a non-empty buffer: no exception, and the values it
    leaves, in terms of the peak. *)
Lemma normalize_and_apply_volume_spec (samples : list Q) (volume : Q) :
  samples <> [] ->
  exists peak s0, In s0 samples /\ peak = Qabs s0
    /\ Forall (fun s => Qabs s <= peak) samples
    /\ normalize_and_apply_volume samples volume
       = Ok (if Qltb 0 peak
             then map (fun s => float_mul s volume)
                    (map (fun s => float_mul s (fl (fl 1.0 / fl peak))) samples)
             else map (fun s => float_mul s volume) samples).
Proof.
  intros Hne. destruct (py_max_list_abs samples Hne) as (peak & Hmax & Hall & s0 & Hin & Hpeak).
  exists peak, s0. repeat split; try assumption.
  unfold normalize_and_apply_volume. rewrite Hmax. cbn [rbind].
  destruct (Qltb 0 peak) eqn:E; [| reflexivity].
  apply Qltb_lt in E. rewrite float_div_ok by lra. reflexivity.
Qed.

Lemma normalize_and_apply_volume_length (samples : list Q) (volume : Q) :
  samples <> [] ->
  exists scaled, normalize_and_apply_volume samples volume = Ok scaled
    /\ length scaled = length samples.
Proof.
  intros Hne.
  destruct (normalize_and_apply_volume_spec samples volume Hne)
    as (peak & s0 & _ & _ & _ & ->).
  eexists. split; [reflexivity |].
  destruct (Qltb 0 peak); now rewrite ?length_map.
Qed.

Lemma normalize_and_apply_volume_empty (volume : Q) :
  normalize_and_apply_volume [] volume = Raise ValueError.
Proof. reflexivity. Qed.

Lemma peak_magnitude_eq (ints : list Z) (t : Z) :
  Forall (fun q => (Z.abs q <= t)%Z) ints ->
  (exists q, In q ints /\ Z.abs q = t) ->
  peak_magnitude ints = t.
Proof.
  unfold peak_magnitude. induction ints as [| q l IH]; intros Hall (q0 & Hin & Hq0).
  - destruct Hin.
  - apply Forall_cons in Hall as [Hq Hl]. simpl.
    assert (Hle : (fold_right Z.max 0 (map Z.abs l) <= t)%Z).
    { clear -Hl Hq. induction l as [| y l IH]; simpl.
      - lia.
      - apply Forall_cons in Hl as [Hy Hl]. specialize (IH Hl). lia. }
    destruct Hin as [-> | Hin]; [lia |].
    rewrite (IH Hl) by eauto. lia.
Qed.

Lemma clamp_to_int16_zero (x : Q) : x == 0 -> clamp_to_int16 x = 0%Z.
Proof.
  intros E. rewrite clamp_to_int16_spec, spec_clamp_id by lra.
  now rewrite (py_int_proper _ 0) by (rewrite E; reflexivity).
Qed.

End Encoder.


(** ** The single clicks *)

Section SingleClicks.
Context {math : Math}.

Lemma add_samples_spec (count : Z) (value : Z -> py Q)
    (h : Z -> world -> Q) (adv : world -> world) (samples : list Q) (w : world) :
  advances value h adv -> count <= len samples ->
  exists samples',
    add_samples count value samples w
    = (Ok samples', Nat.iter (Z.to_nat count) adv w)
    /\ length samples' = length samples
    /\ forall k : nat,
         samples' !! k =
         if decide (Z.of_nat k < count)
         then (fun x => Qplus x (h (Z.of_nat k) (Nat.iter k adv w))) <$> samples !! k
         else samples !! k.
Proof.
  intros Hadv Hc.
  rewrite (add_samples_as_at count value samples w (len samples) Hc).
  destruct (add_samples_at_spec (len samples) 0 count value h adv samples w Hadv)
    as (samples' & Hrun & Hlen & Hlook); [lia | lia |].
  exists samples'. split; [| split].
  - rewrite Hrun. do 2 f_equal. lia.
  - exact Hlen.
  - intros k. rewrite Hlook.
    destruct (decide (Z.of_nat k < len samples)) as [Hk | Hk].
    + repeat case_decide; try lia; try reflexivity.
      replace (Z.of_nat k - 0) with (Z.of_nat k) by lia.
      now rewrite Nat2Z.id.
    + rewrite (lookup_ge_None_2 samples k) by (unfold len in Hk; lia).
      now repeat case_decide.
Qed.

(** A value that draws one number from the shared generator. *)
Lemma advances_random (g : Z -> Q -> Q) :
  advances (fun i => r <- random_random ;; ret (g i r)) (fun i w => g i (drawn w)) draw.
Proof.
  intros i w. erewrite bind_ok by apply random_random_eq. reflexivity.
Qed.

Lemma advances_ret (f : Z -> Q) :
  advances (fun i => ret (f i)) (fun i _ => f i) (fun w => w).
Proof. intros i w. reflexivity. Qed.

Lemma keeps_length_add_samples_at (n start count : Z) (f : Z -> Q) :
  0 <= start ->
  keeps_length (add_samples_at n start count (fun i => ret (f i))) n (fun w => w).
Proof.
  intros Hs samples w Hlen.
  destruct (add_samples_at_pure n start count f samples w Hs) as (s' & Hrun & Hl & _);
    [exact Hlen |].
  exists s'. split; [exact Hrun | exact Hl].
Qed.

Lemma keeps_length_add_samples (n count : Z) (f : Z -> Q) :
  count <= n ->
  keeps_length (add_samples count (fun i => ret (f i))) n (fun w => w).
Proof.
  intros Hc samples w Hlen.
  destruct (add_samples_spec count _ _ _ samples w (advances_ret f))
    as (s' & Hrun & Hl & _); [lia |].
  exists s'. rewrite iter_id in Hrun. split; [exact Hrun | exact Hl].
Qed.

Lemma keeps_length_add_samples_random (n count : Z) (g : Z -> Q -> Q) :
  count <= n ->
  keeps_length (add_samples count (fun i => r <- random_random ;; ret (g i r))) n
    (Nat.iter (Z.to_nat count) draw).
Proof.
  intros Hc samples w Hlen.
  destruct (add_samples_spec count _ _ _ samples w (advances_random g))
    as (s' & Hrun & Hl & _); [lia |].
  exists s'. split; [exact Hrun | exact Hl].
Qed.

Lemma keeps_length_add_samples_at_random (n start count : Z) (g : Z -> Q -> Q) :
  0 <= start ->
  keeps_length (add_samples_at n start count (fun i => r <- random_random ;; ret (g i r))) n
    (Nat.iter (Z.to_nat (Z.min count (n - start))) draw).
Proof.
  intros Hs samples w Hlen.
  destruct (add_samples_at_spec n start count _ _ _ samples w (advances_random g) Hs)
    as (s' & Hrun & Hl & _); [lia |].
  exists s'. split; [exact Hrun | exact Hl].
Qed.

Lemma keeps_length_seq (c1 c2 : list Q -> py (list Q)) (n : Z)
    (adv1 adv2 : world -> world) :
  keeps_length c1 n adv1 -> keeps_length c2 n adv2 ->
  keeps_length (fun samples => s <- c1 samples ;; c2 s) n (fun w => adv2 (adv1 w)).
Proof.
  intros H1 H2 samples w Hlen.
  destruct (H1 samples w Hlen) as (s1 & E1 & L1).
  destruct (H2 s1 (adv1 w)) as (s2 & E2 & L2); [unfold len in *; lia |].
  exists s2. split; [| congruence]. erewrite bind_ok by exact E1. exact E2.
Qed.

Lemma keeps_length_seeded (c : list Q -> py (list Q)) (n seed : Z)
    (adv : world -> world) :
  keeps_length c n adv ->
  keeps_length (fun samples => random_seed seed ;;; c samples) n
    (fun w => adv (seeded seed w)).
Proof.
  intros H samples w Hlen. destruct (H samples (seeded seed w) Hlen) as (s & E & L).
  exists s. split; [| exact L]. erewrite bind_ok by apply random_seed_eq. exact E.
Qed.

(** The thock click: 3528 samples; the shared generator is left 352 draws
    after [random.seed(45)]. *)
Lemma thock_click_samples_spec (w : world) :
  exists samples,
    AddThockSounds.thock_click_samples w
    = (Ok samples, Nat.iter 352 draw (seeded 45 w))
    /\ len samples = 3528.
Proof.
  unfold AddThockSounds.thock_click_samples.
  change (py_int (sample_rate * AddThockSounds.duration)) with 3528.
  assert (H : keeps_length (fun samples =>
              s <- AddThockSounds.click_component 3528 samples ;;
              s <- AddThockSounds.clack_component 3528 s ;;
              s <- AddThockSounds.thock_component 3528 s ;;
              AddThockSounds.noise_component 3528 s) 3528
            (fun w => Nat.iter 352 draw (seeded 45 w))).
  { apply (keeps_length_seq _ _ 3528 (fun w => w) (fun w => Nat.iter 352 draw (seeded 45 w))).
    { apply keeps_length_add_samples. vm_compute. discriminate. }
    apply (keeps_length_seq _ _ 3528 (fun w => w) (fun w => Nat.iter 352 draw (seeded 45 w))).
    { apply keeps_length_add_samples_at. vm_compute. discriminate. }
    apply (keeps_length_seq _ _ 3528 (fun w => w) (fun w => Nat.iter 352 draw (seeded 45 w))).
    { apply keeps_length_add_samples_at. vm_compute. discriminate. }
    apply (keeps_length_seeded _ 3528 45 (Nat.iter 352 draw)).
    apply (keeps_length_add_samples_random 3528 352). lia. }
  destruct (H (zeros 3528) w) as (s & E & L); [rewrite len_zeros; lia |].
  exists s. split; [exact E |]. unfold len. rewrite L. reflexivity.
Qed.

(** The mechanical click: 2646 samples; the shared generator is left 529
    draws after [random.seed(42)]. *)
Lemma mechanical_click_samples_spec (w : world) :
  exists samples,
    AddMechanicalSound.mechanical_click_samples w
    = (Ok samples, Nat.iter 529 draw (seeded 42 w))
    /\ len samples = 2646.
Proof.
  unfold AddMechanicalSound.mechanical_click_samples.
  change (py_int (sample_rate * 0.06)) with 2646.
  assert (H : keeps_length (fun samples =>
              s <- AddMechanicalSound.click_component 2646 samples ;;
              s <- AddMechanicalSound.clack_component 2646 s ;;
              s <- AddMechanicalSound.thock_component 2646 s ;;
              AddMechanicalSound.noise_component 2646 s) 2646
            (fun w => Nat.iter 529 draw (seeded 42 w))).
  { apply (keeps_length_seq _ _ 2646 (fun w => w) (fun w => Nat.iter 529 draw (seeded 42 w))).
    { apply keeps_length_add_samples. vm_compute. discriminate. }
    apply (keeps_length_seq _ _ 2646 (fun w => w) (fun w => Nat.iter 529 draw (seeded 42 w))).
    { apply keeps_length_add_samples_at. vm_compute. discriminate. }
    apply (keeps_length_seq _ _ 2646 (fun w => w) (fun w => Nat.iter 529 draw (seeded 42 w))).
    { apply keeps_length_add_samples_at. vm_compute. discriminate. }
    apply (keeps_length_seeded _ 2646 42 (Nat.iter 529 draw)).
    apply (keeps_length_add_samples_random 2646 529). lia. }
  destruct (H (zeros 2646) w) as (s & E & L); [rewrite len_zeros; lia |].
  exists s. split; [exact E |]. unfold len. rewrite L. reflexivity.
Qed.

End SingleClicks.

(** ** Runs that do not depend on the state of the shared generator *)

Section Oblivious.

Lemma same_disk_refl (w : world) : same_disk w w.
Proof. repeat split; reflexivity. Qed.

Lemma resets_oblivious {A} (c : py A) : resets c -> oblivious c.
Proof. intros H w1 w2 Hd. rewrite (H w1 w2 Hd). split; [reflexivity | apply same_disk_refl]. Qed.

Lemma oblivious_ret {A} (a : A) : oblivious (ret a).
Proof. intros w1 w2 Hd. split; [reflexivity | exact Hd]. Qed.

Lemma oblivious_lift {A} (r : result A) : oblivious (lift r).
Proof. intros w1 w2 Hd. split; [reflexivity | exact Hd]. Qed.

Lemma oblivious_bind {A B} (c : py A) (k : A -> py B) :
  oblivious c -> (forall a, oblivious (k a)) -> oblivious (bind c k).
Proof.
  intros Hc Hk w1 w2 Hd. destruct (Hc w1 w2 Hd) as [Hr Hd']. unfold bind.
  destruct (c w1) as [r1 w1'], (c w2) as [r2 w2']. simpl in Hr, Hd'. subst r2.
  destruct r1 as [a | e]; [apply Hk; exact Hd' | split; [reflexivity | exact Hd']].
Qed.

Lemma resets_seed (n : Z) : resets (random_seed n).
Proof.
  intros w1 w2 (Hf & Hs & Hu). unfold random_seed. now rewrite Hf, Hs, Hu.
Qed.

Lemma resets_bind {A B} (c : py A) (k : A -> py B) : resets c -> resets (bind c k).
Proof. intros Hc w1 w2 Hd. unfold bind. now rewrite (Hc w1 w2 Hd). Qed.

Lemma oblivious_for_each {A S} (l : list A) (body : A -> S -> py S) :
  (forall x s, oblivious (body x s)) -> forall s, oblivious (for_each l body s).
Proof.
  intros Hb. induction l as [| x l IH]; intros s; simpl.
  - apply oblivious_ret.
  - apply oblivious_bind; [apply Hb | exact IH].
Qed.

Lemma oblivious_for_range {S} (n : Z) (body : Z -> S -> py S) :
  (forall x s, oblivious (body x s)) -> forall s, oblivious (for_range n body s).
Proof. intros Hb s. now apply oblivious_for_each. Qed.

Lemma oblivious_add_samples (count : Z) (value : Z -> py Q) (samples : list Q) :
  (forall i, oblivious (value i)) -> oblivious (add_samples count value samples).
Proof.
  intros Hv. apply oblivious_for_range. intros i s.
  apply oblivious_bind; [apply Hv | intros v; apply oblivious_lift].
Qed.

Lemma oblivious_add_samples_at (n start count : Z) (value : Z -> py Q)
    (samples : list Q) :
  (forall i, oblivious (value i)) -> oblivious (add_samples_at n start count value samples).
Proof.
  intros Hv. apply oblivious_for_range. intros i s. cbv zeta.
  destruct (start + i <? n); [| apply oblivious_ret].
  apply oblivious_bind; [apply Hv | intros v; apply oblivious_lift].
Qed.

Lemma oblivious_writeframes (f : Wave_write) (data : list Z) :
  oblivious (writeframes f data).
Proof.
  intros w1 w2 (Hf & Hs & Hu). unfold writeframes, file_at. rewrite Hf, Hs, Hu.
  destruct (length data <=? space w2)%nat; split; try reflexivity;
    repeat split; simpl; congruence.
Qed.

Lemma oblivious_write_wav {A} (filename : string) (to_int : A -> Z) (samples : list A) :
  oblivious (write_wav filename to_int samples).
Proof.
  intros w1 w2 (Hf & Hs & Hu). unfold write_wav, with_wave_open, bind, wave_open.
  rewrite Hu. destruct (unwritable w2 filename).
  { split; [reflexivity | repeat split; assumption]. }
  set (f := setframerate _ _).
  set (body := for_each samples _ tt).
  assert (Hb : oblivious body).
  { apply oblivious_for_each. intros s u. cbv zeta.
    apply oblivious_bind; [apply oblivious_lift | intros fr; apply oblivious_writeframes]. }
  destruct (Hb {| rng := rng w1; fs := <[filename := empty_wav]> (fs w1); space := space w1;
                  unwritable := unwritable w2 |}
               {| rng := rng w2; fs := <[filename := empty_wav]> (fs w2); space := space w2;
                  unwritable := unwritable w2 |})
    as (Hr & Hf' & Hs' & Hu').
  { repeat split; simpl; congruence. }
  destruct (body _) as [r1 w1'], (body _) as [r2 w2']. simpl in Hr, Hf', Hs', Hu'.
  unfold wave_close, file_at. simpl. rewrite Hr, Hf', Hs', Hu'.
  split; [reflexivity | repeat split; reflexivity].
Qed.

End Oblivious.

Ltac oblivious_step :=
  lazymatch goal with
  | |- oblivious (ret _) => apply oblivious_ret
  | |- oblivious (lift _) => apply oblivious_lift
  | |- oblivious (write_wav _ _ _) => apply oblivious_write_wav
  | |- oblivious (bind (random_seed _) _) =>
      apply resets_oblivious, resets_bind, resets_seed
  | |- oblivious (add_samples _ _ _) => apply oblivious_add_samples; intros ?
  | |- oblivious (add_samples_at _ _ _ _ _) => apply oblivious_add_samples_at; intros ?
  | |- oblivious (for_range _ _ _) => apply oblivious_for_range; intros ? ?
  | |- oblivious (for_each _ _ _) => apply oblivious_for_each; intros ? ?
  | |- oblivious (bind _ _) => apply oblivious_bind; [| intros ?]
  end.

Ltac oblivious := repeat (cbv beta zeta; oblivious_step).

Section ObliviousGenerators.
Context {math : Math}.

Lemma oblivious_mechanical_click (filename : string) (volume : Q) :
  oblivious (AddMechanicalSound.generate_mechanical_keyboard_click filename volume).
Proof.
  unfold AddMechanicalSound.generate_mechanical_keyboard_click,
    AddMechanicalSound.mechanical_click_samples, AddMechanicalSound.click_component,
    AddMechanicalSound.clack_component, AddMechanicalSound.thock_component,
    AddMechanicalSound.noise_component.
  oblivious.
Qed.

Lemma oblivious_multiple_mechanical_clicks (filename : string) (num_clicks : Z)
    (volume : Q) :
  oblivious (AddMechanicalSound.generate_multiple_mechanical_clicks filename num_clicks volume).
Proof.
  unfold AddMechanicalSound.generate_multiple_mechanical_clicks. oblivious.
Qed.

Lemma oblivious_thock_click (filename : string) (volume : Q) :
  oblivious (AddThockSounds.generate_thock_click filename volume).
Proof.
  unfold AddThockSounds.generate_thock_click,
    AddThockSounds.thock_click_samples, AddThockSounds.click_component,
    AddThockSounds.clack_component, AddThockSounds.thock_component,
    AddThockSounds.noise_component.
  oblivious.
Qed.

Lemma oblivious_multiple_thock_clicks (filename : string) (num_clicks : Z)
    (volume : Q) :
  oblivious (AddThockSounds.generate_multiple_thock_clicks filename num_clicks volume).
Proof.
  unfold AddThockSounds.generate_multiple_thock_clicks. oblivious.
Qed.

Lemma oblivious_generate_tone (filename : string) (frequency duration volume : Q) :
  oblivious (GenerateSounds.generate_tone filename frequency duration volume).
Proof.
  unfold GenerateSounds.generate_tone, GenerateSounds.tone_samples. oblivious.
Qed.

Lemma oblivious_generate_chord (filename : string) (frequencies : list Q)
    (duration volume : Q) :
  oblivious (GenerateSounds.generate_chord filename frequencies duration volume).
Proof.
  unfold GenerateSounds.generate_chord, GenerateSounds.chord_samples. oblivious.
Qed.

Lemma oblivious_complete_samples : oblivious GenerateSounds.complete_samples.
Proof.
  unfold GenerateSounds.complete_samples. cbv zeta.
  apply oblivious_for_each. intros [[freq start_time] tone_duration] s.
  unfold GenerateSounds.melody_tone. oblivious.
Qed.

Lemma oblivious_main (sounds_dir : string) : oblivious (GenerateSounds.main sounds_dir).
Proof.
  unfold GenerateSounds.main.
  apply oblivious_bind; [apply oblivious_generate_chord | intros _].
  apply oblivious_bind; [apply oblivious_generate_chord | intros _].
  apply oblivious_bind; [apply oblivious_generate_tone | intros _].
  apply oblivious_bind; [apply oblivious_complete_samples | intros samples].
  apply oblivious_bind; [apply oblivious_write_wav | intros _].
  apply resets_oblivious, resets_bind, resets_seed.
Qed.

End ObliviousGenerators.

(** ** Draws and jitter *)

Section Draws.

Lemma u32_bound (x : Z) : 0 <= MT.u32 x < 4294967296.
Proof.
  unfold MT.u32. change 0xffffffff with (Z.ones 32).
  rewrite Z.land_ones by lia. apply Z.mod_pos_bound. lia.
Qed.

Lemma genrand_uint32_bound (s : MT.state) :
  0 <= fst (MT.genrand_uint32 s) < 4294967296.
Proof.
  unfold MT.genrand_uint32. destruct (MT.N <=? MT.index s)%nat; apply u32_bound.
Qed.

(** [random.random()] is in [0, 1). *)
Lemma random_bound (s : MT.state) : (0 <= fst (MT.random s) < 1)%Q.
Proof.
  unfold MT.random.
  pose proof (genrand_uint32_bound s) as Hx.
  destruct (MT.genrand_uint32 s) as [x s1].
  pose proof (genrand_uint32_bound s1) as Hy.
  destruct (MT.genrand_uint32 s1) as [y s2]. cbn [fst] in *.
  assert (Ha : 0 <= Z.shiftr x 5 < 134217728).
  { rewrite Z.shiftr_div_pow2 by lia. split.
    - apply Z.div_pos; lia.
    - apply Z.div_lt_upper_bound; lia. }
  assert (Hb : 0 <= Z.shiftr y 6 < 67108864).
  { rewrite Z.shiftr_div_pow2 by lia. split.
    - apply Z.div_pos; lia.
    - apply Z.div_lt_upper_bound; lia. }
  unfold Qle, Qlt. cbn [Qnum Qden]. lia.
Qed.

Lemma drawn_bound (w : world) : (0 <= drawn w < 1)%Q.
Proof. apply random_bound. Qed.

Lemma jitter_bound (r range : Q) :
  (0 <= r < 1 -> 0 <= range ->
   - (range / 2) <= (r - 0.5) * range <= range / 2)%Q.
Proof.
  intros [Hr0 Hr1] Hrange.
  assert (H1 : (0 <= r * range)%Q) by (apply Qmult_le_0_compat; lra).
  assert (H2 : (0 <= (1 - r) * range)%Q) by (apply Qmult_le_0_compat; lra).
  assert (E : (range / 2 == range * (1 # 2))%Q) by (field; lra).
  rewrite E. lra.
Qed.

(** The comprehension that draws the gaps. *)
Lemma draw_gaps_loop (gap_duration range : Q) (m a : nat) (acc : list Q) (w : world) :
  for_each (map Z.of_nat (seq a m)) (fun _ gaps =>
      jitter <- random_jitter range ;;
      ret (gaps ++ [(gap_duration + jitter)%Q])) acc w
  = (Ok (acc ++ gaps_drawn gap_duration range m w), Nat.iter m draw w).
Proof.
  revert a acc w. induction m as [| m IH]; intros a acc w.
  - simpl. now rewrite app_nil_r.
  - cbn [seq map for_each].
    erewrite bind_ok; cycle 1.
    { erewrite bind_ok by apply random_jitter_eq. reflexivity. }
    rewrite IH. cbn [gaps_drawn]. rewrite <- app_assoc. cbn [app].
    now rewrite iter_shift.
Qed.

Lemma length_gaps_drawn (gap_duration range : Q) (m : nat) (w : world) :
  length (gaps_drawn gap_duration range m w) = m.
Proof. revert w. induction m as [| m IH]; intros w; simpl; [reflexivity | now rewrite IH]. Qed.


End Draws.

(** ** The typing sounds *)

Section TypingSounds.
Context {math : Math}.

Lemma py_getitem_in_range (l : list Q) (k : nat) :
  (k < length l)%nat -> py_getitem l (Z.of_nat k) = Ok (nth k l 0%Q).
Proof.
  intros Hk. unfold py_getitem. rewrite py_index_in_range by (unfold len; lia).
  cbn [rbind]. now rewrite Nat2Z.id.
Qed.

Lemma py_sum_snoc (l : list Q) (x : Q) : py_sum (l ++ [x]) = (py_sum l + x)%Q.
Proof. unfold py_sum. now rewrite fold_left_app. Qed.


End TypingSounds.

(** ** Whole runs of the single clicks *)

Section Runs.
Context {math : Math}.

Lemma click_run (synth : py (list Q)) (seed : Z) (draws_made : nat) (n : nat)
    (filename : string) (volume : Q) (w : world) :
  n <> O ->
  (exists samples, synth w = (Ok samples, Nat.iter draws_made draw (seeded seed w))
                   /\ len samples = Z.of_nat n) ->
  exists stored,
    length stored = n
    /\ Forall (fun q => -32767 <= q <= 32767) stored
    /\ (samples <- synth ;;
        samples <- lift (normalize_and_apply_volume samples volume) ;;
        write_wav filename clamp_to_int16 samples) w
       = click_outcome seed draws_made filename stored w.
Proof.
  intros Hn (samples & Hsyn & Hlen).
  assert (Hne : samples <> []).
  { intros ->. unfold len in Hlen. simpl in Hlen. lia. }
  destruct (normalize_and_apply_volume_length samples volume Hne) as (scaled & Hnorm & Hl).
  exists (map clamp_to_int16 scaled). split; [| split].
  - rewrite length_map, Hl. unfold len in Hlen. lia.
  - rewrite Forall_map. apply Forall_forall. intros s _. apply clamp_to_int16_range.
  - erewrite bind_ok by exact Hsyn.
    erewrite bind_ok by (unfold lift; rewrite Hnorm; reflexivity).
    unfold click_outcome. destruct (unwritable w filename) eqn:Hun.
    + rewrite write_wav_refused by (rewrite unwritable_iter_draw; exact Hun).
      now rewrite iter_draw_world.
    + rewrite write_wav_spec;
        [| rewrite unwritable_iter_draw; exact Hun
         | apply Forall_forall; intros s _; apply clamp_to_int16_fits].
      rewrite !length_map, !space_iter_draw, fs_iter_draw, rng_iter_draw,
              unwritable_iter_draw.
      cbn [seeded rng fs space unwritable]. rewrite firstn_map. reflexivity.
Qed.

Lemma thock_click_run (filename : string) (volume : Q) (w : world) :
  exists stored,
    length stored = 3528%nat
    /\ Forall (fun q => -32767 <= q <= 32767) stored
    /\ AddThockSounds.generate_thock_click filename volume w
       = click_outcome 45 352 filename stored w.
Proof.
  apply (click_run AddThockSounds.thock_click_samples 45 352 3528);
    [discriminate | apply thock_click_samples_spec].
Qed.

Lemma mechanical_click_run (filename : string) (volume : Q) (w : world) :
  exists stored,
    length stored = 2646%nat
    /\ Forall (fun q => -32767 <= q <= 32767) stored
    /\ AddMechanicalSound.generate_mechanical_keyboard_click filename volume w
       = click_outcome 42 529 filename stored w.
Proof.
  apply (click_run AddMechanicalSound.mechanical_click_samples 42 529 2646);
    [discriminate | apply mechanical_click_samples_spec].
Qed.

(** No clicks: the buffer is empty and [max()] raises, before any file is
    opened. *)
Lemma multiple_mechanical_clicks_none (filename : string) (num_clicks : Z)
    (volume : Q) (w : world) :
  num_clicks <= 0 ->
  AddMechanicalSound.generate_multiple_mechanical_clicks filename num_clicks volume w
  = (Raise ValueError, seeded 44 w).
Proof.
  intros Hn. unfold AddMechanicalSound.generate_multiple_mechanical_clicks.
  erewrite bind_ok by apply random_seed_eq.
  unfold AddMechanicalSound.draw_gap_variations, for_range.
  rewrite (py_range_nonpos (num_clicks - 1)) by lia. cbn [for_each].
  erewrite bind_ok by reflexivity. cbv zeta.
  rewrite (py_range_nonpos num_clicks) by lia. cbn [for_each].
  erewrite bind_ok by reflexivity. cbn [fst].
  assert (Hz : zeros (py_int (sample_rate *
             (AddMechanicalSound.click_base_duration * num_clicks + py_sum [])%Q)%Q) = []).
  { unfold zeros, py_repeat.
    assert (Hq : (inject_Z num_clicks <= 0)%Q).
    { change 0%Q with (inject_Z 0). now rewrite <- Zle_Qle. }
    assert (Hle : (sample_rate * (AddMechanicalSound.click_base_duration * num_clicks
                                  + py_sum []) <= 0)%Q).
    { unfold AddMechanicalSound.click_base_duration, py_sum. cbn [fold_left].
      change (inject_Z sample_rate) with 44100%Q. lra. }
    pose proof (py_int_sign_nonpos _ Hle) as Hs.
    now replace (Z.to_nat _) with O by lia. }
  rewrite Hz. reflexivity.
Qed.

End Runs.

(** ** The tones: amplitudes stay within the volume *)

Section Tones.
Context {math : Math}.
Local Open Scope Q_scope.

Lemma scale_within (x f b : Q) :
  0 <= f <= 1 -> - b <= x <= b -> - b <= x * f <= b.
Proof.
  intros [Hf0 Hf1] [Hlo Hhi].
  assert (H1 : 0 <= (b - x) * f) by (apply Qmult_le_0_compat; lra).
  assert (H2 : 0 <= (b + x) * f) by (apply Qmult_le_0_compat; lra).
  assert (H3 : 0 <= b * (1 - f)) by (apply Qmult_le_0_compat; lra).
  lra.
Qed.

Lemma Qdiv_unit (a b : Q) : 0 <= a <= b -> 0 < b -> 0 <= a / b <= 1.
Proof.
  intros [Ha Hab] Hb. split.
  - apply Qle_shift_div_l; lra.
  - apply Qle_shift_div_r; lra.
Qed.

Lemma inject_Z_lt (a b : Z) : (a < b)%Z -> inject_Z a < inject_Z b.
Proof. intros H. now rewrite <- Zlt_Qlt. Qed.

Lemma inject_Z_le (a b : Z) : (a <= b)%Z -> inject_Z a <= inject_Z b.
Proof. intros H. now rewrite <- Zle_Qle. Qed.

Lemma inject_Z_bounds (i n : Z) :
  (0 <= i < n)%Z -> 0 <= inject_Z i /\ inject_Z i + 1 <= inject_Z n.
Proof.
  intros [H0 Hn]. split.
  - change 0 with (inject_Z 0). now apply inject_Z_le.
  - change 1 with (inject_Z 1). rewrite <- inject_Z_plus. apply inject_Z_le. lia.
Qed.

(** The fades never raise inside the loop and never amplify. *)
Lemma apply_fades_spec (num_samples i : Z) (sample b : Q) :
  (0 <= i < num_samples)%Z -> - b <= sample <= b ->
  exists out, GenerateSounds.apply_fades num_samples i sample = Ok out
    /\ - b <= out <= b.
Proof.
  intros Hi Hb. destruct (inject_Z_bounds i num_samples Hi) as [Hi0 Hin].
  unfold GenerateSounds.apply_fades.
  destruct (Qltb (num_samples * 0.8) i) eqn:E1.
  - apply Qltb_lt in E1. rewrite fdiv_ok by lra. cbn [rbind]. cbv zeta.
    assert (Hq : 0 <= (i - num_samples * 0.8) / (num_samples * 0.2) <= 1)
      by (apply Qdiv_unit; lra).
    assert (Hs1 : - b <= sample * (1.0 - (i - num_samples * 0.8) / (num_samples * 0.2)) <= b)
      by (apply scale_within; [lra | exact Hb]).
    destruct (Qltb i (num_samples * 0.05)) eqn:E2.
    + apply Qltb_lt in E2. rewrite fdiv_ok by lra. cbn [rbind].
      eexists. split; [reflexivity |]. apply scale_within; [| exact Hs1].
      apply Qdiv_unit; lra.
    + eexists. split; [reflexivity | exact Hs1].
  - cbn [rbind].
    destruct (Qltb i (num_samples * 0.05)) eqn:E2.
    + apply Qltb_lt in E2. rewrite fdiv_ok by lra. cbn [rbind].
      eexists. split; [reflexivity |]. apply scale_within; [| exact Hb].
      apply Qdiv_unit; lra.
    + eexists. split; [reflexivity | exact Hb].
Qed.

(** A loop whose body never raises, leaves the world alone and keeps [P]. *)
Lemma for_each_invariant {A S} (P : S -> Prop) (l : list A) (body : A -> S -> py S) :
  (forall x s w, In x l -> P s -> exists s', body x s w = (Ok s', w) /\ P s') ->
  forall s w, P s -> exists s', for_each l body s w = (Ok s', w) /\ P s'.
Proof.
  induction l as [| x l IH]; intros Hbody s w Hs.
  - exists s. split; [reflexivity | exact Hs].
  - destruct (Hbody x s w (or_introl eq_refl) Hs) as (s1 & E1 & H1).
    destruct (IH (fun y s' w' Hy => Hbody y s' w' (or_intror Hy)) s1 w H1) as (s2 & E2 & H2).
    exists s2. split; [| exact H2]. cbn [for_each]. erewrite bind_ok by exact E1. exact E2.
Qed.

Lemma volume_sin_within (volume x : Q) :
  0 <= volume -> - volume <= volume * sin x <= volume.
Proof.
  intros Hv. destruct (sin_bound x) as [Hlo Hhi].
  assert (H1 : 0 <= volume * (1 - sin x)) by (apply Qmult_le_0_compat; lra).
  assert (H2 : 0 <= volume * (1 + sin x)) by (apply Qmult_le_0_compat; lra).
  lra.
Qed.

(** A sample within [-1, 1] is stored within 16 bits. *)
Lemma py_int_scaled_fits (s : Q) : -1 <= s <= 1 -> int16 (py_int (s * 32767)).
Proof.
  intros Hs. pose proof (py_int_within (s * 32767) 32767) as H.
  change (inject_Z 32767) with 32767 in H. unfold int16.
  assert (Hb : - (32767) <= s * 32767 <= 32767) by lra.
  specialize (H Hb). lia.
Qed.

Lemma tone_samples_fit (frequency duration volume : Q) (w : world) :
  0 <= volume <= 1 ->
  exists samples,
    GenerateSounds.tone_samples frequency duration volume w = (Ok samples, w)
    /\ Forall int16 samples.
Proof.
  intros [Hv0 Hv1]. unfold GenerateSounds.tone_samples, for_range. cbv zeta.
  apply (for_each_invariant (Forall int16)); [| constructor].
  intros i samples w' Hi Hall. apply in_py_range in Hi.
  destruct (apply_fades_spec (py_int (float_mul sample_rate duration)) i
              (volume * sin (2 * pi * frequency * i / sample_rate)) volume Hi)
    as (out & E & Hout); [now apply volume_sin_within |].
  eexists. split.
  - erewrite bind_ok by (unfold lift; rewrite E; reflexivity). reflexivity.
  - apply Forall_app. split; [exact Hall |]. apply Forall_singleton.
    apply py_int_scaled_fits. lra.
Qed.

(** The sum of [k] sines at [volume] is within [k * volume]. *)
Lemma chord_sum_within (volume : Q) (i : Z) (frequencies : list Q) (acc b : Q) :
  0 <= volume -> - b <= acc <= b ->
  let total := fold_left (fun sample freq =>
      sample + volume * sin (2 * pi * freq * i / sample_rate)) frequencies acc in
  - (b + len frequencies * volume) <= total <= b + len frequencies * volume.
Proof.
  intros Hv. revert acc b. induction frequencies as [| f l IH]; intros acc b Hacc; cbn [fold_left].
  - unfold len. cbn [length]. change (inject_Z (Z.of_nat 0)) with 0. lra.
  - pose proof (volume_sin_within volume (2 * pi * f * i / sample_rate) Hv) as Hs.
    specialize (IH (acc + volume * sin (2 * pi * f * i / sample_rate)) (b + volume)).
    cbv zeta in IH.
    assert (Hlen : inject_Z (len (f :: l)) == inject_Z (len l) + 1).
    { unfold len. cbn [length]. rewrite Nat2Z.inj_succ, <- Z.add_1_r, inject_Z_plus.
      reflexivity. }
    cbv zeta. rewrite Hlen.
    assert (Hpre : - (b + volume) <= acc + volume * sin (2 * pi * f * i / sample_rate)
                   <= b + volume) by lra.
    specialize (IH Hpre). lra.
Qed.

Lemma chord_samples_fit (frequencies : list Q) (duration volume : Q) (w : world) :
  frequencies <> [] -> 0 <= volume <= 1 ->
  exists samples,
    GenerateSounds.chord_samples frequencies duration volume w = (Ok samples, w)
    /\ Forall int16 samples.
Proof.
  intros Hne [Hv0 Hv1]. unfold GenerateSounds.chord_samples, for_range. cbv zeta.
  apply (for_each_invariant (Forall int16)); [| constructor].
  intros i samples w' Hi Hall. apply in_py_range in Hi.
  set (total := fold_left _ frequencies 0).
  assert (Hlen : 0 < inject_Z (len frequencies)).
  { change 0 with (inject_Z 0). apply inject_Z_lt. unfold len.
    destruct frequencies; [congruence | cbn [length]; lia]. }
  assert (Htot : - (len frequencies * volume) <= total <= len frequencies * volume).
  { pose proof (chord_sum_within volume i frequencies 0 0 Hv0) as H. cbv zeta in H.
    fold total in H. assert (H0 : - 0 <= 0 <= 0) by lra. specialize (H H0). lra. }
  assert (Hmean : - volume <= total / len frequencies <= volume).
  { split.
    - apply Qle_shift_div_l; [exact Hlen | lra].
    - apply Qle_shift_div_r; [exact Hlen | lra]. }
  destruct (apply_fades_spec (py_int (float_mul sample_rate duration)) i
              (total / len frequencies) volume Hi Hmean) as (out & E & Hout).
  eexists. split.
  - erewrite bind_ok by (unfold lift; rewrite fdiv_ok by lra; reflexivity).
    erewrite bind_ok by (unfold lift; rewrite E; reflexivity). reflexivity.
  - apply Forall_app. split; [exact Hall |]. apply Forall_singleton.
    apply py_int_scaled_fits. lra.
Qed.

End Tones.

(** ** The melody of complete.wav *)

Section Melody.
Context {math : Math}.
Local Open Scope Q_scope.

Lemma melody_value_within (freq : Q) (tone_samples i : Z) :
  (0 <= i < tone_samples)%Z ->
  - (0.25) <= melody_value freq tone_samples i <= 0.25.
Proof.
  intros Hi. destruct (inject_Z_bounds i tone_samples Hi) as [Hi0 Hin].
  unfold melody_value. cbv zeta.
  pose proof (volume_sin_within 0.25 (2 * pi * freq * i / sample_rate)) as Hs.
  assert (Hq : 0 <= 0.25) by lra. specialize (Hs Hq). clear Hq.
  set (s0 := 0.25 * sin (2 * pi * freq * i / sample_rate)) in *.
  assert (H1 : - (0.25) <= (if Qltb i (tone_samples * 0.05)
                          then s0 * (i / (tone_samples * 0.05)) else s0) <= 0.25).
  { destruct (Qltb i (tone_samples * 0.05)) eqn:E; [| exact Hs].
    apply Qltb_lt in E. apply scale_within; [| exact Hs]. apply Qdiv_unit; lra. }
  set (s1 := if Qltb i (tone_samples * 0.05) then _ else _) in *.
  destruct (Qltb (tone_samples * 0.8) i) eqn:E; [| exact H1].
  apply Qltb_lt in E. apply scale_within; [| exact H1].
  assert (Hd : 0 <= (i - tone_samples * 0.8) / (tone_samples * 0.2) <= 1)
    by (apply Qdiv_unit; lra).
  lra.
Qed.

Lemma melody_tone_spec (num_samples : Z) (freq start_time tone_duration : Q)
    (samples : list Q) (w : world) :
  let start_sample := py_int (start_time * sample_rate) in
  let tone_samples := py_int (tone_duration * sample_rate) in
  (0 <= start_sample)%Z -> (0 <= tone_samples)%Z -> (num_samples <= len samples)%Z ->
  melody_so_far start_sample samples ->
  exists samples',
    GenerateSounds.melody_tone num_samples (freq, start_time, tone_duration) samples w
    = (Ok samples', w)
    /\ length samples' = length samples
    /\ melody_so_far (start_sample + tone_samples) samples'.
Proof.
  intros start_sample tone_samples Hstart Hcount Hlen Hinv.
  destruct (add_samples_at_pure num_samples start_sample tone_samples
              (melody_value freq tone_samples) samples w Hstart Hlen)
    as (samples' & Hrun & Hlen' & Hlook).
  exists samples'. split; [exact Hrun |]. split; [exact Hlen' |].
  intros k x Hk. rewrite Hlook in Hk. case_decide as Hwin.
  - destruct (samples !! k) as [x0 |] eqn:E0; [| discriminate].
    cbn in Hk. injection Hk as <-.
    destruct (Hinv k x0 E0) as [_ Hzero].
    assert (Hx0 : x0 == 0) by (apply Hzero; lia).
    pose proof (melody_value_within freq tone_samples (Z.of_nat k - start_sample)) as Hv.
    assert (Hi : (0 <= Z.of_nat k - start_sample < tone_samples)%Z) by lia.
    specialize (Hv Hi). split.
    + rewrite Hx0. lra.
    + intros Hge. lia.
  - destruct (Hinv k x Hk) as [Hb Hzero]. split; [exact Hb |].
    intros Hge. apply Hzero. lia.
Qed.

Lemma melody_so_far_zeros (n : Z) : melody_so_far 0 (zeros n).
Proof.
  intros k x Hk. unfold zeros, py_repeat in Hk.
  apply lookup_replicate in Hk as [-> _]. split; [lra | reflexivity].
Qed.

Lemma melody_so_far_within (start : Z) (samples : list Q) :
  melody_so_far start samples -> Forall (fun s => - (0.25) <= s <= 0.25) samples.
Proof.
  intros Hinv. apply Forall_lookup_2. intros k x Hk. exact (proj1 (Hinv k x Hk)).
Qed.

(** The three tones follow one another, so the buffer of complete.wav never
    leaves the amplitude of one tone. *)
Lemma complete_samples_within (w : world) :
  exists samples,
    GenerateSounds.complete_samples w = (Ok samples, w)
    /\ len samples = 26460%Z
    /\ Forall (fun s => - (0.25) <= s <= 0.25) samples.
Proof.
  unfold GenerateSounds.complete_samples, GenerateSounds.tones. cbv zeta.
  assert (Hn : py_int (sample_rate * 0.6) = 26460%Z) by (vm_compute; reflexivity).
  assert (Hs1 : py_int (0.0 * sample_rate) = 0%Z) by (vm_compute; reflexivity).
  assert (Hs2 : py_int (0.15 * sample_rate) = 6615%Z) by (vm_compute; reflexivity).
  assert (Hs3 : py_int (0.3 * sample_rate) = 13230%Z) by (vm_compute; reflexivity).
  rewrite Hn. set (s0 := zeros 26460).
  assert (Hl0 : len s0 = 26460%Z) by (unfold s0; rewrite len_zeros; lia).
  pose proof (melody_so_far_zeros 26460) as H0. fold s0 in H0.
  destruct (melody_tone_spec 26460 523.25 0.0 0.15 s0 w) as (s1 & E1 & L1 & H1).
  { rewrite Hs1. lia. } { rewrite Hs2. lia. } { lia. } { rewrite Hs1. exact H0. }
  rewrite Hs1, Hs2 in H1. change (0 + 6615)%Z with 6615%Z in H1.
  destruct (melody_tone_spec 26460 659.25 0.15 0.15 s1 w) as (s2 & E2 & L2 & H2).
  { rewrite Hs2. lia. } { rewrite Hs2. lia. } { unfold len in *. lia. }
  { rewrite Hs2. exact H1. }
  rewrite Hs2 in H2. change (6615 + 6615)%Z with 13230%Z in H2.
  destruct (melody_tone_spec 26460 783.99 0.3 0.3 s2 w) as (s3 & E3 & L3 & H3).
  { rewrite Hs3. lia. } { rewrite Hs3. lia. } { unfold len in *. lia. }
  { rewrite Hs3. exact H2. }
  exists s3. split; [| split].
  - cbn [for_each]. erewrite bind_ok by exact E1. erewrite bind_ok by exact E2.
    erewrite bind_ok by exact E3. reflexivity.
  - unfold len in *. lia.
  - exact (melody_so_far_within _ _ H3).
Qed.

End Melody.

(** ** The keyboard clicks of generate-sounds.py *)

Section KeyboardLemmas.
Context {math : Math}.
Local Open Scope Q_scope.

Lemma unit_square (a : Q) : 0 <= a <= 1 -> 0 <= a * a <= 1.
Proof.
  intros [H0 H1].
  assert (Ha : 0 <= a * a) by (apply Qmult_le_0_compat; lra).
  assert (Hb : 0 <= a * (1 - a)) by (apply Qmult_le_0_compat; lra).
  lra.
Qed.

Lemma keyboard_value_within (volume jitter : Q) (i : Z) (r : Q) :
  0 <= volume -> 0 <= r < 1 -> (0 <= i < 1102)%Z ->
  - (0.76875 * volume) <= keyboard_value volume jitter i r <= 0.76875 * volume.
Proof.
  intros Hv [Hr0 Hr1] Hi. destruct (inject_Z_bounds i 1102 Hi) as [Hi0 Hin].
  change (inject_Z 1102) with 1102 in Hin.
  unfold keyboard_value. cbv zeta.
  change (py_int (0.025 * sample_rate)) with 1102%Z.
  change (inject_Z 1102) with 1102.
  set (frequencies := [_; _; _]).
  pose proof (chord_sum_within volume i frequencies 0 0 Hv) as Hsum. cbv zeta in Hsum.
  assert (H00 : - 0 <= 0 <= 0) by lra. specialize (Hsum H00). clear H00.
  set (total := fold_left _ frequencies 0) in *.
  change (inject_Z (len frequencies)) with 3 in Hsum.
  change (inject_Z (len frequencies + 1)) with 4.
  assert (Hrv : 0 <= r * volume) by (apply Qmult_le_0_compat; lra).
  assert (Hrv' : 0 <= (1 - r) * volume) by (apply Qmult_le_0_compat; lra).
  set (b := 0.76875 * volume).
  assert (H1 : - b <= (total + (r - 0.5) * volume * 0.15) / 4 <= b).
  { unfold b. split.
    - apply Qle_shift_div_l; lra.
    - apply Qle_shift_div_r; lra. }
  set (s1 := (total + (r - 0.5) * volume * 0.15) / 4) in *.
  assert (H2 : - b <= (if Qltb i (1102 * 0.1)
                       then s1 * (i / (1102 * 0.1) * (i / (1102 * 0.1))) else s1) <= b).
  { destruct (Qltb i (1102 * 0.1)) eqn:E; [| exact H1].
    apply Qltb_lt in E. apply scale_within; [| exact H1].
    apply unit_square. apply Qdiv_unit; lra. }
  set (s2 := if Qltb i (1102 * 0.1) then _ else _) in *.
  destruct (Qltb (1102 * 0.3) i) eqn:E; [| exact H2].
  apply Qltb_lt in E. apply scale_within; [| exact H2].
  assert (Hd : 0 <= (i - 1102 * 0.3) / (1102 * 0.7) <= 1) by (apply Qdiv_unit; lra).
  apply unit_square in Hd. lra.
Qed.

Lemma keyboard_start (click_num : Z) :
  py_int (click_num * (0.025 + 0.035) * sample_rate) = (2646 * click_num)%Z.
Proof.
  rewrite <- (py_int_inject_Z (2646 * click_num)). apply py_int_proper.
  rewrite inject_Z_mult. change (inject_Z sample_rate) with 44100.
  change (inject_Z 2646) with 2646. ring.
Qed.

Lemma Qfloor_half (z : Z) : Qfloor (inject_Z z + (1 # 2)) = z.
Proof.
  pose proof (Qfloor_le (inject_Z z + (1 # 2))) as Hlo.
  pose proof (Qlt_floor (inject_Z z + (1 # 2))) as Hhi.
  rewrite inject_Z_plus in Hhi. change (inject_Z 1) with 1 in Hhi.
  set (f := Qfloor (inject_Z z + (1 # 2))) in *.
  assert (H1 : inject_Z f < inject_Z (z + 1)).
  { rewrite inject_Z_plus. change (inject_Z 1) with 1. lra. }
  assert (H2 : inject_Z (z - 1) < inject_Z f).
  { unfold Z.sub. rewrite inject_Z_plus. change (inject_Z (- (1))) with (- (1)). lra. }
  rewrite <- Zlt_Qlt in H1, H2. lia.
Qed.

Lemma keyboard_num_samples (num_clicks : Z) :
  (1 <= num_clicks)%Z ->
  py_int (sample_rate * GenerateSounds.keyboard_total_duration num_clicks)
  = (2646 * num_clicks - 1544)%Z.
Proof.
  intros Hn. unfold GenerateSounds.keyboard_total_duration. cbv zeta.
  assert (E : sample_rate * (0.025 * num_clicks + 0.035 * (num_clicks - 1)%Z)
              == inject_Z (2646 * num_clicks - 1544) + (1 # 2)).
  { unfold Z.sub. rewrite !inject_Z_plus, inject_Z_mult.
    change (inject_Z sample_rate) with 44100. change (inject_Z 2646) with 2646.
    change (inject_Z (- (1))) with (- (1)). change (inject_Z (- (1544))) with (- (1544)).
    ring. }
  rewrite (py_int_proper _ _ E).
  assert (Hq : 0 <= inject_Z (2646 * num_clicks - 1544)).
  { change 0 with (inject_Z 0). rewrite <- Zle_Qle. lia. }
  rewrite py_int_nonneg by lra. apply Qfloor_half.
Qed.

(** One click, at a start inside the buffer. *)
Lemma keyboard_click_spec (num_samples : Z) (volume : Q) (click_num : Z)
    (samples : list Q) (w : world) :
  (0 <= click_num)%Z -> (num_samples <= len samples)%Z ->
  let start := (2646 * click_num)%Z in
  let jitter := (drawn w - 0.5) * 0.1 in
  exists samples',
    GenerateSounds.keyboard_click num_samples volume click_num samples w
    = (Ok samples',
       Nat.iter (Z.to_nat (Z.min 1102 (num_samples - start))) draw (draw w))
    /\ length samples' = length samples
    /\ forall k : nat,
         samples' !! k =
         if decide ((start <= Z.of_nat k < start + 1102)%Z /\ (Z.of_nat k < num_samples)%Z)
         then (fun x => Qplus x (keyboard_value volume jitter (Z.of_nat k - start)
                   (drawn (Nat.iter (Z.to_nat (Z.of_nat k - start)) draw (draw w)))))
                <$> samples !! k
         else samples !! k.
Proof.
  intros Hc Hlen start jitter.
  unfold GenerateSounds.keyboard_click. cbv zeta.
  erewrite bind_ok by apply random_jitter_eq. fold jitter.
  rewrite keyboard_start. fold start.
  change (py_int (0.025 * sample_rate)) with 1102%Z.
  apply (add_samples_at_spec num_samples start 1102 _
           (fun i w' => keyboard_value volume jitter i (drawn w')) draw samples (draw w)).
  - intros i w'. erewrite bind_ok by apply random_random_eq. reflexivity.
  - unfold start. lia.
  - exact Hlen.
Qed.

Lemma iter_draw_add (p q : nat) (w : world) :
  Nat.iter p draw (Nat.iter q draw w) = Nat.iter (p + q) draw w.
Proof. induction p as [| p IH]; simpl; [reflexivity | now rewrite IH]. Qed.

Lemma quiet_from_zeros (bound : Q) (n : Z) : 0 <= bound -> quiet_from bound 0 (zeros n).
Proof.
  intros Hb k x Hk. unfold zeros, py_repeat in Hk.
  apply lookup_replicate in Hk as [-> _]. split; [lra | reflexivity].
Qed.

Lemma quiet_from_within (bound : Q) (start : Z) (samples : list Q) :
  quiet_from bound start samples -> Forall (fun s => - bound <= s <= bound) samples.
Proof.
  intros Hinv. apply Forall_lookup_2. intros k x Hk. exact (proj1 (Hinv k x Hk)).
Qed.

(** The first [k] clicks: each has its 1102 samples inside the buffer and
    draws 1103 numbers, and the clicks do not overlap. *)
Lemma keyboard_clicks_loop (num_clicks : Z) (volume : Q) (w : world) (k : nat) :
  (Z.of_nat k <= num_clicks)%Z ->
  let num_samples := (2646 * num_clicks - 1544)%Z in
  exists samples,
    for_range (Z.of_nat k) (GenerateSounds.keyboard_click num_samples volume)
      (zeros num_samples) w
    = (Ok samples, Nat.iter (k * 1103) draw w)
    /\ length samples = length (zeros num_samples)
    /\ (0 <= volume -> quiet_from (0.76875 * volume) (2646 * Z.of_nat k) samples).
Proof.
  intros Hk num_samples. induction k as [| k IH].
  - exists (zeros num_samples). split; [reflexivity |]. split; [reflexivity |].
    intros Hv. apply quiet_from_zeros. lra.
  - destruct IH as (s1 & Hrun & Hl1 & Hq1); [lia |].
    unfold for_range in *. rewrite Nat2Z.inj_succ, <- Z.add_1_r.
    rewrite py_range_succ by lia. rewrite for_each_app.
    erewrite bind_ok by exact Hrun. cbn [for_each].
    destruct (keyboard_click_spec num_samples volume (Z.of_nat k) s1
                (Nat.iter (k * 1103) draw w)) as (s2 & Hone & Hl2 & Hlook).
    { lia. }
    { unfold len. rewrite Hl1. fold (len (zeros num_samples)). rewrite len_zeros. lia. }
    exists s2. split; [| split].
    + erewrite bind_ok by exact Hone. unfold ret. f_equal.
      replace (Z.to_nat (Z.min 1102 (num_samples - 2646 * Z.of_nat k))) with 1102%nat
        by (unfold num_samples; lia).
      change (draw (Nat.iter (k * 1103) draw w))
        with (Nat.iter 1 draw (Nat.iter (k * 1103) draw w)).
      rewrite !iter_draw_add.
      replace (1102 + (1 + k * 1103))%nat with (S k * 1103)%nat by lia. reflexivity.
    + congruence.
    + intros Hv idx x Hx. specialize (Hq1 Hv). rewrite Hlook in Hx.
      case_decide as Hwin.
      * destruct (s1 !! idx) as [x0 |] eqn:E0; [| discriminate].
        cbn in Hx. injection Hx as <-.
        destruct (Hq1 idx x0 E0) as [_ Hzero].
        assert (Hx0 : x0 == 0) by (apply Hzero; lia).
        split; [| intros Hge; lia].
        rewrite Hx0.
        pose proof (keyboard_value_within volume
                      ((drawn (Nat.iter (k * 1103) draw w) - 0.5) * 0.1)
                      (Z.of_nat idx - 2646 * Z.of_nat k)
                      (drawn (Nat.iter (Z.to_nat (Z.of_nat idx - 2646 * Z.of_nat k)) draw
                                (draw (Nat.iter (k * 1103) draw w)))) Hv (drawn_bound _))
          as Hb.
        assert (Hi : (0 <= Z.of_nat idx - 2646 * Z.of_nat k < 1102)%Z) by lia.
        specialize (Hb Hi). lra.
      * destruct (Hq1 idx x Hx) as [Hb Hzero]. split; [exact Hb |].
        intros Hge. apply Hzero. lia.
Qed.

Lemma keyboard_samples_spec (num_clicks : Z) (volume : Q) (w : world) :
  (1 <= num_clicks)%Z ->
  let num_samples :=
    py_int (sample_rate * GenerateSounds.keyboard_total_duration num_clicks) in
  exists samples,
    for_range num_clicks (GenerateSounds.keyboard_click num_samples volume)
      (zeros num_samples) w
    = (Ok samples, Nat.iter (Z.to_nat num_clicks * 1103) draw w)
    /\ length samples = Z.to_nat (2646 * num_clicks - 1544)
    /\ (0 <= volume -> Forall (fun s => - (0.76875 * volume) <= s <= 0.76875 * volume) samples).
Proof.
  intros Hn num_samples. unfold num_samples. rewrite keyboard_num_samples by exact Hn.
  destruct (keyboard_clicks_loop num_clicks volume w (Z.to_nat num_clicks))
    as (samples & Hrun & Hlen & Hq); [lia |].
  rewrite Z2Nat.id in Hrun by lia.
  exists samples. split; [exact Hrun |]. split.
  - rewrite Hlen. unfold zeros, py_repeat. apply length_replicate.
  - intros Hv. exact (quiet_from_within _ _ _ (Hq Hv)).
Qed.

End KeyboardLemmas.

(** ** Tones and chords: the sample loops *)

Section ToneLemmas.
Context {math : Math}.

(** A loop that appends one value per round and leaves the world alone. *)
Lemma for_each_appends {A B} (P : B -> Prop) (l : list A)
    (body : A -> list B -> py (list B)) :
  (forall x s w, In x l -> exists y, body x s w = (Ok (s ++ [y]), w) /\ P y) ->
  forall s w, exists ys,
    for_each l body s w = (Ok (s ++ ys), w) /\ length ys = length l /\ Forall P ys.
Proof.
  induction l as [| x l IH]; intros Hbody s w.
  - exists []. rewrite app_nil_r. split; [reflexivity |]. split; [reflexivity | constructor].
  - destruct (Hbody x s w (or_introl eq_refl)) as (y & E & Hy).
    destruct (IH (fun x' s' w' Hx' => Hbody x' s' w' (or_intror Hx')) (s ++ [y]) w)
      as (ys & E2 & Hl & Hall).
    exists (y :: ys). split; [| split].
    + cbn [for_each]. erewrite bind_ok by exact E. rewrite E2, <- app_assoc. reflexivity.
    + cbn [length]. now rewrite Hl.
    + constructor; assumption.
Qed.

Lemma py_int_scaled_within (s volume : Q) :
  (- volume <= s <= volume)%Q -> Z.abs (py_int (s * 32767)) <= py_int (volume * 32767).
Proof.
  intros [Hlo Hhi].
  destruct (Qlt_le_dec (s * 32767) 0) as [Hn | Hp].
  - assert (Hneg : (s * 32767 <= 0)%Q) by lra.
    pose proof (py_int_sign_nonpos _ Hneg).
    rewrite Z.abs_neq by lia. rewrite <- py_int_opp. apply py_int_mono. lra.
  - pose proof (py_int_sign_nonneg _ Hp).
    rewrite Z.abs_eq by lia. apply py_int_mono. lra.
Qed.

Lemma within_volume_fits (volume : Q) (q : Z) :
  (0 <= volume <= 1)%Q -> Z.abs q <= py_int (volume * 32767) -> int16 q.
Proof.
  intros Hv Hq.
  assert (H : py_int (volume * 32767) <= py_int 32767) by (apply py_int_mono; lra).
  change (py_int 32767) with 32767 in H. unfold int16. lia.
Qed.

Lemma tone_samples_run (frequency duration volume : Q) (w : world) :
  (0 <= volume)%Q ->
  exists samples,
    GenerateSounds.tone_samples frequency duration volume w = (Ok samples, w)
    /\ length samples = Z.to_nat (py_int (float_mul sample_rate duration))
    /\ Forall (fun q => Z.abs q <= py_int (volume * 32767)) samples.
Proof.
  intros Hv0. unfold GenerateSounds.tone_samples, for_range. cbv zeta.
  edestruct (for_each_appends (fun q => Z.abs q <= py_int (volume * 32767))
               (py_range (py_int (float_mul sample_rate duration)))) as (ys & E & Hl & Hall);
    [| exists ys; split; [exact E |]; split; [now rewrite Hl, length_py_range | exact Hall]].
  intros i samples w' Hi. apply in_py_range in Hi.
  destruct (apply_fades_spec (py_int (float_mul sample_rate duration)) i
              (volume * sin (2 * pi * frequency * i / sample_rate)) volume Hi)
    as (out & E & Hout); [now apply volume_sin_within |].
  eexists. split.
  - erewrite bind_ok by (unfold lift; rewrite E; reflexivity). reflexivity.
  - now apply py_int_scaled_within.
Qed.

Lemma chord_samples_run (frequencies : list Q) (duration volume : Q) (w : world) :
  frequencies <> [] -> (0 <= volume)%Q ->
  exists samples,
    GenerateSounds.chord_samples frequencies duration volume w = (Ok samples, w)
    /\ length samples = Z.to_nat (py_int (float_mul sample_rate duration))
    /\ Forall (fun q => Z.abs q <= py_int (volume * 32767)) samples.
Proof.
  intros Hne Hv0. unfold GenerateSounds.chord_samples, for_range. cbv zeta.
  edestruct (for_each_appends (fun q => Z.abs q <= py_int (volume * 32767))
               (py_range (py_int (float_mul sample_rate duration)))) as (ys & E & Hl & Hall);
    [| exists ys; split; [exact E |]; split; [now rewrite Hl, length_py_range | exact Hall]].
  intros i samples w' Hi. apply in_py_range in Hi. cbv beta.
  set (total := fold_left _ frequencies 0%Q).
  assert (Hlen : (0 < inject_Z (len frequencies))%Q).
  { change 0%Q with (inject_Z 0). apply inject_Z_lt. unfold len.
    destruct frequencies; [congruence | cbn [length]; lia]. }
  assert (Htot : (- (len frequencies * volume) <= total <= len frequencies * volume)%Q).
  { pose proof (chord_sum_within volume i frequencies 0 0 Hv0) as H. cbv zeta in H.
    fold total in H. assert (H0 : (- 0 <= 0 <= 0)%Q) by lra. specialize (H H0). lra. }
  assert (Hmean : (- volume <= total / len frequencies <= volume)%Q).
  { split.
    - apply Qle_shift_div_l; [exact Hlen | lra].
    - apply Qle_shift_div_r; [exact Hlen | lra]. }
  destruct (apply_fades_spec (py_int (float_mul sample_rate duration)) i
              (total / len frequencies) volume Hi Hmean) as (out & E & Hout).
  eexists. split.
  - erewrite bind_ok by (unfold lift; rewrite fdiv_ok by lra; reflexivity).
    erewrite bind_ok by (unfold lift; rewrite E; reflexivity). reflexivity.
  - now apply py_int_scaled_within.
Qed.

End ToneLemmas.

(** ** What the writer stores *)

Section Stored.
Local Open Scope Q_scope.

Lemma spec_clamp_mono (x y : Q) : x <= y -> spec_clamp x (-1) 1 <= spec_clamp y (-1) 1.
Proof.
  intros Hxy. unfold spec_clamp.
  destruct (Qltb x (-1)) eqn:E1; destruct (Qltb y (-1)) eqn:E2;
    destruct (Qltb 1 x) eqn:E3; destruct (Qltb 1 y) eqn:E4;
    repeat match goal with
    | H : Qltb _ _ = true |- _ => apply Qltb_lt in H
    | H : Qltb _ _ = false |- _ => apply Qltb_ge in H
    end; lra.
Qed.

Lemma clamp_to_int16_mono (x y : Q) : x <= y -> (clamp_to_int16 x <= clamp_to_int16 y)%Z.
Proof.
  intros Hxy. rewrite !clamp_to_int16_spec. apply py_int_mono.
  pose proof (spec_clamp_mono x y Hxy). lra.
Qed.

Lemma clamp_to_int16_proper (x y : Q) : x == y -> clamp_to_int16 x = clamp_to_int16 y.
Proof.
  intros E. apply Z.le_antisymm; apply clamp_to_int16_mono; rewrite E; lra.
Qed.

Lemma clamp_to_int16_opp (x : Q) : clamp_to_int16 (- x) = (- clamp_to_int16 x)%Z.
Proof.
  rewrite !clamp_to_int16_spec, <- py_int_opp. apply py_int_proper.
  unfold spec_clamp.
  destruct (Qltb (- x) (-1)) eqn:E1; destruct (Qltb x (-1)) eqn:E2;
    destruct (Qltb 1 (- x)) eqn:E3; destruct (Qltb 1 x) eqn:E4;
    repeat match goal with
    | H : Qltb _ _ = true |- _ => apply Qltb_lt in H
    | H : Qltb _ _ = false |- _ => apply Qltb_ge in H
    end; try lra; ring.
Qed.

(** The magnitude of a stored value is the stored value of the magnitude. *)
Lemma clamp_to_int16_abs (x : Q) : Z.abs (clamp_to_int16 x) = clamp_to_int16 (Qabs x).
Proof.
  destruct (Qlt_le_dec x 0) as [Hn | Hp].
  - assert (Hx : x <= 0) by lra.
    rewrite (clamp_to_int16_proper (Qabs x) (- x)) by (apply Qabs_neg; exact Hx).
    rewrite clamp_to_int16_opp.
    pose proof (clamp_to_int16_mono x 0 Hx) as H.
    change (clamp_to_int16 0) with 0%Z in H. lia.
  - rewrite (clamp_to_int16_proper (Qabs x) x) by (apply Qabs_pos; exact Hp).
    pose proof (clamp_to_int16_mono 0 x Hp) as H.
    change (clamp_to_int16 0) with 0%Z in H. lia.
Qed.

End Stored.

(** ** Events add to the buffer *)

Section Mixing.
Context {math : Math}.
Local Open Scope Q_scope.

Lemma in_window_iff (start count n k : Z) :
  in_window start count n k = true <-> (start <= k < start + count /\ k < n)%Z.
Proof. unfold in_window. rewrite !andb_true_iff, Z.leb_le, !Z.ltb_lt. tauto. Qed.

Lemma contribution_in (start count n : Z) (value : Z -> Q) (k : Z) :
  (start <= k < start + count)%Z -> (k < n)%Z ->
  contribution start count n value k = value (k - start)%Z.
Proof.
  intros H1 H2. unfold contribution.
  now rewrite (proj2 (in_window_iff start count n k)) by lia.
Qed.

Lemma contribution_out (start count n : Z) (value : Z -> Q) (k : Z) :
  ~ ((start <= k < start + count)%Z /\ (k < n)%Z) ->
  contribution start count n value k = 0.
Proof.
  intros H. unfold contribution.
  destruct (in_window start count n k) eqn:E; [| reflexivity].
  apply in_window_iff in E. tauto.
Qed.

(** Every event adds its value inside its window and nothing outside. *)
Lemma adds_event (n start count : Z) (value : Z -> py Q) (h : Z -> world -> Q)
    (adv : world -> world) :
  advances value h adv -> (0 <= start)%Z ->
  adds (add_samples_at n start count value) n
    (Nat.iter (Z.to_nat (Z.min count (n - start))) adv)
    (fun w k => contribution start count n
                  (fun i => h i (Nat.iter (Z.to_nat i) adv w)) k).
Proof.
  intros Hadv Hs samples w Hlen.
  destruct (add_samples_at_spec n start count value h adv samples w Hadv Hs Hlen)
    as (s' & Hrun & Hl & Hlook).
  exists s'. split; [exact Hrun |]. split; [exact Hl |].
  intros k x Hk. rewrite Hlook, Hk. case_decide as Hw.
  - rewrite contribution_in by lia. cbn. eexists. split; reflexivity.
  - rewrite contribution_out by exact Hw. eexists. split; [reflexivity | ring].
Qed.

Lemma adds_plain (n count : Z) (value : Z -> py Q) (h : Z -> world -> Q)
    (adv : world -> world) :
  advances value h adv -> (count <= n)%Z ->
  adds (add_samples count value) n
    (Nat.iter (Z.to_nat count) adv)
    (fun w k => contribution 0 count n
                  (fun i => h i (Nat.iter (Z.to_nat i) adv w)) k).
Proof.
  intros Hadv Hc samples w Hlen.
  rewrite (add_samples_as_at count value samples w n Hc).
  destruct (adds_event n 0 count value h adv Hadv ltac:(lia) samples w Hlen)
    as (s' & Hrun & Hl & Hk).
  exists s'. split; [| split; [exact Hl | exact Hk]].
  rewrite Hrun. do 2 f_equal. lia.
Qed.

Lemma adds_ext (c : list Q -> py (list Q)) (n : Z) (adv : world -> world)
    (f g : world -> Z -> Q) :
  adds c n adv f -> (forall w k, f w k == g w k) -> adds c n adv g.
Proof.
  intros H E samples w Hlen. destruct (H samples w Hlen) as (s' & Hrun & Hl & Hk).
  exists s'. split; [exact Hrun |]. split; [exact Hl |].
  intros k x Hx. destruct (Hk k x Hx) as (x' & Hx' & Ex).
  exists x'. split; [exact Hx' |]. rewrite Ex, E. reflexivity.
Qed.

Lemma adds_seq (c1 c2 : list Q -> py (list Q)) (n : Z) (adv1 adv2 : world -> world)
    (f1 f2 : world -> Z -> Q) :
  adds c1 n adv1 f1 -> adds c2 n adv2 f2 ->
  adds (fun samples => s <- c1 samples ;; c2 s) n (fun w => adv2 (adv1 w))
       (fun w k => f1 w k + f2 (adv1 w) k).
Proof.
  intros H1 H2 samples w Hlen.
  destruct (H1 samples w Hlen) as (s1 & E1 & L1 & K1).
  destruct (H2 s1 (adv1 w)) as (s2 & E2 & L2 & K2); [unfold len in *; lia |].
  exists s2. split; [erewrite bind_ok by exact E1; exact E2 |].
  split; [congruence |].
  intros k x Hx. destruct (K1 k x Hx) as (x1 & Hx1 & Ex1).
  destruct (K2 k x1 Hx1) as (x2 & Hx2 & Ex2).
  exists x2. split; [exact Hx2 |]. rewrite Ex2, Ex1. ring.
Qed.

Lemma adds_seeded (c : list Q -> py (list Q)) (n seed : Z) (adv : world -> world)
    (f : world -> Z -> Q) :
  adds c n adv f ->
  adds (fun samples => random_seed seed ;;; c samples) n
       (fun w => adv (seeded seed w)) (fun w k => f (seeded seed w) k).
Proof.
  intros H samples w Hlen. destruct (H samples (seeded seed w) Hlen) as (s & E & L & K).
  exists s. split; [erewrite bind_ok by apply random_seed_eq; exact E |].
  split; [exact L | exact K].
Qed.


(** An event whose values do not touch the world. *)
Lemma adds_pure_event (n start count : Z) (v : Z -> Q) :
  (0 <= start)%Z ->
  adds (add_samples_at n start count (fun i => ret (v i))) n (fun w => w)
       (fun _ k => contribution start count n v k).
Proof.
  intros Hs samples w Hlen.
  destruct (adds_event n start count _ _ _ (advances_ret v) Hs samples w Hlen)
    as (s' & Hrun & Hl & Hk).
  rewrite iter_id in Hrun. exists s'. auto.
Qed.

Lemma adds_pure_plain (n count : Z) (v : Z -> Q) :
  (count <= n)%Z ->
  adds (add_samples count (fun i => ret (v i))) n (fun w => w)
       (fun _ k => contribution 0 count n v k).
Proof.
  intros Hc samples w Hlen.
  destruct (adds_plain n count _ _ _ (advances_ret v) Hc samples w Hlen)
    as (s' & Hrun & Hl & Hk).
  rewrite iter_id in Hrun. exists s'. auto.
Qed.


Lemma adds_noise_plain (n count : Z) (g : Z -> Q -> Q) :
  (count <= n)%Z ->
  adds (add_samples count (fun i => r <- random_random ;; ret (g i r))) n
       (Nat.iter (Z.to_nat count) draw)
       (fun w k => contribution 0 count n
                     (fun i => g i (drawn (Nat.iter (Z.to_nat i) draw w))) k).
Proof. intros Hc. exact (adds_plain n count _ _ _ (advances_random g) Hc). Qed.

(** What a loop that adds leaves of a silent buffer. *)
Lemma adds_zeros (c : list Q -> py (list Q)) (n : Z) (adv : world -> world)
    (f : world -> Z -> Q) (w : world) :
  adds c n adv f -> (0 <= n)%Z ->
  exists samples,
    c (zeros n) w = (Ok samples, adv w)
    /\ len samples = n
    /\ forall k : nat, (Z.of_nat k < n)%Z ->
         exists x, samples !! k = Some x /\ x == f w (Z.of_nat k).
Proof.
  intros H Hn. destruct (H (zeros n) w) as (s & E & L & K); [rewrite len_zeros; lia |].
  exists s. split; [exact E |]. split.
  - unfold len. rewrite L. fold (len (zeros n)). rewrite len_zeros. lia.
  - intros k Hk.
    destruct (K k 0) as (x & Hx & Ex).
    { unfold zeros, py_repeat. apply lookup_replicate_2. lia. }
    exists x. split; [exact Hx |]. rewrite Ex. ring.
Qed.

End Mixing.

(** ** The components of the clicks are events *)

Section Partials.
Context {math : Math}.
Local Open Scope Q_scope.

Lemma sin_first_partial (freq t : Q) :
  sin (2 * pi * freq * 1 * t) == sin (2 * pi * freq * t).
Proof. apply sin_proper. ring. Qed.

Lemma contribution_ext (start count n : Z) (v v' : Z -> Q) (k : Z) :
  (forall i, v i == v' i) ->
  contribution start count n v k == contribution start count n v' k.
Proof.
  intros E. unfold contribution. destruct (in_window start count n k); [apply E | reflexivity].
Qed.

Lemma adds_adv (c : list Q -> py (list Q)) (n : Z) (adv adv' : world -> world)
    (f : world -> Z -> Q) :
  adds c n adv f -> (forall w, adv w = adv' w) -> adds c n adv' f.
Proof.
  intros H E samples w Hlen. destruct (H samples w Hlen) as (s' & Hrun & Hl & Hk).
  exists s'. rewrite <- E. auto.
Qed.

End Partials.

Ltac harmonic_value :=
  unfold harmonic, partials_sum; cbn [fold_right fst snd]; cbv zeta;
  rewrite sin_first_partial; ring.

Section Components.
Context {math : Math}.
Local Open Scope Q_scope.

(** *** add-mechanical-sound.py *)

Lemma mechanical_click_component_adds :
  adds (AddMechanicalSound.click_component 2646) 2646 (fun w => w)
       (fun _ k =>
          contribution 0 352 2646 (harmonic 4500 [(1, 1); (2, 0.5); (3, 0.3)] 180 0.6) k).
Proof.
  unfold AddMechanicalSound.click_component. cbv zeta.
  eapply adds_ext; [apply adds_pure_plain; vm_compute; discriminate |].
  intros w k. cbv beta. apply contribution_ext. intros i. harmonic_value.
Qed.

Lemma mechanical_clack_component_adds :
  adds (AddMechanicalSound.clack_component 2646) 2646 (fun w => w)
       (fun _ k =>
          contribution 132 661 2646 (harmonic 2000 [(1, 1); (1.5, 0.4)] 100 0.5) k).
Proof.
  unfold AddMechanicalSound.clack_component. cbv zeta.
  eapply adds_ext; [apply adds_pure_event; vm_compute; discriminate |].
  intros w k. cbv beta. apply contribution_ext. intros i. harmonic_value.
Qed.

Lemma mechanical_thock_component_adds :
  adds (AddMechanicalSound.thock_component 2646) 2646 (fun w => w)
       (fun _ k =>
          contribution 220 1323 2646 (harmonic 400 [(1, 1); (2, 0.3)] 50 0.4) k).
Proof.
  unfold AddMechanicalSound.thock_component. cbv zeta.
  eapply adds_ext; [apply adds_pure_event; vm_compute; discriminate |].
  intros w k. cbv beta. apply contribution_ext. intros i. harmonic_value.
Qed.

Lemma mechanical_noise_component_adds :
  adds (AddMechanicalSound.noise_component 2646) 2646
       (fun w => Nat.iter 529 draw (seeded 42 w))
       (fun w k =>
          contribution 0 529 2646
            (fun i => noise 150 0.15 i
                        (drawn (Nat.iter (Z.to_nat i) draw (seeded 42 w)))) k).
Proof.
  unfold AddMechanicalSound.noise_component. cbv zeta.
  eapply adds_adv; [eapply adds_ext |].
  - apply adds_seeded. apply adds_noise_plain. vm_compute. discriminate.
  - intros w k. cbv beta. reflexivity.
  - intros w. reflexivity.
Qed.

(** The mechanical click before the final pass: the sum of its four
    components. *)
Lemma mechanical_click_adds :
  adds (fun samples =>
          s <- AddMechanicalSound.click_component 2646 samples ;;
          s <- AddMechanicalSound.clack_component 2646 s ;;
          s <- AddMechanicalSound.thock_component 2646 s ;;
          AddMechanicalSound.noise_component 2646 s) 2646
       (fun w => Nat.iter 529 draw (seeded 42 w))
       (fun w k =>
          contribution 0 352 2646 (harmonic 4500 [(1, 1); (2, 0.5); (3, 0.3)] 180 0.6) k
          + contribution 132 661 2646 (harmonic 2000 [(1, 1); (1.5, 0.4)] 100 0.5) k
          + contribution 220 1323 2646 (harmonic 400 [(1, 1); (2, 0.3)] 50 0.4) k
          + contribution 0 529 2646
              (fun i => noise 150 0.15 i
                          (drawn (Nat.iter (Z.to_nat i) draw (seeded 42 w)))) k).
Proof.
  eapply adds_adv; [eapply adds_ext |].
  - eapply adds_seq; [apply mechanical_click_component_adds |].
    eapply adds_seq; [apply mechanical_clack_component_adds |].
    eapply adds_seq; [apply mechanical_thock_component_adds |].
    apply mechanical_noise_component_adds.
  - intros w k. cbv beta. ring.
  - intros w. reflexivity.
Qed.

(** *** add-thock-sounds.py *)

Lemma thock_click_component_adds :
  adds (AddThockSounds.click_component 3528) 3528 (fun w => w)
       (fun _ k =>
          contribution 0 264 3528 (harmonic 4000 [(1, 1); (2, 0.3)] 200 0.3) k).
Proof.
  unfold AddThockSounds.click_component. cbv zeta.
  eapply adds_ext; [apply adds_pure_plain; vm_compute; discriminate |].
  intros w k. cbv beta. apply contribution_ext. intros i. harmonic_value.
Qed.

Lemma thock_clack_component_adds :
  adds (AddThockSounds.clack_component 3528) 3528 (fun w => w)
       (fun _ k =>
          contribution 132 529 3528 (harmonic 1800 [(1, 1); (1.5, 0.3)] 90 0.4) k).
Proof.
  unfold AddThockSounds.clack_component. cbv zeta.
  eapply adds_ext; [apply adds_pure_event; vm_compute; discriminate |].
  intros w k. cbv beta. apply contribution_ext. intros i. harmonic_value.
Qed.

Lemma thock_thock_component_adds :
  adds (AddThockSounds.thock_component 3528) 3528 (fun w => w)
       (fun _ k =>
          contribution 176 2205 3528
            (harmonic 350 [(1, 1); (2, 0.5); (3, 0.3)] 35 0.9) k).
Proof.
  unfold AddThockSounds.thock_component. cbv zeta.
  eapply adds_ext; [apply adds_pure_event; vm_compute; discriminate |].
  intros w k. cbv beta. apply contribution_ext. intros i.
  unfold AddThockSounds.thock_value, AddThockSounds.thock_decay. harmonic_value.
Qed.

Lemma thock_noise_component_adds :
  adds (AddThockSounds.noise_component 3528) 3528
       (fun w => Nat.iter 352 draw (seeded 45 w))
       (fun w k =>
          contribution 0 352 3528
            (fun i => noise 170 0.08 i
                        (drawn (Nat.iter (Z.to_nat i) draw (seeded 45 w)))) k).
Proof.
  unfold AddThockSounds.noise_component. cbv zeta.
  eapply adds_adv; [eapply adds_ext |].
  - apply adds_seeded. apply adds_noise_plain. vm_compute. discriminate.
  - intros w k. cbv beta. reflexivity.
  - intros w. reflexivity.
Qed.

(** The thock click before the final pass: the sum of its four
    components. *)
Lemma thock_click_adds :
  adds (fun samples =>
          s <- AddThockSounds.click_component 3528 samples ;;
          s <- AddThockSounds.clack_component 3528 s ;;
          s <- AddThockSounds.thock_component 3528 s ;;
          AddThockSounds.noise_component 3528 s) 3528
       (fun w => Nat.iter 352 draw (seeded 45 w))
       (fun w k =>
          contribution 0 264 3528 (harmonic 4000 [(1, 1); (2, 0.3)] 200 0.3) k
          + contribution 132 529 3528 (harmonic 1800 [(1, 1); (1.5, 0.3)] 90 0.4) k
          + contribution 176 2205 3528
              (harmonic 350 [(1, 1); (2, 0.5); (3, 0.3)] 35 0.9) k
          + contribution 0 352 3528
              (fun i => noise 170 0.08 i
                          (drawn (Nat.iter (Z.to_nat i) draw (seeded 45 w)))) k).
Proof.
  eapply adds_adv; [eapply adds_ext |].
  - eapply adds_seq; [apply thock_click_component_adds |].
    eapply adds_seq; [apply thock_clack_component_adds |].
    eapply adds_seq; [apply thock_thock_component_adds |].
    apply thock_noise_component_adds.
  - intros w k. cbv beta. ring.
  - intros w. reflexivity.
Qed.


(** *** The melody of generate-sounds.py *)

Lemma melody_tone_adds (num_samples : Z) (freq start_time tone_duration : Q) :
  (0 <= py_int (start_time * sample_rate))%Z ->
  adds (GenerateSounds.melody_tone num_samples (freq, start_time, tone_duration))
       num_samples (fun w => w)
       (fun _ k =>
          contribution (py_int (start_time * sample_rate))
            (py_int (tone_duration * sample_rate)) num_samples
            (melody_value freq (py_int (tone_duration * sample_rate))) k).
Proof.
  intros Hs.
  exact (adds_pure_event num_samples _ _
           (melody_value freq (py_int (tone_duration * sample_rate))) Hs).
Qed.

Lemma adds_ret (n : Z) :
  adds (fun samples => ret samples) n (fun w => w) (fun _ _ => 0).
Proof.
  intros samples w Hlen. exists samples. split; [reflexivity |]. split; [reflexivity |].
  intros k x Hk. exists x. split; [exact Hk | ring].
Qed.

Lemma adds_for_each_cons {A} (body : A -> list Q -> py (list Q)) (a : A) (l : list A)
    (n : Z) (adv1 adv2 : world -> world) (f1 f2 : world -> Z -> Q) :
  adds (body a) n adv1 f1 -> adds (for_each l body) n adv2 f2 ->
  adds (for_each (a :: l) body) n (fun w => adv2 (adv1 w))
       (fun w k => f1 w k + f2 (adv1 w) k).
Proof. intros H1 H2. exact (adds_seq _ _ n _ _ _ _ H1 H2). Qed.

(** The buffer of complete.wav: the sum of its three tones. *)
Lemma complete_samples_adds :
  adds (for_each GenerateSounds.tones (GenerateSounds.melody_tone 26460)) 26460
       (fun w => w)
       (fun _ k =>
          contribution 0 6615 26460 (melody_value 523.25 6615) k
          + contribution 6615 6615 26460 (melody_value 659.25 6615) k
          + contribution 13230 13230 26460 (melody_value 783.99 13230) k).
Proof.
  unfold GenerateSounds.tones.
  eapply adds_adv; [eapply adds_ext |].
  - eapply adds_for_each_cons; [apply melody_tone_adds; vm_compute; discriminate |].
    eapply adds_for_each_cons; [apply melody_tone_adds; vm_compute; discriminate |].
    eapply adds_for_each_cons; [apply melody_tone_adds; vm_compute; discriminate |].
    apply adds_ret.
  - intros w k. cbv beta.
    change (py_int (0.0 * sample_rate)) with 0%Z.
    change (py_int (0.15 * sample_rate)) with 6615%Z.
    change (py_int (0.3 * sample_rate)) with 13230%Z.
    ring.
  - intros w. reflexivity.
Qed.

End Components.

(** ** The final pass, with its roundings *)

Section RoundedPass.
Local Open Scope Q_scope.

Lemma float_mul_abs (a b : Q) :
  Qabs (float_mul a b) == float_mul (Qabs a) (Qabs b).
Proof.
  unfold float_mul. rewrite fl_abs. apply fl_proper.
  rewrite Qabs_Qmult, !fl_abs. reflexivity.
Qed.


Lemma float_mul_mono (a a' b : Q) :
  a <= a' -> 0 <= b -> float_mul a b <= float_mul a' b.
Proof.
  intros Ha Hb. unfold float_mul. apply fl_mono.
  apply Qmult_le_compat_r; [now apply fl_mono | now apply fl_nonneg].
Qed.

Lemma float_mul_proper (a a' b b' : Q) :
  a == a' -> b == b' -> float_mul a b == float_mul a' b'.
Proof.
  intros Ea Eb. unfold float_mul. apply fl_proper.
  rewrite (fl_proper _ _ Ea), (fl_proper _ _ Eb). reflexivity.
Qed.

(** A rounding keeps a number within the bounds of its argument, widened
    by [2^-53]. *)
Lemma fl_scale (x c lo hi : Q) :
  0 <= c -> 0 <= lo -> c * lo <= x <= c * hi ->
  c * (lo * (1 - (1 # 9007199254740992))) <= fl x
    <= c * (hi * (1 + (1 # 9007199254740992))).
Proof.
  intros Hc Hlo [H1 H2].
  assert (Hx : 0 <= x).
  { assert (0 <= c * lo) by (apply Qmult_le_0_compat; assumption). lra. }
  destruct (fl_nonneg_bounds x Hx) as [B1 B2].
  assert (A1 : c * lo * (1 - (1 # 9007199254740992)) <= x * (1 - (1 # 9007199254740992))).
  { apply Qmult_le_compat_r; [exact H1 | discriminate]. }
  assert (A2 : x * (1 + (1 # 9007199254740992)) <= c * hi * (1 + (1 # 9007199254740992))).
  { apply Qmult_le_compat_r; [exact H2 | discriminate]. }
  lra.
Qed.

(** The sample of largest magnitude [peak], normalized and scaled with
    seven roundings on the way, ends within [2^-50] of the volume,
    relatively. *)
Lemma rounded_pass_peak (peak volume : Q) :
  0 < peak -> 0 <= volume ->
  volume * (1 - (1 # 1125899906842624))
    <= float_mul (float_mul peak (fl (fl 1.0 / fl peak))) volume
    <= volume * (1 + (1 # 1125899906842624)).
Proof.
  intros Hp Hv.
  pose proof (fl_pos peak Hp) as Hm.
  set (m := fl peak) in *.
  assert (E1 : fl 1.0 == 1).
  { rewrite (fl_proper 1.0 (inject_Z 1)) by reflexivity. apply fl_Z. reflexivity. }
  assert (Hq : 0 < 1 / m) by (apply Qlt_shift_div_l; lra).
  assert (Hn : (1 / m) * (1 * (1 - (1 # 9007199254740992))) <= fl (fl 1.0 / m)
               <= (1 / m) * (1 * (1 + (1 # 9007199254740992)))).
  { apply fl_scale; [lra | lra |]. rewrite E1. lra. }
  set (n := fl (fl 1.0 / m)) in *.
  assert (Hn' : (1 / m) * (1 * (1 - (1 # 9007199254740992)) * (1 - (1 # 9007199254740992)))
                <= fl n
                <= (1 / m) * (1 * (1 + (1 # 9007199254740992)) * (1 + (1 # 9007199254740992)))).
  { apply fl_scale; [lra | discriminate | exact Hn]. }
  set (L2 := 1 * (1 - (1 # 9007199254740992)) * (1 - (1 # 9007199254740992))) in *.
  set (U2 := 1 * (1 + (1 # 9007199254740992)) * (1 + (1 # 9007199254740992))) in *.
  assert (Hprod : 1 * L2 <= m * fl n <= 1 * U2).
  { assert (Em : m * (1 / m) == 1) by (field; lra).
    assert (A1 : m * (1 / m * L2) <= m * fl n)
      by (rewrite !(Qmult_comm m); apply Qmult_le_compat_r; lra).
    assert (A2 : m * fl n <= m * (1 / m * U2))
      by (rewrite !(Qmult_comm m); apply Qmult_le_compat_r; lra).
    rewrite Qmult_assoc, Em in A1, A2. lra. }
  assert (Ha : 1 * (L2 * (1 - (1 # 9007199254740992))) <= float_mul peak n
               <= 1 * (U2 * (1 + (1 # 9007199254740992)))).
  { unfold float_mul. fold m. apply fl_scale; [lra | discriminate | exact Hprod]. }
  set (a := float_mul peak n) in *.
  set (L3 := L2 * (1 - (1 # 9007199254740992))) in *.
  set (U3 := U2 * (1 + (1 # 9007199254740992))) in *.
  assert (Ha' : 1 * (L3 * (1 - (1 # 9007199254740992))) <= fl a
                <= 1 * (U3 * (1 + (1 # 9007199254740992)))).
  { apply fl_scale; [lra | discriminate | exact Ha]. }
  set (L4 := L3 * (1 - (1 # 9007199254740992))) in *.
  set (U4 := U3 * (1 + (1 # 9007199254740992))) in *.
  assert (Hfv : volume * (1 * (1 - (1 # 9007199254740992))) <= fl volume
                <= volume * (1 * (1 + (1 # 9007199254740992)))).
  { apply fl_scale; [exact Hv | lra | lra]. }
  assert (HL4 : 0 <= L4) by discriminate.
  assert (Hfa0 : 0 <= fl a) by lra.
  assert (Hfv0 : 0 <= fl volume) by (now apply fl_nonneg).
  assert (Hpv : volume * (L4 * (1 - (1 # 9007199254740992))) <= fl a * fl volume
                <= volume * (U4 * (1 + (1 # 9007199254740992)))).
  { split.
    - apply Qle_trans with (L4 * fl volume).
      + assert (A : L4 * (volume * (1 * (1 - (1 # 9007199254740992)))) <= L4 * fl volume)
          by (rewrite !(Qmult_comm L4); apply Qmult_le_compat_r; lra).
        lra.
      + apply Qmult_le_compat_r; lra.
    - apply Qle_trans with (U4 * fl volume).
      + apply Qmult_le_compat_r; lra.
      + assert (A : U4 * fl volume <= U4 * (volume * (1 * (1 + (1 # 9007199254740992)))))
          by (rewrite !(Qmult_comm U4); apply Qmult_le_compat_r; [lra | discriminate]).
        lra. }
  assert (Hb : volume * (L4 * (1 - (1 # 9007199254740992)) * (1 - (1 # 9007199254740992)))
               <= float_mul a volume
               <= volume * (U4 * (1 + (1 # 9007199254740992)) * (1 + (1 # 9007199254740992)))).
  { unfold float_mul. apply fl_scale; [exact Hv | discriminate | exact Hpv]. }
  assert (BL : 1 - (1 # 1125899906842624)
               <= L4 * (1 - (1 # 9007199254740992)) * (1 - (1 # 9007199254740992)))
    by (vm_compute; discriminate).
  assert (BU : U4 * (1 + (1 # 9007199254740992)) * (1 + (1 # 9007199254740992))
               <= 1 + (1 # 1125899906842624))
    by (vm_compute; discriminate).
  destruct Hb as [Hb1 Hb2]. split.
  - eapply Qle_trans; [| exact Hb1].
    rewrite !(Qmult_comm volume). apply Qmult_le_compat_r; [exact BL | exact Hv].
  - eapply Qle_trans; [exact Hb2 |].
    rewrite !(Qmult_comm volume). apply Qmult_le_compat_r; [exact BU | exact Hv].
Qed.

(** What is stored for a sample that close to the volume is within 1 of
    [round(volume * 32767)]. *)
Lemma stored_near_round (b volume : Q) :
  0 <= volume <= 1 ->
  volume * (1 - (1 # 1125899906842624)) <= b <= volume * (1 + (1 # 1125899906842624)) ->
  (Z.abs (clamp_to_int16 b - spec_round (volume * 32767)) <= 1)%Z.
Proof.
  intros [Hv0 Hv1] [Hb1 Hb2].
  pose proof (round_half_even_near (volume * 32767)) as Hr.
  change (round_half_even (volume * 32767)) with (spec_round (volume * 32767)) in Hr.
  set (R := spec_round (volume * 32767)) in *.
  rewrite clamp_to_int16_spec.
  assert (Hb0 : 0 <= b) by lra.
  unfold spec_clamp.
  destruct (Qltb b (-1)) eqn:E1; [apply Qltb_lt in E1; lra |].
  destruct (Qltb 1 b) eqn:E2.
  - apply Qltb_lt in E2.
    change (py_int (1 * 32767)) with 32767%Z.
    assert (H1 : inject_Z 32766 < inject_Z R).
    { change (inject_Z 32766) with 32766. lra. }
    assert (H2 : inject_Z R < inject_Z 32768).
    { change (inject_Z 32768) with 32768. lra. }
    rewrite <- Zlt_Qlt in H1, H2. lia.
  - apply Qltb_ge in E2.
    assert (Hp : 0 <= b * 32767) by lra.
    rewrite (py_int_nonneg _ Hp).
    pose proof (Qfloor_le (b * 32767)) as F1.
    pose proof (Qlt_floor (b * 32767)) as F2.
    set (F := Qfloor (b * 32767)) in *.
    rewrite inject_Z_plus in F2. change (inject_Z 1) with 1 in F2.
    assert (H1 : inject_Z F < inject_Z (R + 1)).
    { rewrite inject_Z_plus. change (inject_Z 1) with 1. lra. }
    assert (H2 : inject_Z R < inject_Z (F + 2)).
    { rewrite inject_Z_plus. change (inject_Z 2) with 2. lra. }
    rewrite <- Zlt_Qlt in H1, H2. lia.
Qed.

(** The whole final pass and the quantization of the write loop, on a
    buffer that is not silent, at any volume. *)
Lemma rounded_pass_stored_peak (samples : list Q) (volume peak : Q) (s0 : Q) :
  0 < peak -> In s0 samples -> peak = Qabs s0 ->
  Forall (fun s => Qabs s <= peak) samples ->
  peak_magnitude
    (map clamp_to_int16
       (map (fun s => float_mul s volume)
          (map (fun s => float_mul s (fl (fl 1.0 / fl peak))) samples)))
  = clamp_to_int16 (float_mul (float_mul peak (fl (fl 1.0 / fl peak))) (Qabs volume)).
Proof.
  intros Hp Hin Hpeak Hall.
  set (n := fl (fl 1.0 / fl peak)).
  pose proof (Qabs_nonneg volume) as Hv.
  assert (Hn : 0 <= n).
  { unfold n. apply fl_nonneg.
    assert (E1 : fl 1.0 == 1).
    { rewrite (fl_proper 1.0 (inject_Z 1)) by reflexivity. apply fl_Z. reflexivity. }
    pose proof (fl_pos peak Hp). rewrite E1.
    apply Qlt_le_weak, Qlt_shift_div_l; lra. }
  assert (Habs : forall s, Z.abs (clamp_to_int16 (float_mul (float_mul s n) volume))
                 = clamp_to_int16 (float_mul (float_mul (Qabs s) n) (Qabs volume))).
  { intros s. rewrite clamp_to_int16_abs. apply clamp_to_int16_proper.
    rewrite float_mul_abs.
    apply float_mul_proper; [| reflexivity].
    rewrite float_mul_abs.
    apply float_mul_proper; [reflexivity | now apply Qabs_pos]. }
  apply peak_magnitude_eq.
  - rewrite !Forall_map. rewrite Forall_forall in Hall. apply Forall_forall.
    intros s Hs. cbv beta. rewrite Habs. apply clamp_to_int16_mono.
    apply float_mul_mono; [| exact Hv]. apply float_mul_mono; [| exact Hn].
    apply Hall, Hs.
  - exists (clamp_to_int16 (float_mul (float_mul s0 n) volume)). split.
    + rewrite !map_map. apply in_map_iff. exists s0. split; [reflexivity | exact Hin].
    + rewrite Habs. apply clamp_to_int16_proper.
      apply float_mul_proper; [| reflexivity].
      apply float_mul_proper; [| reflexivity]. now rewrite Hpeak.
Qed.

(** Some sample is not zero: the peak is positive. *)
Lemma peak_positive (samples : list Q) (peak : Q) :
  Forall (fun s => Qabs s <= peak) samples ->
  (exists s, In s samples /\ ~ s == 0) -> 0 < peak.
Proof.
  intros Hall (s1 & Hs1 & Hnz). rewrite Forall_forall in Hall.
  apply list_elem_of_In in Hs1. specialize (Hall s1 Hs1). cbv beta in Hall.
  pose proof (Qabs_nonneg s1) as H0.
  destruct (Qlt_le_dec 0 (Qabs s1)) as [H | H]; [lra |].
  exfalso. apply Hnz.
  assert (E : Qabs s1 == 0) by lra.
  apply Qabs_Qle_condition in H. lra.
Qed.

End RoundedPass.

(** ** Where the clicks of a typing sound are mixed *)

Section ClickStarts.
Context {math : Math}.


Lemma length_click_starts (base : Q) (gaps : list Q) (k : nat) :
  length (click_starts base gaps k) = k.
Proof. unfold click_starts. now rewrite length_map, length_seq. Qed.





End ClickStarts.

(** ** The clicks of the typing sounds return *)

Section ClickReturns.
Context {math : Math}.

Lemma thock_typing_sound (filename : string) (num_clicks : Z) (volume : Q) :
  AddThockSounds.generate_multiple_thock_clicks filename num_clicks volume
  = typing_sound 46 AddThockSounds.one_click AddThockSounds.click_base_duration
      AddThockSounds.gap_duration filename num_clicks volume.
Proof. reflexivity. Qed.

Lemma mechanical_typing_sound (filename : string) (num_clicks : Z) (volume : Q) :
  AddMechanicalSound.generate_multiple_mechanical_clicks filename num_clicks volume
  = typing_sound 44 AddMechanicalSound.one_click AddMechanicalSound.click_base_duration
      AddMechanicalSound.gap_duration filename num_clicks volume.
Proof. reflexivity. Qed.

Lemma thock_click_returns : click_returns AddThockSounds.one_click.
Proof.
  intros num_samples start_sample samples w Hs Hlen.
  unfold AddThockSounds.one_click.
  erewrite bind_ok by apply random_jitter_eq. cbv zeta.
  edestruct (keeps_length_add_samples_at num_samples start_sample) as (s1 & E1 & L1);
    [exact Hs | exact Hlen |].
  erewrite bind_ok by exact E1. clear E1.
  edestruct (keeps_length_add_samples_at num_samples
               (start_sample + py_int (0.003 * sample_rate))) as (s2 & E2 & L2);
    [| shelve |].
  { change (py_int (0.003 * sample_rate)) with 132. lia. }
  erewrite bind_ok by exact E2. clear E2.
  edestruct (keeps_length_add_samples_at num_samples
               (start_sample + py_int (0.004 * sample_rate))) as (s3 & E3 & L3);
    [| shelve |].
  { change (py_int (0.004 * sample_rate)) with 176. lia. }
  erewrite bind_ok by exact E3. clear E3.
  edestruct (keeps_length_add_samples_at_random num_samples start_sample)
    as (s4 & E4 & L4); [exact Hs | shelve |].
  rewrite E4, iter_shift. exists s4. eexists. split; [reflexivity |]. congruence.
  Unshelve.
  all: unfold len in *; lia.
Qed.

Lemma mechanical_click_returns : click_returns AddMechanicalSound.one_click.
Proof.
  intros num_samples start_sample samples w Hs Hlen.
  unfold AddMechanicalSound.one_click.
  erewrite bind_ok by apply random_jitter_eq. cbv zeta.
  edestruct (keeps_length_add_samples_at num_samples start_sample) as (s1 & E1 & L1);
    [exact Hs | exact Hlen |].
  erewrite bind_ok by exact E1. clear E1.
  edestruct (keeps_length_add_samples_at num_samples
               (start_sample + py_int (0.003 * sample_rate))) as (s2 & E2 & L2);
    [| shelve |].
  { change (py_int (0.003 * sample_rate)) with 132. lia. }
  erewrite bind_ok by exact E2. clear E2.
  edestruct (keeps_length_add_samples_at num_samples
               (start_sample + py_int (0.005 * sample_rate))) as (s3 & E3 & L3);
    [| shelve |].
  { change (py_int (0.005 * sample_rate)) with 220. lia. }
  erewrite bind_ok by exact E3. clear E3.
  edestruct (keeps_length_add_samples_at_random num_samples start_sample)
    as (s4 & E4 & L4); [exact Hs | shelve |].
  rewrite E4, iter_shift. exists s4. eexists. split; [reflexivity |]. congruence.
  Unshelve.
  all: unfold len in *; lia.
Qed.

End ClickReturns.

(** ** Writing, whether or not the destination can be opened *)

Section Outcomes.
Context {math : Math}.
Local Open Scope Q_scope.

Lemma write_wav_outcome {A} (filename : string) (to_int : A -> Z) (samples : list A)
    (w : world) :
  Forall (fun s => int16 (to_int s)) samples ->
  write_wav filename to_int samples w = write_outcome filename (map to_int samples) w.
Proof.
  intros Hall. unfold write_outcome. destruct (unwritable w filename) eqn:Hun.
  - now apply write_wav_refused.
  - rewrite write_wav_spec by assumption. rewrite length_map, firstn_map. reflexivity.
Qed.

(** Writing once [m] numbers have been drawn. *)
Lemma write_outcome_drawn (filename : string) (stored : list Z) (m : nat) (w : world) :
  write_outcome filename stored (Nat.iter m draw w)
  = if unwritable w filename
    then (Raise OSError,
          {| rng := draws m (rng w); fs := fs w; space := space w;
             unwritable := unwritable w |})
    else (if (length stored <=? space w / 2)%nat then Ok tt else Raise OSError,
          {| rng := draws m (rng w);
             fs := <[filename := {| params := Some wav_header;
                                    payload := frame_bytes
                                      (take (Nat.min (length stored) (space w / 2))
                                         stored) |}]> (fs w);
             space := space w - 2 * Nat.min (length stored) (space w / 2);
             unwritable := unwritable w |}).
Proof.
  unfold write_outcome.
  rewrite unwritable_iter_draw, !space_iter_draw, fs_iter_draw, rng_iter_draw.
  destruct (unwritable w filename); [now rewrite iter_draw_world | reflexivity].
Qed.

Lemma peak_magnitude_le (ints : list Z) (t : Z) :
  (0 <= t)%Z -> Forall (fun q => (Z.abs q <= t)%Z) ints -> (peak_magnitude ints <= t)%Z.
Proof.
  intros Ht Hall. unfold peak_magnitude. induction Hall as [| q l Hq Hl IH]; simpl; lia.
Qed.


(** generate_keyboard_click of at least one click: the buffer it mixes,
    and the write. *)
Lemma keyboard_run (filename : string) (num_clicks : Z) (volume : Q) (w : world) :
  (1 <= num_clicks)%Z ->
  exists samples,
    length samples = Z.to_nat (2646 * num_clicks - 1544)
    /\ (0 <= volume ->
        Forall (fun s => - (0.76875 * volume) <= s <= 0.76875 * volume) samples)
    /\ GenerateSounds.generate_keyboard_click filename num_clicks volume w
       = write_outcome filename (map clamp_to_int16 samples)
           (Nat.iter (Z.to_nat num_clicks * 1103) draw w).
Proof.
  intros Hn.
  destruct (keyboard_samples_spec num_clicks volume w Hn) as (samples & Hrun & Hlen & Hb).
  exists samples. split; [exact Hlen |]. split; [exact Hb |].
  unfold GenerateSounds.generate_keyboard_click. cbv zeta.
  erewrite bind_ok by exact Hrun.
  apply write_wav_outcome. apply Forall_forall. intros s _. apply clamp_to_int16_fits.
Qed.


End Outcomes.

(** ** The buffers of the single clicks and of the melody *)

Section Buffers.
Context {math : Math}.
Local Open Scope Q_scope.

Lemma thock_click_mix (w : world) :
  exists samples,
    AddThockSounds.thock_click_samples w = (Ok samples, Nat.iter 352 draw (seeded 45 w))
    /\ len samples = 3528%Z
    /\ forall k : nat, (Z.of_nat k < 3528)%Z ->
         exists x, samples !! k = Some x
           /\ x == contribution 0 264 3528 (harmonic 4000 [(1, 1); (2, 0.3)] 200 0.3)
                     (Z.of_nat k)
                   + contribution 132 529 3528
                       (harmonic 1800 [(1, 1); (1.5, 0.3)] 90 0.4) (Z.of_nat k)
                   + contribution 176 2205 3528
                       (harmonic 350 [(1, 1); (2, 0.5); (3, 0.3)] 35 0.9) (Z.of_nat k)
                   + contribution 0 352 3528
                       (fun i => noise 170 0.08 i
                                   (drawn (Nat.iter (Z.to_nat i) draw (seeded 45 w))))
                       (Z.of_nat k).
Proof.
  unfold AddThockSounds.thock_click_samples.
  change (py_int (sample_rate * AddThockSounds.duration)) with 3528%Z. cbv zeta.
  apply (adds_zeros _ 3528 _ _ w thock_click_adds). lia.
Qed.

Lemma mechanical_click_mix (w : world) :
  exists samples,
    AddMechanicalSound.mechanical_click_samples w
    = (Ok samples, Nat.iter 529 draw (seeded 42 w))
    /\ len samples = 2646%Z
    /\ forall k : nat, (Z.of_nat k < 2646)%Z ->
         exists x, samples !! k = Some x
           /\ x == contribution 0 352 2646
                     (harmonic 4500 [(1, 1); (2, 0.5); (3, 0.3)] 180 0.6) (Z.of_nat k)
                   + contribution 132 661 2646
                       (harmonic 2000 [(1, 1); (1.5, 0.4)] 100 0.5) (Z.of_nat k)
                   + contribution 220 1323 2646
                       (harmonic 400 [(1, 1); (2, 0.3)] 50 0.4) (Z.of_nat k)
                   + contribution 0 529 2646
                       (fun i => noise 150 0.15 i
                                   (drawn (Nat.iter (Z.to_nat i) draw (seeded 42 w))))
                       (Z.of_nat k).
Proof.
  unfold AddMechanicalSound.mechanical_click_samples.
  change (py_int (sample_rate * 0.06)) with 2646%Z. cbv zeta.
  apply (adds_zeros _ 2646 _ _ w mechanical_click_adds). lia.
Qed.

Lemma complete_samples_mix (w : world) :
  exists samples,
    GenerateSounds.complete_samples w = (Ok samples, w)
    /\ len samples = 26460%Z
    /\ forall k : nat, (Z.of_nat k < 26460)%Z ->
         exists x, samples !! k = Some x
           /\ x == contribution 0 6615 26460 (melody_value 523.25 6615) (Z.of_nat k)
                   + contribution 6615 6615 26460 (melody_value 659.25 6615) (Z.of_nat k)
                   + contribution 13230 13230 26460 (melody_value 783.99 13230)
                       (Z.of_nat k).
Proof.
  unfold GenerateSounds.complete_samples.
  change (py_int (sample_rate * 0.6)) with 26460%Z. cbv zeta.
  apply (adds_zeros _ 26460 _ _ w complete_samples_adds). lia.
Qed.

(** A single click, with what it stores named: the quantized final pass
    of the buffer it mixed. *)
Lemma click_run_stored (synth : py (list Q)) (seed : Z) (draws_made : nat)
    (filename : string) (volume : Q) (w : world) (samples : list Q) :
  synth w = (Ok samples, Nat.iter draws_made draw (seeded seed w)) ->
  samples <> [] ->
  exists scaled,
    normalize_and_apply_volume samples volume = Ok scaled
    /\ length scaled = length samples
    /\ (samples <- synth ;;
        samples <- lift (normalize_and_apply_volume samples volume) ;;
        write_wav filename clamp_to_int16 samples) w
       = click_outcome seed draws_made filename (map clamp_to_int16 scaled) w.
Proof.
  intros Hsyn Hne.
  destruct (normalize_and_apply_volume_length samples volume Hne) as (scaled & Hnorm & Hl).
  exists scaled. split; [exact Hnorm |]. split; [exact Hl |].
  erewrite bind_ok by exact Hsyn.
  erewrite bind_ok by (unfold lift; rewrite Hnorm; reflexivity).
  rewrite write_wav_outcome
    by (apply Forall_forall; intros s _; apply clamp_to_int16_fits).
  unfold write_outcome, click_outcome.
  rewrite unwritable_iter_draw, !space_iter_draw, fs_iter_draw, rng_iter_draw.
  cbn [seeded rng fs space unwritable].
  destruct (unwritable w filename); [now rewrite iter_draw_world | reflexivity].
Qed.

(** *** Harmonic events *)





End Buffers.

(** * The claims *)

Section EncoderClaims.
Context {math : Math}.
Local Open Scope Q_scope.

(** C1, amended.  The final pass of the mech and thock generators
    (normalize when the peak is positive, apply the volume, each product
    rounded as a double) followed by the quantization of their write loop:
    on a non-empty buffer and a volume in [0, 1] it never raises (no
    division by zero); when some sample is not zero the largest stored
    magnitude is within 1 of [round(volume * 32767)]; when the buffer is
    silent every stored value is 0.  This pass is what
    generate_mechanical_keyboard_click stores: its 2646 samples, mixed,
    passed and quantized. *)
Theorem final_pass_peak_within_one (samples : list Q) (volume : Q)
    (filename : string) (w : world) :
  samples <> [] -> 0 <= volume <= 1 ->
  (exists scaled,
     normalize_and_apply_volume samples volume = Ok scaled
     /\ length scaled = length samples
     /\ ((exists s, In s samples /\ ~ s == 0) ->
         (Z.abs (peak_magnitude (map clamp_to_int16 scaled)
                 - spec_round (volume * 32767)) <= 1)%Z)
     /\ ((forall s, In s samples -> s == 0) ->
         Forall (fun q => q = 0%Z) (map clamp_to_int16 scaled)))
  /\ (exists mixed scaled,
        AddMechanicalSound.mechanical_click_samples w
        = (Ok mixed, Nat.iter 529 draw (seeded 42 w))
        /\ length mixed = 2646%nat
        /\ normalize_and_apply_volume mixed volume = Ok scaled
        /\ AddMechanicalSound.generate_mechanical_keyboard_click filename volume w
           = click_outcome 42 529 filename (map clamp_to_int16 scaled) w).
Proof.
  intros Hne [Hv0 Hv1]. split.
  - destruct (normalize_and_apply_volume_spec samples volume Hne)
      as (peak & s0 & Hin0 & Hpeak & Hall & Hrun).
    eexists. split; [exact Hrun |].
    destruct (Qltb 0 peak) eqn:E.
    + apply Qltb_lt in E. split; [now rewrite !length_map |]. split.
      * intros _.
        rewrite (rounded_pass_stored_peak samples volume peak s0 E Hin0 Hpeak Hall).
        apply stored_near_round; [split; assumption |].
        pose proof (rounded_pass_peak peak (Qabs volume) E (Qabs_nonneg volume)) as Hb.
        pose proof (Qabs_pos volume Hv0) as Ev. lra.
      * intros Hzero. exfalso. specialize (Hzero s0 Hin0).
        assert (Ez : Qabs s0 == 0) by (rewrite Hzero; reflexivity).
        rewrite <- Hpeak in Ez. lra.
    + apply Qltb_ge in E. split; [now rewrite length_map |]. split.
      * intros (s & Hs & Hnz). exfalso. apply Hnz.
        rewrite Forall_forall in Hall.
        apply list_elem_of_In in Hs. specialize (Hall s Hs).
        apply Qabs_Qle_condition in Hall. lra.
      * intros Hzero. rewrite !Forall_map. apply Forall_forall. intros s Hs.
        apply list_elem_of_In in Hs. cbv beta.
        rewrite (float_mul_zero s volume (Hzero s Hs)). reflexivity.
  - destruct (mechanical_click_mix w) as (mixed & Hmix & Hlen & _).
    assert (Hmne : mixed <> []).
    { intros ->. unfold len in Hlen. simpl in Hlen. lia. }
    destruct (click_run_stored AddMechanicalSound.mechanical_click_samples 42 529
                filename volume w mixed Hmix Hmne) as (scaled & Hnorm & _ & Hrun).
    exists mixed, scaled. split; [exact Hmix |]. split; [unfold len in Hlen; lia |].
    split; [exact Hnorm | exact Hrun].
Qed.



(** C4, as stated, fails: [int()] truncates.  A single keyboard click lasts
    0.025 s, that is 1102.5 sample periods; its buffer has 1102 samples, and
    the ceiling is 1103. *)
Lemma buffer_length_is_not_ceiling :
  GenerateSounds.keyboard_total_duration 1 == 0.025
  /\ len (zeros (py_int (sample_rate * GenerateSounds.keyboard_total_duration 1))) = 1102%Z
  /\ Qceiling (GenerateSounds.keyboard_total_duration 1 * 44100) = 1103%Z
  /\ len (zeros (py_int (sample_rate * GenerateSounds.keyboard_total_duration 1)))
     <> Qceiling (GenerateSounds.keyboard_total_duration 1 * 44100).
Proof.
  split; [reflexivity |]. split; [reflexivity |]. split; [reflexivity |].
  vm_compute. discriminate.
Qed.

(** C4, amended.  generate_thock_click lasts 0.08 s and mixes its four
    components into a buffer of [int(44100 * 0.08) = 3528] samples, all 0.0;
    generate_keyboard_click with [num_clicks >= 1] clicks mixes them into a
    buffer of [int(44100 * total_duration) = 2646 * num_clicks - 1544]
    samples, all 0.0.  In both the length is the floor of the product, not
    its ceiling. *)
Theorem buffers_are_truncated_and_silent (filename : string) (num_clicks : Z)
    (volume : Q) (w : world) :
  (1 <= num_clicks)%Z ->
  (py_int (sample_rate * AddThockSounds.duration) = Qfloor (AddThockSounds.duration * 44100)
   /\ py_int (sample_rate * AddThockSounds.duration) = 3528%Z
   /\ len (zeros 3528) = 3528%Z
   /\ Forall (fun s => s = 0) (zeros 3528)
   /\ AddThockSounds.thock_click_samples w
      = (s <- AddThockSounds.click_component 3528 (zeros 3528) ;;
         s <- AddThockSounds.clack_component 3528 s ;;
         s <- AddThockSounds.thock_component 3528 s ;;
         AddThockSounds.noise_component 3528 s) w
   /\ exists samples,
        AddThockSounds.thock_click_samples w
        = (Ok samples, Nat.iter 352 draw (seeded 45 w))
        /\ len samples = 3528%Z)
  /\ (let n := py_int (sample_rate * GenerateSounds.keyboard_total_duration num_clicks) in
      n = Qfloor (GenerateSounds.keyboard_total_duration num_clicks * 44100)
      /\ n = (2646 * num_clicks - 1544)%Z
      /\ len (zeros n) = n
      /\ Forall (fun s => s = 0) (zeros n)
      /\ GenerateSounds.generate_keyboard_click filename num_clicks volume w
         = (samples <- for_range num_clicks (GenerateSounds.keyboard_click n volume)
                         (zeros n) ;;
            write_wav filename clamp_to_int16 samples) w
      /\ exists samples,
           for_range num_clicks (GenerateSounds.keyboard_click n volume) (zeros n) w
           = (Ok samples, Nat.iter (Z.to_nat num_clicks * 1103) draw w)
           /\ len samples = n).
Proof.
  intros Hn. split.
  - split; [reflexivity |]. split; [reflexivity |]. split; [reflexivity |].
    split; [unfold zeros, py_repeat; apply Forall_replicate; reflexivity |].
    split; [reflexivity |].
    destruct (thock_click_mix w) as (samples & E & L & _). exists samples. auto.
  - cbv zeta. rewrite keyboard_num_samples by exact Hn.
    split.
    { unfold GenerateSounds.keyboard_total_duration. cbv zeta.
      symmetry. rewrite <- (keyboard_num_samples num_clicks Hn).
      unfold GenerateSounds.keyboard_total_duration. cbv zeta.
      rewrite py_int_nonneg.
      - apply Qfloor_comp. change (inject_Z sample_rate) with 44100. ring.
      - assert (Hq : 1 <= inject_Z num_clicks).
        { change 1 with (inject_Z 1). rewrite <- Zle_Qle. exact Hn. }
        unfold Z.sub. rewrite inject_Z_plus. change (inject_Z (- (1))) with (- (1)).
        change (inject_Z sample_rate) with 44100. lra. }
    split; [reflexivity |].
    split; [rewrite len_zeros; lia |].
    split; [unfold zeros, py_repeat; apply Forall_replicate; reflexivity |].
    split.
    { unfold GenerateSounds.generate_keyboard_click. cbv zeta.
      rewrite keyboard_num_samples by exact Hn. reflexivity. }
    destruct (keyboard_samples_spec num_clicks volume w Hn) as (samples & Hrun & Hlen & _).
    cbv zeta in Hrun. rewrite keyboard_num_samples in Hrun by exact Hn.
    exists samples. split; [exact Hrun |]. unfold len. rewrite Hlen. lia.
Qed.

End EncoderClaims.

(** C1, as stated, fails on generate_keyboard_click, which has no
    normalization: at volume 0.15 every value it stores for a single click
    is at most 3778 in magnitude, and [round(0.15 * 32767)] is 4915. *)
Lemma keyboard_click_peak_is_lower :
  spec_round (0.15 * 32767) = 4915%Z
  /\ forall (math : Math) (filename : string) (w : world),
       exists samples,
         GenerateSounds.generate_keyboard_click filename 1 0.15 w
         = write_outcome filename (map clamp_to_int16 samples) (Nat.iter 1103 draw w)
         /\ length samples = 1102%nat
         /\ (peak_magnitude (map clamp_to_int16 samples) <= 3778)%Z.
Proof.
  split; [reflexivity |]. intros math filename w.
  destruct (keyboard_run filename 1 0.15 w) as (samples & Hlen & Hb & Hrun); [lia |].
  exists samples. split; [exact Hrun |]. split; [exact Hlen |].
  apply peak_magnitude_le; [lia |].
  rewrite Forall_map. eapply Forall_impl; [apply Hb; discriminate |].
  intros s Hs. cbv beta in *. rewrite clamp_to_int16_abs.
  change 3778%Z with (clamp_to_int16 (0.76875 * 0.15)).
  apply clamp_to_int16_mono. apply Qabs_Qle_condition. exact Hs.
Qed.

(** A run of C1: a buffer whose peak is 1/2, at volume 0.15. *)
Lemma final_pass_peak_within_one_witness :
  exists scaled,
    normalize_and_apply_volume [0.5; -0.25; 0]%Q 0.15 = Ok scaled
    /\ length scaled = 3%nat
    /\ (Z.abs (peak_magnitude (map clamp_to_int16 scaled) - 4915) <= 1)%Z.
Proof.
  destruct (@final_pass_peak_within_one rational_math [0.5; -0.25; 0]%Q 0.15%Q
              "mech.wav" (fresh_world 0))
    as ((scaled & Hrun & Hlen & Hpeak & _) & _).
  - discriminate.
  - split; discriminate.
  - exists scaled. split; [exact Hrun |]. split; [exact Hlen |].
    apply Hpeak. exists 0.5%Q. split; [now left | discriminate].
Defined.

(** A run of C4: the three clicks of clicks.wav. *)
Lemma buffers_are_truncated_and_silent_witness :
  py_int (sample_rate * AddThockSounds.duration) = 3528%Z
  /\ py_int (sample_rate * GenerateSounds.keyboard_total_duration 3) = 6394%Z.
Proof.
  destruct (@buffers_are_truncated_and_silent rational_math "clicks.wav" 3 0.15%Q
              (fresh_world 0)) as ((_ & H1 & _) & (_ & H2 & _)).
  - lia.
  - split; [exact H1 | exact H2].
Defined.

Section RunClaims.

(** C2, as stated, fails: the seed is no parameter, and the generator is
    the shared one of the [random] module.  After [random.seed(7)] the next
    [random.random()] would be 2916826238065975 / 2^53; a call of
    [generate_thock_click] in between re-seeds the shared generator with 45
    and draws 352 numbers, and the caller gets 7733805785603626 / 2^53. *)
Lemma seed_is_shared_state :
  let w0 := fresh_world (2 * 3600) in
  let w1 := snd (AddThockSounds.generate_thock_click (math := rational_math)
                   "thock.wav" 0.15%Q w0) in
  drawn w0 = Qmake 2916826238065975 9007199254740992
  /\ drawn w1 = Qmake 7733805785603626 9007199254740992
  /\ rng w1 <> rng w0.
Proof.
  cbv zeta.
  destruct (thock_click_run (math := rational_math) "thock.wav" 0.15%Q (fresh_world (2 * 3600)))
    as (stored & _ & _ & ->).
  unfold click_outcome, drawn. cbn [snd rng fresh_world unwritable].
  split; [vm_compute; reflexivity |]. split; [vm_compute; reflexivity |].
  intros H. apply (f_equal MT.index) in H. vm_compute in H. discriminate.
Qed.

(** C2, amended.  Each run is a function of its arguments and of the disk:
    started with the shared generator in any two states, a generator gives
    the same result and leaves the same files.  The mech and thock
    generators re-seed the shared generator themselves (42, 44, 45, 46);
    [generate_keyboard_click] draws from it as [main] seeded it (42, 43). *)
Theorem runs_do_not_depend_on_generator_state {math : Math}
    (filename sounds_dir : string) (num_clicks : Z) (volume : Q) :
  oblivious (AddMechanicalSound.generate_mechanical_keyboard_click filename volume)
  /\ oblivious (AddMechanicalSound.generate_multiple_mechanical_clicks
                  filename num_clicks volume)
  /\ oblivious (AddThockSounds.generate_thock_click filename volume)
  /\ oblivious (AddThockSounds.generate_multiple_thock_clicks filename num_clicks volume)
  /\ oblivious (GenerateSounds.main sounds_dir).
Proof.
  split; [| split; [| split; [| split]]].
  - apply oblivious_mechanical_click.
  - apply oblivious_multiple_mechanical_clicks.
  - apply oblivious_thock_click.
  - apply oblivious_multiple_thock_clicks.
  - apply oblivious_main.
Qed.

(** C7, as stated, fails: nothing is validated.  With volume 2 the thock
    click is written in full, 3528 frames. *)
Lemma volume_is_not_validated :
  let run := AddThockSounds.generate_thock_click (math := rational_math)
               "thock.wav" 2%Q (fresh_world (2 * 3600)) in
  fst run = Ok tt
  /\ exists file, fs (snd run) !! "thock.wav" = Some file
       /\ params file = Some wav_header
       /\ length (payload file) = (2 * 3528)%nat.
Proof.
  cbv zeta.
  destruct (thock_click_run (math := rational_math) "thock.wav" 2%Q (fresh_world (2 * 3600)))
    as (stored & Hlen & _ & ->).
  unfold click_outcome. cbn [fst snd fs space fresh_world unwritable]. rewrite Hlen.
  split; [reflexivity |]. eexists. split; [apply lookup_insert_eq |].
  split; [reflexivity |]. cbn [payload].
  rewrite length_frame_bytes, length_take, Hlen. reflexivity.
Qed.

(** C7, amended.  No request is refused for its parameters.  Any volume is
    accepted: with room on the device, at a destination that can be opened,
    [generate_thock_click] succeeds and writes 3528 frames, each within
    [-32767, 32767] (a destination that cannot be opened is refused with
    OSError, whatever the volume).  A typing sound of no clicks (a total
    duration of 0 or less) does fail, with the ValueError of [max()] on the
    empty buffer, before any file is opened. *)
Theorem parameters_are_not_validated {math : Math} (filename : string)
    (volume : Q) (num_clicks : Z) (w : world) :
  (2 * 3528 <= space w)%nat -> num_clicks <= 0 ->
  (exists stored,
     length stored = 3528%nat
     /\ Forall (fun q => -32767 <= q <= 32767) stored
     /\ AddThockSounds.generate_thock_click filename volume w
        = if unwritable w filename
          then (Raise OSError,
                {| rng := draws 352 (MT.seed 45); fs := fs w; space := space w;
                   unwritable := unwritable w |})
          else (Ok tt,
                {| rng := draws 352 (MT.seed 45);
                   fs := <[filename := {| params := Some wav_header;
                                          payload := frame_bytes stored |}]> (fs w);
                   space := space w - 2 * 3528;
                   unwritable := unwritable w |}))
  /\ AddMechanicalSound.generate_multiple_mechanical_clicks filename num_clicks volume w
     = (Raise ValueError, seeded 44 w).
Proof.
  intros Hroom Hn. split; [| now apply multiple_mechanical_clicks_none].
  destruct (thock_click_run filename volume w) as (stored & Hlen & Hall & ->).
  exists stored. split; [exact Hlen |]. split; [exact Hall |].
  unfold click_outcome. rewrite Hlen.
  destruct (unwritable w filename); [reflexivity |].
  assert (Hdiv : (3528 <= space w / 2)%nat).
  { apply Nat.div_le_lower_bound; lia. }
  rewrite (proj2 (Nat.leb_le _ _) Hdiv).
  replace (Nat.min 3528 (space w / 2)) with 3528%nat by lia.
  rewrite firstn_all2 by lia. reflexivity.
Qed.

Lemma parameters_are_not_validated_witness :
  (exists stored,
     length stored = 3528%nat
     /\ Forall (fun q => -32767 <= q <= 32767) stored
     /\ AddThockSounds.generate_thock_click (math := rational_math)
          "thock.wav" 2%Q (fresh_world (2 * 3600))
        = (Ok tt,
           {| rng := draws 352 (MT.seed 45);
              fs := <["thock.wav" := {| params := Some wav_header;
                                        payload := frame_bytes stored |}]> ∅;
              space := 2 * 3600 - 2 * 3528;
              unwritable := fun _ => false |}))
  /\ AddMechanicalSound.generate_multiple_mechanical_clicks (math := rational_math)
       "mechs.wav" 0 2%Q (fresh_world (2 * 3600))
     = (Raise ValueError, seeded 44 (fresh_world (2 * 3600))).
Proof.
  apply (parameters_are_not_validated (math := rational_math)
           "thock.wav" 2%Q 0 (fresh_world (2 * 3600))).
  - apply Nat.leb_le. vm_compute. reflexivity.
  - lia.
Defined.

(** C9, as stated, fails: the frames go straight to the destination.  On a
    device with room for 100 payload bytes the mechanical click fails with
    OSError after 50 of its 2646 frames, and the destination, which did not
    exist, is left with a header and those 50 frames. *)
Lemma failed_write_leaves_partial_file :
  let run := AddMechanicalSound.generate_mechanical_keyboard_click (math := rational_math)
               "mech.wav" 0.15%Q (fresh_world 100) in
  fs (fresh_world 100) !! "mech.wav" = None
  /\ fst run = Raise OSError
  /\ exists file, fs (snd run) !! "mech.wav" = Some file
       /\ params file = Some wav_header
       /\ length (payload file) = 100%nat.
Proof.
  cbv zeta. split; [reflexivity |].
  destruct (mechanical_click_run (math := rational_math) "mech.wav" 0.15%Q (fresh_world 100))
    as (stored & Hlen & _ & ->).
  unfold click_outcome. cbn [fst snd fs space fresh_world unwritable]. rewrite Hlen.
  split; [reflexivity |]. eexists. split; [apply lookup_insert_eq |].
  split; [reflexivity |]. cbn [payload].
  rewrite length_frame_bytes, length_take, Hlen. reflexivity.
Qed.

(** C9, amended.  A destination that cannot be opened makes the call fail
    with OSError and nothing is written: the disk is as it was.  Past the
    open the encoder writes in place: the destination is created or
    emptied, then the frames are appended one by one while the device
    accepts them; the call succeeds with the complete container when there
    is room for all of them, and otherwise fails with OSError, leaving at
    the destination the header and the frames written until then.  So the
    2646 frames of generate_mechanical_keyboard_click, and so the frames of
    generate_tone, for a volume in [0, 1]. *)
Theorem write_is_in_place {math : Math} (filename : string)
    (frequency duration volume : Q) (w : world) :
  (0 <= volume <= 1)%Q ->
  (exists stored,
     length stored = 2646%nat
     /\ Forall (fun q => -32767 <= q <= 32767) stored
     /\ let written := Nat.min 2646 (space w / 2) in
        AddMechanicalSound.generate_mechanical_keyboard_click filename volume w
        = if unwritable w filename
          then (Raise OSError,
                {| rng := draws 529 (MT.seed 42); fs := fs w; space := space w;
                   unwritable := unwritable w |})
          else (if (2646 <=? space w / 2)%nat then Ok tt else Raise OSError,
                {| rng := draws 529 (MT.seed 42);
                   fs := <[filename := {| params := Some wav_header;
                                          payload := frame_bytes (take written stored) |}]>
                           (fs w);
                   space := space w - 2 * written;
                   unwritable := unwritable w |}))
  /\ (exists stored,
        GenerateSounds.tone_samples frequency duration volume w = (Ok stored, w)
        /\ Forall int16 stored
        /\ let written := Nat.min (length stored) (space w / 2) in
           GenerateSounds.generate_tone filename frequency duration volume w
           = if unwritable w filename
             then (Raise OSError, w)
             else (if (length stored <=? space w / 2)%nat then Ok tt else Raise OSError,
                   {| rng := rng w;
                      fs := <[filename := {| params := Some wav_header;
                                             payload := frame_bytes (take written stored) |}]>
                              (fs w);
                      space := space w - 2 * written;
                      unwritable := unwritable w |})).
Proof.
  intros Hv. split.
  - destruct (mechanical_click_run filename volume w) as (stored & Hlen & Hall & ->).
    exists stored. split; [exact Hlen |]. split; [exact Hall |].
    unfold click_outcome. rewrite Hlen. reflexivity.
  - destruct (tone_samples_fit frequency duration volume w Hv) as (stored & E & Hall).
    exists stored. split; [exact E |]. split; [exact Hall |].
    unfold GenerateSounds.generate_tone. erewrite bind_ok by exact E.
    rewrite write_wav_outcome by exact Hall.
    unfold write_outcome. rewrite map_id. reflexivity.
Qed.

End RunClaims.

(** A run of C9: the mechanical click at a destination that cannot be
    opened leaves the disk as it was. *)
Lemma write_is_in_place_witness :
  let w := {| rng := MT.seed 7; fs := ∅; space := 100;
              unwritable := fun path => String.eqb path "mech.wav" |} in
  AddMechanicalSound.generate_mechanical_keyboard_click (math := rational_math)
    "mech.wav" 0.15%Q w
  = (Raise OSError,
     {| rng := draws 529 (MT.seed 42); fs := ∅; space := 100;
        unwritable := fun path => String.eqb path "mech.wav" |}).
Proof.
  cbv zeta.
  destruct (@write_is_in_place rational_math "mech.wav" 880 0.15%Q 0.15%Q
              {| rng := MT.seed 7; fs := ∅; space := 100;
                 unwritable := fun path => String.eqb path "mech.wav" |})
    as ((stored & _ & _ & H) & _).
  - split; discriminate.
  - exact H.
Defined.

Section MixingLemmas.
Context {math : Math}.

(** Values that fit 16 bits are written or refused by the device, never by
    [struct.pack]. *)
Lemma write_wav_no_struct_error {A} (filename : string) (to_int : A -> Z)
    (samples : list A) (w : world) :
  Forall (fun s => int16 (to_int s)) samples ->
  fst (write_wav filename to_int samples w) <> Raise StructError.
Proof.
  intros Hall. rewrite (write_wav_outcome filename to_int samples w Hall).
  unfold write_outcome. destruct (unwritable w filename); cbn [fst]; [discriminate |].
  destruct (length (map to_int samples) <=? space w / 2)%nat; discriminate.
Qed.

Lemma within_quarter_fits (s : Q) : (- (0.25) <= s <= 0.25)%Q -> int16 (py_int (s * 32767)).
Proof. intros Hs. apply py_int_scaled_fits. lra. Qed.





End MixingLemmas.

(** C10. generate_tone, generate_chord and the melody writer of main store
    [int(sample * 32767)] without a clamp.  For a volume in [0, 1] (and at
    least one frequency for a chord) the three sample loops return, leave
    the world alone, and every value they hand to [struct.pack] fits a
    signed 16-bit integer: the buffer of the melody stays within 0.25 in
    magnitude, a tone and a chord within the volume.  Hence no write of
    these three paths ends in struct.error. *)
Theorem unclamped_writers_fit_int16 {math : Math} (filename : string)
    (frequency : Q) (frequencies : list Q) (duration volume : Q) (w : world) :
  (0 <= volume <= 1)%Q -> frequencies <> [] ->
  (exists samples,
     GenerateSounds.tone_samples frequency duration volume w = (Ok samples, w)
     /\ Forall int16 samples
     /\ fst (GenerateSounds.generate_tone filename frequency duration volume w)
        <> Raise StructError)
  /\ (exists samples,
     GenerateSounds.chord_samples frequencies duration volume w = (Ok samples, w)
     /\ Forall int16 samples
     /\ fst (GenerateSounds.generate_chord filename frequencies duration volume w)
        <> Raise StructError)
  /\ (exists samples,
     GenerateSounds.complete_samples w = (Ok samples, w)
     /\ Forall (fun s => (- (0.25) <= s <= 0.25)%Q) samples
     /\ Forall (fun s => int16 (py_int (s * 32767))) samples
     /\ fst (write_wav filename (fun sample => py_int (sample * 32767)) samples w)
        <> Raise StructError).
Proof.
  intros Hv Hne. split; [| split].
  - destruct (tone_samples_fit frequency duration volume w Hv) as (samples & E & Hall).
    exists samples. split; [exact E |]. split; [exact Hall |].
    unfold GenerateSounds.generate_tone. erewrite bind_ok by exact E.
    apply write_wav_no_struct_error. exact Hall.
  - destruct (chord_samples_fit frequencies duration volume w Hne Hv)
      as (samples & E & Hall).
    exists samples. split; [exact E |]. split; [exact Hall |].
    unfold GenerateSounds.generate_chord. erewrite bind_ok by exact E.
    apply write_wav_no_struct_error. exact Hall.
  - destruct (complete_samples_within w) as (samples & E & _ & Hall).
    assert (Hfit : Forall (fun s => int16 (py_int (s * 32767))) samples).
    { eapply Forall_impl; [exact Hall |]. intros s Hs. now apply within_quarter_fits. }
    exists samples. split; [exact E |]. split; [exact Hall |]. split; [exact Hfit |].
    apply write_wav_no_struct_error. exact Hfit.
Qed.

Lemma unclamped_writers_fit_int16_witness :
  exists samples,
    @GenerateSounds.tone_samples rational_math 880 0.15 0.2 (fresh_world 0)
    = (Ok samples, fresh_world 0)
    /\ Forall int16 samples.
Proof.
  destruct (@unclamped_writers_fit_int16 rational_math "subtle.wav" 880 [800%Q; 1000%Q]
              0.15 0.2 (fresh_world 0)) as ((samples & E & Hall & _) & _).
  - split; [discriminate | discriminate].
  - discriminate.
  - exists samples. split; [exact E | exact Hall].
Defined.




(** C6. Every event is mixed with [samples[idx] += value], also the noise,
    whose values are drawn while the loop runs: on any buffer the new
    sample is the old one plus the contribution of the event, which is its
    value inside the window and 0 outside; no sample is replaced.  So events
    mixed one after the other into a silent buffer give, sample by sample,
    the sum of the buffers that each gives alone, whether their windows
    meet or not.  The buffer of generate_mechanical_keyboard_click is, as a
    rational, the sum of its click, clack, thock and noise, each as mixed
    alone; the buffer of complete.wav is the sum of its three tones. *)
Theorem mixing_is_additive {math : Math} (w : world) :
  (forall (n start count : Z) (value : Z -> py Q) (h : Z -> world -> Q)
          (adv : world -> world) (samples : list Q) (w0 : world),
     advances value h adv -> 0 <= start -> n <= len samples ->
     exists samples',
       add_samples_at n start count value samples w0
       = (Ok samples', Nat.iter (Z.to_nat (Z.min count (n - start))) adv w0)
       /\ length samples' = length samples
       /\ forall (k : nat) (x : Q), samples !! k = Some x ->
            exists x', samples' !! k = Some x'
              /\ (x' == x + contribution start count n
                             (fun i => h i (Nat.iter (Z.to_nat i) adv w0)) (Z.of_nat k))%Q)
  /\ (forall (c1 c2 : list Q -> py (list Q)) (n : Z) (adv1 adv2 : world -> world)
             (f1 f2 : world -> Z -> Q),
        adds c1 n adv1 f1 -> adds c2 n adv2 f2 -> 0 <= n ->
        exists both one two,
          (s <- c1 (zeros n) ;; c2 s) w = (Ok both, adv2 (adv1 w))
          /\ c1 (zeros n) w = (Ok one, adv1 w)
          /\ c2 (zeros n) (adv1 w) = (Ok two, adv2 (adv1 w))
          /\ forall k : nat, Z.of_nat k < n ->
               exists x y z,
                 one !! k = Some x /\ two !! k = Some y /\ both !! k = Some z
                 /\ (z == x + y)%Q
                 /\ (x == f1 w (Z.of_nat k))%Q /\ (y == f2 (adv1 w) (Z.of_nat k))%Q)
  /\ (exists both one two three four,
        AddMechanicalSound.mechanical_click_samples w
        = (Ok both, Nat.iter 529 draw (seeded 42 w))
        /\ AddMechanicalSound.click_component 2646 (zeros 2646) w = (Ok one, w)
        /\ AddMechanicalSound.clack_component 2646 (zeros 2646) w = (Ok two, w)
        /\ AddMechanicalSound.thock_component 2646 (zeros 2646) w = (Ok three, w)
        /\ AddMechanicalSound.noise_component 2646 (zeros 2646) w
           = (Ok four, Nat.iter 529 draw (seeded 42 w))
        /\ forall k : nat, Z.of_nat k < 2646 ->
             exists z x1 x2 x3 x4,
               both !! k = Some z /\ one !! k = Some x1 /\ two !! k = Some x2
               /\ three !! k = Some x3 /\ four !! k = Some x4
               /\ (z == x1 + x2 + x3 + x4)%Q
               /\ (x1 == contribution 0 352 2646
                           (harmonic 4500 [(1, 1); (2, 0.5); (3, 0.3)] 180 0.6)
                           (Z.of_nat k))%Q
               /\ (x2 == contribution 132 661 2646
                           (harmonic 2000 [(1, 1); (1.5, 0.4)] 100 0.5) (Z.of_nat k))%Q
               /\ (x3 == contribution 220 1323 2646
                           (harmonic 400 [(1, 1); (2, 0.3)] 50 0.4) (Z.of_nat k))%Q
               /\ (x4 == contribution 0 529 2646
                           (fun i => noise 150 0.15 i
                                       (drawn (Nat.iter (Z.to_nat i) draw (seeded 42 w))))
                           (Z.of_nat k))%Q)
  /\ (exists all one two three,
        GenerateSounds.complete_samples w = (Ok all, w)
        /\ GenerateSounds.melody_tone 26460 (523.25, 0.0, 0.15)%Q (zeros 26460) w
           = (Ok one, w)
        /\ GenerateSounds.melody_tone 26460 (659.25, 0.15, 0.15)%Q (zeros 26460) w
           = (Ok two, w)
        /\ GenerateSounds.melody_tone 26460 (783.99, 0.3, 0.3)%Q (zeros 26460) w
           = (Ok three, w)
        /\ forall k : nat, Z.of_nat k < 26460 ->
             exists z x1 x2 x3,
               all !! k = Some z /\ one !! k = Some x1 /\ two !! k = Some x2
               /\ three !! k = Some x3
               /\ (z == x1 + x2 + x3)%Q
               /\ (x1 == contribution 0 6615 26460 (melody_value 523.25 6615)
                           (Z.of_nat k))%Q
               /\ (x2 == contribution 6615 6615 26460 (melody_value 659.25 6615)
                           (Z.of_nat k))%Q
               /\ (x3 == contribution 13230 13230 26460 (melody_value 783.99 13230)
                           (Z.of_nat k))%Q).
Proof.
  split; [| split; [| split]].
  - intros n start count value h adv samples w0 Hadv Hs Hn.
    exact (adds_event n start count value h adv Hadv Hs samples w0 Hn).
  - intros c1 c2 n adv1 adv2 f1 f2 H1 H2 Hn.
    destruct (adds_zeros _ n _ _ w (adds_seq c1 c2 n adv1 adv2 f1 f2 H1 H2) Hn)
      as (both & Eb & _ & Kb).
    destruct (adds_zeros c1 n adv1 f1 w H1 Hn) as (one & E1 & _ & K1).
    destruct (adds_zeros c2 n adv2 f2 (adv1 w) H2 Hn) as (two & E2 & _ & K2).
    exists both, one, two. split; [exact Eb |]. split; [exact E1 |]. split; [exact E2 |].
    intros k Hk.
    destruct (Kb k Hk) as (z & Hz & Ez), (K1 k Hk) as (x & Hx & Ex),
             (K2 k Hk) as (y & Hy & Ey).
    exists x, y, z. repeat (split; [assumption |]).
    split; [| split; assumption]. rewrite Ez, Ex, Ey. reflexivity.
  - destruct (mechanical_click_mix w) as (both & Eb & _ & Kb).
    destruct (adds_zeros _ 2646 _ _ w mechanical_click_component_adds) as (one & E1 & _ & K1);
      [lia |].
    destruct (adds_zeros _ 2646 _ _ w mechanical_clack_component_adds) as (two & E2 & _ & K2);
      [lia |].
    destruct (adds_zeros _ 2646 _ _ w mechanical_thock_component_adds)
      as (three & E3 & _ & K3); [lia |].
    destruct (adds_zeros _ 2646 _ _ w mechanical_noise_component_adds)
      as (four & E4 & _ & K4); [lia |].
    exists both, one, two, three, four.
    split; [exact Eb |]. split; [exact E1 |]. split; [exact E2 |]. split; [exact E3 |].
    split; [exact E4 |].
    intros k Hk.
    destruct (Kb k Hk) as (z & Hz & Ez), (K1 k Hk) as (x1 & Hx1 & Ex1),
             (K2 k Hk) as (x2 & Hx2 & Ex2), (K3 k Hk) as (x3 & Hx3 & Ex3),
             (K4 k Hk) as (x4 & Hx4 & Ex4).
    exists z, x1, x2, x3, x4. repeat (split; [assumption |]).
    split; [| repeat split; assumption].
    rewrite Ez, Ex1, Ex2, Ex3, Ex4. reflexivity.
  - destruct (complete_samples_mix w) as (all & Ea & _ & Ka).
    destruct (adds_zeros _ 26460 _ _ w (melody_tone_adds 26460 523.25 0.0 0.15 ltac:(vm_compute; discriminate)))
      as (one & E1 & _ & K1); [lia |].
    destruct (adds_zeros _ 26460 _ _ w (melody_tone_adds 26460 659.25 0.15 0.15 ltac:(vm_compute; discriminate)))
      as (two & E2 & _ & K2); [lia |].
    destruct (adds_zeros _ 26460 _ _ w (melody_tone_adds 26460 783.99 0.3 0.3 ltac:(vm_compute; discriminate)))
      as (three & E3 & _ & K3); [lia |].
    exists all, one, two, three.
    split; [exact Ea |]. split; [exact E1 |]. split; [exact E2 |]. split; [exact E3 |].
    intros k Hk.
    destruct (Ka k Hk) as (z & Hz & Ez), (K1 k Hk) as (x1 & Hx1 & Ex1),
             (K2 k Hk) as (x2 & Hx2 & Ex2), (K3 k Hk) as (x3 & Hx3 & Ex3).
    cbv beta in Ex1, Ex2, Ex3.
    change (py_int (0.0 * sample_rate)) with 0 in Ex1.
    change (py_int (0.15 * sample_rate)) with 6615 in Ex1, Ex2.
    change (py_int (0.3 * sample_rate)) with 13230 in Ex3.
    exists z, x1, x2, x3. repeat (split; [assumption |]).
    split; [| repeat split; assumption].
    rewrite Ez, Ex1, Ex2, Ex3. reflexivity.
Qed.





(** * Whole runs and edge cases *)

(** ** The keyboard clicks of generate-sounds.py *)

Section Keyboard.
Context {math : Math}.
Local Open Scope Q_scope.

(** X1. generate_keyboard_click with at least one click, at any volume:
    every click has its 1102 samples inside the buffer, which holds
    [2646 * num_clicks - 1544] samples; the call draws 1103 numbers per
    click from the shared generator as it finds it (it does not seed), and
    ends in no exception but the OSError of a destination that cannot be
    opened, which leaves the disk as it was, or of a refused write; the
    destination then holds the header and the frames the device had room
    for, each within [-32767, 32767]. *)
Theorem keyboard_clicks_run (filename : string) (num_clicks : Z) (volume : Q)
    (w : world) :
  (1 <= num_clicks)%Z ->
  exists stored,
    length stored = Z.to_nat (2646 * num_clicks - 1544)
    /\ Forall (fun q => (-32767 <= q <= 32767)%Z) stored
    /\ let written := Nat.min (length stored) (space w / 2) in
       GenerateSounds.generate_keyboard_click filename num_clicks volume w
       = if unwritable w filename
         then (Raise OSError,
               {| rng := draws (Z.to_nat num_clicks * 1103) (rng w); fs := fs w;
                  space := space w; unwritable := unwritable w |})
         else (if (length stored <=? space w / 2)%nat then Ok tt else Raise OSError,
               {| rng := draws (Z.to_nat num_clicks * 1103) (rng w);
                  fs := <[filename := {| params := Some wav_header;
                                         payload := frame_bytes (take written stored) |}]>
                          (fs w);
                  space := space w - 2 * written;
                  unwritable := unwritable w |}).
Proof.
  intros Hn.
  destruct (keyboard_run filename num_clicks volume w Hn) as (samples & Hlen & _ & Hrun).
  exists (map clamp_to_int16 samples). split; [now rewrite length_map |]. split.
  - rewrite Forall_map. apply Forall_forall. intros s _. apply clamp_to_int16_range.
  - cbv zeta. rewrite Hrun. apply write_outcome_drawn.
Qed.

(** X2. For a volume in [0, 1] the samples generate_keyboard_click mixes
    stay within 0.76875 of the volume (three partials and the noise over
    four, clicks that do not overlap), so the clamp of its writer changes
    no value: what is stored is [int(sample * 32767)]. *)
Theorem keyboard_clicks_are_not_clipped (num_clicks : Z) (volume : Q) (w : world) :
  (1 <= num_clicks)%Z -> 0 <= volume <= 1 ->
  let num_samples :=
    py_int (sample_rate * GenerateSounds.keyboard_total_duration num_clicks) in
  exists samples w',
    for_range num_clicks (GenerateSounds.keyboard_click num_samples volume)
      (zeros num_samples) w = (Ok samples, w')
    /\ Forall (fun s => - (0.76875 * volume) <= s <= 0.76875 * volume) samples
    /\ Forall (fun s => clamp_to_int16 s = py_int (s * 32767)) samples.
Proof.
  intros Hn [Hv0 Hv1] num_samples.
  destruct (keyboard_samples_spec num_clicks volume w Hn) as (samples & Hrun & _ & Hb).
  specialize (Hb Hv0).
  exists samples, (Nat.iter (Z.to_nat num_clicks * 1103) draw w).
  split; [exact Hrun |]. split; [exact Hb |].
  eapply Forall_impl; [exact Hb |]. intros s Hs. cbv beta in Hs.
  rewrite clamp_to_int16_spec, spec_clamp_id by lra. reflexivity.
Qed.

(** X3. generate_keyboard_click with no click ([num_clicks <= 0]) raises
    nothing but the OSError of a destination that cannot be opened: the
    buffer is empty, no number is drawn, and a destination that can be
    opened is left as a container with a header and no frame. *)
Theorem keyboard_no_click_writes_empty_file (filename : string) (num_clicks : Z)
    (volume : Q) (w : world) :
  (num_clicks <= 0)%Z ->
  GenerateSounds.generate_keyboard_click filename num_clicks volume w
  = if unwritable w filename
    then (Raise OSError, w)
    else (Ok tt,
          {| rng := rng w;
             fs := <[filename := {| params := Some wav_header; payload := [] |}]> (fs w);
             space := space w;
             unwritable := unwritable w |}).
Proof.
  intros Hn. unfold GenerateSounds.generate_keyboard_click. cbv zeta.
  assert (Hz : zeros (py_int (sample_rate
                 * GenerateSounds.keyboard_total_duration num_clicks)) = []).
  { unfold zeros, py_repeat.
    assert (Hq : inject_Z num_clicks <= 0).
    { change 0 with (inject_Z 0). now rewrite <- Zle_Qle. }
    assert (Hle : sample_rate * GenerateSounds.keyboard_total_duration num_clicks <= 0).
    { unfold GenerateSounds.keyboard_total_duration. cbv zeta.
      unfold Z.sub. rewrite inject_Z_plus. change (inject_Z (- (1))) with (- (1)).
      change (inject_Z sample_rate) with 44100. lra. }
    pose proof (py_int_sign_nonpos _ Hle) as Hs.
    now replace (Z.to_nat _) with O by lia. }
  rewrite Hz. unfold for_range. rewrite (py_range_nonpos num_clicks) by exact Hn.
  cbn [for_each]. erewrite bind_ok by reflexivity.
  rewrite write_wav_outcome by constructor. unfold write_outcome.
  destruct (unwritable w filename); [reflexivity |].
  cbn [length Nat.leb Nat.min take map]. unfold frame_bytes. cbn [map concat].
  rewrite Nat.sub_0_r. reflexivity.
Qed.

End Keyboard.

Lemma keyboard_clicks_run_witness :
  exists stored,
    length stored = Z.to_nat (2646 * 3 - 1544)
    /\ Forall (fun q => (-32767 <= q <= 32767)%Z) stored.
Proof.
  destruct (@keyboard_clicks_run rational_math "clicks.wav" 3 0.15 (fresh_world 0))
    as (stored & Hlen & Hall & _).
  - lia.
  - exists stored. split; [exact Hlen | exact Hall].
Defined.

Lemma keyboard_clicks_are_not_clipped_witness :
  exists samples w',
    for_range 1 (@GenerateSounds.keyboard_click rational_math
        (py_int (sample_rate * GenerateSounds.keyboard_total_duration 1)) 0.15)
      (zeros (py_int (sample_rate * GenerateSounds.keyboard_total_duration 1)))
      (fresh_world 0) = (Ok samples, w')
    /\ Forall (fun s => clamp_to_int16 s = py_int (s * 32767)) samples.
Proof.
  destruct (@keyboard_clicks_are_not_clipped rational_math 1 0.15 (fresh_world 0))
    as (samples & w' & E & _ & H).
  - lia.
  - split; discriminate.
  - exists samples, w'. split; [exact E | exact H].
Defined.

Lemma keyboard_no_click_writes_empty_file_witness :
  fst (@GenerateSounds.generate_keyboard_click rational_math "click.wav" 0 0.15
         (fresh_world 0)) = Ok tt.
Proof.
  rewrite (@keyboard_no_click_writes_empty_file rational_math "click.wav" 0 0.15
             (fresh_world 0)).
  - reflexivity.
  - lia.
Defined.

(** ** The typing sounds, whole runs *)

Section TypingRuns.
Context {math : Math}.

(** The click loop of a typing sound never raises: every click starts at a
    position that is not negative, and a gap is read only where there is
    one. *)
Lemma typing_loop (one_click : Z -> Z -> list Q -> py (list Q)) (base : Q)
    (num_samples : Z) (gaps : list Q) (samples : list Q) :
  click_returns one_click -> (0 <= base)%Q ->
  Forall (fun gap => (0 <= gap)%Q) gaps -> num_samples <= len samples ->
  forall (k : nat) (w : world),
  exists samples' position m,
    for_range (Z.of_nat k) (typing_step one_click base num_samples gaps) (samples, 0%Q) w
    = (Ok (samples', position), Nat.iter m draw w)
    /\ length samples' = length samples
    /\ (0 <= position)%Q.
Proof.
  intros Hclick Hbase Hgaps Hlen k. induction k as [| k IH]; intros w.
  - exists samples, 0%Q, O. split; [reflexivity |]. split; [reflexivity | lra].
  - destruct (IH w) as (s1 & pos & m1 & Hrun & Hl1 & Hpos).
    unfold for_range in *. rewrite Nat2Z.inj_succ, <- Z.add_1_r.
    rewrite py_range_succ by lia. rewrite for_each_app.
    erewrite bind_ok by exact Hrun.
    cbn [for_each]. unfold typing_step at 1.
    destruct (Hclick num_samples (py_int (pos * sample_rate)) s1 (Nat.iter m1 draw w))
      as (s2 & m2 & Hone & Hl2).
    { apply py_int_sign_nonneg. change (inject_Z sample_rate) with 44100%Q. lra. }
    { unfold len in *. lia. }
    rewrite iter_draw_add in Hone.
    destruct (Z.of_nat k <? len gaps) eqn:E.
    + apply Z.ltb_lt in E.
      assert (Hnth : exists gap, gaps !! k = Some gap)
        by (apply lookup_lt_is_Some_2; unfold len in E; lia).
      destruct Hnth as [gap Hgap].
      assert (Hgap0 : (0 <= gap)%Q).
      { rewrite Forall_forall in Hgaps. apply Hgaps. eapply list_elem_of_lookup_2, Hgap. }
      exists s2, (pos + base + nth k gaps 0)%Q, (m2 + m1)%nat. split; [| split].
      * erewrite bind_ok; cycle 1.
        { erewrite bind_ok by exact Hone. cbv zeta.
          erewrite bind_ok; cycle 1.
          { erewrite bind_ok
              by (unfold lift; rewrite py_getitem_in_range by (unfold len in E; lia);
                  reflexivity).
            reflexivity. }
          reflexivity. }
        reflexivity.
      * congruence.
      * rewrite (nth_lookup_Some _ _ _ _ Hgap). lra.
    + exists s2, (pos + base)%Q, (m2 + m1)%nat. split; [| split].
      * erewrite bind_ok; cycle 1.
        { erewrite bind_ok by exact Hone. cbv zeta.
          erewrite bind_ok by reflexivity. reflexivity. }
        reflexivity.
      * congruence.
      * lra.
Qed.

Lemma gaps_drawn_within (gap : Q) (m : nat) (w : world) :
  Forall (fun g => (gap - 0.01 <= g <= gap + 0.01)%Q) (gaps_drawn gap 0.02 m w).
Proof.
  revert w. induction m as [| m IH]; intros w; cbn [gaps_drawn]; constructor.
  - pose proof (jitter_bound (drawn w) 0.02 (drawn_bound w)) as H.
    assert (H0 : (0 <= 0.02)%Q) by lra. specialize (H H0).
    assert (E : (0.02 / 2 == 0.01)%Q) by reflexivity. rewrite E in H. lra.
  - apply IH.
Qed.

Lemma py_sum_bounds (l : list Q) (lo hi : Q) :
  Forall (fun x => (lo <= x <= hi)%Q) l ->
  (inject_Z (len l) * lo <= py_sum l <= inject_Z (len l) * hi)%Q.
Proof.
  induction l as [| x l IH] using rev_ind; intros Hall.
  - unfold py_sum, len. cbn [length fold_left]. change (inject_Z (Z.of_nat 0)) with 0%Q. lra.
  - rewrite py_sum_snoc. apply Forall_app in Hall as [Hl Hx].
    rewrite Forall_singleton in Hx. specialize (IH Hl).
    assert (Hlen : (inject_Z (len (l ++ [x])) == inject_Z (len l) + 1)%Q).
    { unfold len. rewrite length_app. cbn [length]. rewrite Nat2Z.inj_add, inject_Z_plus.
      reflexivity. }
    rewrite Hlen. lra.
Qed.

(** A typing sound of at least one click. *)
Lemma typing_sound_run (seed : Z) (one_click : Z -> Z -> list Q -> py (list Q))
    (base gap : Q) (filename : string) (num_clicks : Z) (volume : Q) (w : world) :
  click_returns one_click -> (1 <= sample_rate * base)%Q -> (0.01 <= gap)%Q ->
  1 <= num_clicks ->
  let gaps := gaps_drawn gap 0.02 (Z.to_nat (num_clicks - 1)) (seeded seed w) in
  let num_samples := py_int (sample_rate * (base * num_clicks + py_sum gaps)) in
  exists stored g,
    length stored = Z.to_nat num_samples
    /\ (sample_rate * (base * num_clicks + inject_Z (num_clicks - 1) * (gap - 0.01)) - 1
         < inject_Z num_samples
         <= sample_rate * (base * num_clicks + inject_Z (num_clicks - 1) * (gap + 0.01)))%Q
    /\ Forall (fun q => -32767 <= q <= 32767) stored
    /\ let written := Nat.min (length stored) (space w / 2) in
       typing_sound seed one_click base gap filename num_clicks volume w
       = if unwritable w filename
         then (Raise OSError,
               {| rng := g; fs := fs w; space := space w; unwritable := unwritable w |})
         else (if (length stored <=? space w / 2)%nat then Ok tt else Raise OSError,
               {| rng := g;
                  fs := <[filename := {| params := Some wav_header;
                                         payload := frame_bytes (take written stored) |}]>
                          (fs w);
                  space := space w - 2 * written;
                  unwritable := unwritable w |}).
Proof.
  intros Hclick Hbase1 Hgap Hn gaps num_samples.
  assert (Hbase : (0 < base)%Q).
  { change (inject_Z sample_rate) with 44100%Q in Hbase1. lra. }
  pose proof (gaps_drawn_within gap (Z.to_nat (num_clicks - 1)) (seeded seed w)) as Hwithin.
  fold gaps in Hwithin.
  assert (Hgaps : Forall (fun g => (0 <= g)%Q) gaps).
  { eapply Forall_impl; [exact Hwithin |]. intros g Hg. cbv beta in Hg. lra. }
  pose proof (py_sum_bounds gaps _ _ Hwithin) as Hsum.
  assert (Hlen : inject_Z (len gaps) = inject_Z (num_clicks - 1)).
  { unfold len, gaps. rewrite length_gaps_drawn. f_equal. lia. }
  rewrite Hlen in Hsum.
  assert (Hn1 : (0 <= inject_Z (num_clicks - 1))%Q).
  { change 0%Q with (inject_Z 0). rewrite <- Zle_Qle. lia. }
  assert (Hnq : (1 <= inject_Z num_clicks)%Q).
  { change 1%Q with (inject_Z 1). rewrite <- Zle_Qle. lia. }
  assert (Hprod : (0 <= inject_Z (num_clicks - 1) * (gap - 0.01))%Q)
    by (apply Qmult_le_0_compat; lra).
  assert (Hbn : (base <= base * inject_Z num_clicks)%Q).
  { assert (H : (0 <= base * (inject_Z num_clicks - 1))%Q)
      by (apply Qmult_le_0_compat; lra).
    lra. }
  assert (Htotal : (0 <= sample_rate * (base * num_clicks + py_sum gaps))%Q).
  { change (inject_Z sample_rate) with 44100%Q. lra. }
  destruct (py_int_floor_bounds _ Htotal) as [Hfl Hfu]. fold num_samples in Hfl, Hfu.
  assert (Hbounds :
    (sample_rate * (base * num_clicks + inject_Z (num_clicks - 1) * (gap - 0.01)) - 1
     < inject_Z num_samples
     <= sample_rate * (base * num_clicks + inject_Z (num_clicks - 1) * (gap + 0.01)))%Q).
  { change (inject_Z sample_rate) with 44100%Q in *. lra. }
  destruct (typing_loop one_click base num_samples gaps (zeros num_samples) Hclick)
    with (k := Z.to_nat num_clicks) (w := Nat.iter (Z.to_nat (num_clicks - 1)) draw (seeded seed w))
    as (samples & position & m & Hrun & Hl & _).
  { lra. } { exact Hgaps. } { rewrite len_zeros. lia. }
  rewrite Z2Nat.id in Hrun by lia.
  assert (Hpos : 0 < num_samples).
  { assert (H0 : (inject_Z 0 < inject_Z num_samples + 1)%Q).
    { change (inject_Z 0) with 0%Q. change (inject_Z sample_rate) with 44100%Q in *. lra. }
    assert (H1 : (inject_Z 0 < inject_Z (num_samples + 1))%Q)
      by (rewrite inject_Z_plus; exact H0).
    rewrite <- Zlt_Qlt in H1.
    assert (Hne : num_samples <> 0).
    { intros E0. rewrite E0 in Hfu. change (inject_Z 0) with 0%Q in Hfu.
      change (inject_Z sample_rate) with 44100%Q in *. lra. }
    lia. }
  assert (Hlsamples : length samples = Z.to_nat num_samples).
  { rewrite Hl. unfold zeros, py_repeat. apply length_replicate. }
  assert (Hne : samples <> []).
  { intros ->. cbn [length] in Hlsamples. lia. }
  destruct (normalize_and_apply_volume_length samples volume Hne) as (scaled & Hnorm & Hls).
  exists (map clamp_to_int16 scaled),
         (draws (m + Z.to_nat (num_clicks - 1)) (MT.seed seed)).
  split; [rewrite length_map; congruence |]. split; [exact Hbounds |]. split.
  - rewrite Forall_map. apply Forall_forall. intros s _. apply clamp_to_int16_range.
  - cbv zeta. unfold typing_sound.
    erewrite bind_ok by apply random_seed_eq.
    erewrite bind_ok
      by (unfold for_range, py_range; rewrite (draw_gaps_loop gap 0.02); reflexivity).
    cbn [app]. fold gaps. cbv zeta. fold num_samples.
    erewrite bind_ok by exact Hrun. cbn [fst].
    erewrite bind_ok by (unfold lift; rewrite Hnorm; reflexivity).
    rewrite write_wav_outcome
      by (apply Forall_forall; intros s _; apply clamp_to_int16_fits).
    rewrite iter_draw_add, write_outcome_drawn. reflexivity.
Qed.

(** A typing sound of no click. *)
Lemma typing_sound_none (seed : Z) (one_click : Z -> Z -> list Q -> py (list Q))
    (base gap : Q) (filename : string) (num_clicks : Z) (volume : Q) (w : world) :
  (0 <= base)%Q -> num_clicks <= 0 ->
  typing_sound seed one_click base gap filename num_clicks volume w
  = (Raise ValueError, seeded seed w).
Proof.
  intros Hbase Hn. unfold typing_sound.
  erewrite bind_ok by apply random_seed_eq.
  unfold for_range.
  rewrite (py_range_nonpos (num_clicks - 1)) by lia. cbn [for_each].
  erewrite bind_ok by reflexivity. cbv zeta.
  rewrite (py_range_nonpos num_clicks) by lia. cbn [for_each].
  erewrite bind_ok by reflexivity. cbn [fst].
  assert (Hz : zeros (py_int (sample_rate * (base * num_clicks + py_sum [])%Q)%Q) = []).
  { unfold zeros, py_repeat.
    assert (Hq : (inject_Z num_clicks <= 0)%Q).
    { change 0%Q with (inject_Z 0). now rewrite <- Zle_Qle. }
    assert (Hprod : (0 <= base * - inject_Z num_clicks)%Q)
      by (apply Qmult_le_0_compat; lra).
    assert (Hle : (sample_rate * (base * num_clicks + py_sum []) <= 0)%Q).
    { unfold py_sum. cbn [fold_left]. change (inject_Z sample_rate) with 44100%Q. lra. }
    pose proof (py_int_sign_nonpos _ Hle) as Hs.
    now replace (Z.to_nat _) with O by lia. }
  rewrite Hz. reflexivity.
Qed.

End TypingRuns.

Section TypingTheorems.
Context {math : Math}.

Lemma frames_between (lo hi ns : Z) (x y : Q) :
  (x - 1 < inject_Z ns <= y)%Q -> (inject_Z lo <= x)%Q -> (y <= inject_Z hi)%Q ->
  lo <= ns <= hi.
Proof.
  intros [H1 H2] Hlo Hhi. split.
  - assert (H : (inject_Z (lo - 1) < inject_Z ns)%Q).
    { unfold Z.sub. rewrite inject_Z_plus. change (inject_Z (- (1))) with (- (1))%Q. lra. }
    rewrite <- Zlt_Qlt in H. lia.
  - rewrite Zle_Qle. lra.
Qed.

(** X4. generate_multiple_thock_clicks with at least one click, at any
    volume, ends in no exception but the OSError of a destination that
    cannot be opened or of a refused write: no index is out of range, the
    buffer is not empty when it is normalized.
    The sound lasts between 0.08 s per click plus 0.035 s per gap and
    0.08 s per click plus 0.055 s per gap, and the destination holds the
    header and the frames the device had room for, each within
    [-32767, 32767]. *)
Theorem thock_typing_run (filename : string) (num_clicks : Z) (volume : Q) (w : world) :
  1 <= num_clicks ->
  exists stored g,
    3528 * num_clicks + 1543 * (num_clicks - 1) <= Z.of_nat (length stored)
      <= 3528 * num_clicks + 2426 * (num_clicks - 1)
    /\ Forall (fun q => -32767 <= q <= 32767) stored
    /\ let written := Nat.min (length stored) (space w / 2) in
       AddThockSounds.generate_multiple_thock_clicks filename num_clicks volume w
       = if unwritable w filename
         then (Raise OSError,
               {| rng := g; fs := fs w; space := space w; unwritable := unwritable w |})
         else (if (length stored <=? space w / 2)%nat then Ok tt else Raise OSError,
               {| rng := g;
                  fs := <[filename := {| params := Some wav_header;
                                         payload := frame_bytes (take written stored) |}]>
                          (fs w);
                  space := space w - 2 * written;
                  unwritable := unwritable w |}).
Proof.
  intros Hn. rewrite thock_typing_sound.
  destruct (typing_sound_run 46 AddThockSounds.one_click AddThockSounds.click_base_duration
              AddThockSounds.gap_duration filename num_clicks volume w)
    as (stored & g & Hlen & Hb & Hall & Hrun).
  { apply thock_click_returns. } { vm_compute. discriminate. }
  { vm_compute. discriminate. } { exact Hn. }
  exists stored, g. split; [| split; [exact Hall | exact Hrun]].
  assert (Hn1 : (0 <= inject_Z (num_clicks - 1))%Q).
  { change 0%Q with (inject_Z 0). rewrite <- Zle_Qle. lia. }
  assert (Hns : 0 <= py_int (sample_rate * (AddThockSounds.click_base_duration * num_clicks
      + py_sum (gaps_drawn AddThockSounds.gap_duration 0.02 (Z.to_nat (num_clicks - 1))
                  (seeded 46 w))))%Q).
  { eapply (frames_between 0 _ _ _ _ Hb). Unshelve.
    3: exact (3528 * num_clicks + 2426 * (num_clicks - 1)).
    - change (inject_Z 0) with 0%Q.
      unfold AddThockSounds.click_base_duration, AddThockSounds.gap_duration.
      change (inject_Z sample_rate) with 44100%Q.
      assert (Hq : (1 <= inject_Z num_clicks)%Q)
        by (change 1%Q with (inject_Z 1); rewrite <- Zle_Qle; lia).
      lra.
    - rewrite inject_Z_plus, !inject_Z_mult.
      unfold AddThockSounds.click_base_duration, AddThockSounds.gap_duration.
      change (inject_Z sample_rate) with 44100%Q.
      change (inject_Z 3528) with 3528%Q. change (inject_Z 2426) with 2426%Q. lra. }
  rewrite Hlen, Z2Nat.id by exact Hns.
  apply (frames_between _ _ _ _ _ Hb).
  - rewrite inject_Z_plus, !inject_Z_mult.
    unfold AddThockSounds.click_base_duration, AddThockSounds.gap_duration.
    change (inject_Z sample_rate) with 44100%Q.
    change (inject_Z 3528) with 3528%Q. change (inject_Z 1543) with 1543%Q. lra.
  - rewrite inject_Z_plus, !inject_Z_mult.
    unfold AddThockSounds.click_base_duration, AddThockSounds.gap_duration.
    change (inject_Z sample_rate) with 44100%Q.
    change (inject_Z 3528) with 3528%Q. change (inject_Z 2426) with 2426%Q. lra.
Qed.

(** X5. generate_multiple_mechanical_clicks with at least one click, at any
    volume, ends in no exception but the OSError of a destination that
    cannot be opened or of a refused write.  The
    sound lasts between 0.06 s per click plus 0.03 s per gap and 0.06 s per
    click plus 0.05 s per gap, and the destination holds the header and the
    frames the device had room for, each within [-32767, 32767]. *)
Theorem mechanical_typing_run (filename : string) (num_clicks : Z) (volume : Q)
    (w : world) :
  1 <= num_clicks ->
  exists stored g,
    2646 * num_clicks + 1323 * (num_clicks - 1) <= Z.of_nat (length stored)
      <= 2646 * num_clicks + 2205 * (num_clicks - 1)
    /\ Forall (fun q => -32767 <= q <= 32767) stored
    /\ let written := Nat.min (length stored) (space w / 2) in
       AddMechanicalSound.generate_multiple_mechanical_clicks filename num_clicks volume w
       = if unwritable w filename
         then (Raise OSError,
               {| rng := g; fs := fs w; space := space w; unwritable := unwritable w |})
         else (if (length stored <=? space w / 2)%nat then Ok tt else Raise OSError,
               {| rng := g;
                  fs := <[filename := {| params := Some wav_header;
                                         payload := frame_bytes (take written stored) |}]>
                          (fs w);
                  space := space w - 2 * written;
                  unwritable := unwritable w |}).
Proof.
  intros Hn. rewrite mechanical_typing_sound.
  destruct (typing_sound_run 44 AddMechanicalSound.one_click
              AddMechanicalSound.click_base_duration
              AddMechanicalSound.gap_duration filename num_clicks volume w)
    as (stored & g & Hlen & Hb & Hall & Hrun).
  { apply mechanical_click_returns. } { vm_compute. discriminate. }
  { vm_compute. discriminate. } { exact Hn. }
  exists stored, g. split; [| split; [exact Hall | exact Hrun]].
  assert (Hn1 : (0 <= inject_Z (num_clicks - 1))%Q).
  { change 0%Q with (inject_Z 0). rewrite <- Zle_Qle. lia. }
  assert (Hns : 0 <= py_int (sample_rate * (AddMechanicalSound.click_base_duration * num_clicks
      + py_sum (gaps_drawn AddMechanicalSound.gap_duration 0.02 (Z.to_nat (num_clicks - 1))
                  (seeded 44 w))))%Q).
  { eapply (frames_between 0 _ _ _ _ Hb). Unshelve.
    3: exact (2646 * num_clicks + 2205 * (num_clicks - 1)).
    - change (inject_Z 0) with 0%Q.
      unfold AddMechanicalSound.click_base_duration, AddMechanicalSound.gap_duration.
      change (inject_Z sample_rate) with 44100%Q.
      assert (Hq : (1 <= inject_Z num_clicks)%Q)
        by (change 1%Q with (inject_Z 1); rewrite <- Zle_Qle; lia).
      lra.
    - rewrite inject_Z_plus, !inject_Z_mult.
      unfold AddMechanicalSound.click_base_duration, AddMechanicalSound.gap_duration.
      change (inject_Z sample_rate) with 44100%Q.
      change (inject_Z 2646) with 2646%Q. change (inject_Z 2205) with 2205%Q. lra. }
  rewrite Hlen, Z2Nat.id by exact Hns.
  apply (frames_between _ _ _ _ _ Hb).
  - rewrite inject_Z_plus, !inject_Z_mult.
    unfold AddMechanicalSound.click_base_duration, AddMechanicalSound.gap_duration.
    change (inject_Z sample_rate) with 44100%Q.
    change (inject_Z 2646) with 2646%Q. change (inject_Z 1323) with 1323%Q. lra.
  - rewrite inject_Z_plus, !inject_Z_mult.
    unfold AddMechanicalSound.click_base_duration, AddMechanicalSound.gap_duration.
    change (inject_Z sample_rate) with 44100%Q.
    change (inject_Z 2646) with 2646%Q. change (inject_Z 2205) with 2205%Q. lra.
Qed.

(** X6. generate_multiple_thock_clicks with no click ([num_clicks <= 0])
    fails with the ValueError of [max()] on the empty buffer; the generator
    has been re-seeded with 46 by then, and no file has been opened. *)
Theorem thock_typing_none (filename : string) (num_clicks : Z) (volume : Q) (w : world) :
  num_clicks <= 0 ->
  AddThockSounds.generate_multiple_thock_clicks filename num_clicks volume w
  = (Raise ValueError, seeded 46 w)
  /\ fs (snd (AddThockSounds.generate_multiple_thock_clicks filename num_clicks volume w))
     = fs w.
Proof.
  intros Hn. rewrite thock_typing_sound.
  rewrite typing_sound_none; [split; reflexivity | vm_compute; discriminate | exact Hn].
Qed.

End TypingTheorems.

Lemma thock_typing_run_witness :
  exists stored : list Z,
    3528 * 3 + 1543 * (3 - 1) <= Z.of_nat (length stored) <= 3528 * 3 + 2426 * (3 - 1).
Proof.
  destruct (@thock_typing_run rational_math "thocks.wav" 3 0.15%Q (fresh_world 0))
    as (stored & g & Hlen & _).
  - lia.
  - exists stored. exact Hlen.
Defined.

Lemma mechanical_typing_run_witness :
  exists stored : list Z,
    2646 * 3 + 1323 * (3 - 1) <= Z.of_nat (length stored) <= 2646 * 3 + 2205 * (3 - 1).
Proof.
  destruct (@mechanical_typing_run rational_math "mechs.wav" 3 0.15%Q (fresh_world 0))
    as (stored & g & Hlen & _).
  - lia.
  - exists stored. exact Hlen.
Defined.

Lemma thock_typing_none_witness :
  @AddThockSounds.generate_multiple_thock_clicks rational_math "thocks.wav" 0 0.15%Q
    (fresh_world 0)
  = (Raise ValueError, seeded 46 (fresh_world 0)).
Proof.
  apply (@thock_typing_none rational_math "thocks.wav" 0 0.15%Q (fresh_world 0)). lia.
Defined.

(** ** The final pass at any volume *)

Section AnyVolume.
Local Open Scope Q_scope.

(** X7. The final pass and the quantization at any volume, on a buffer that
    is not silent: no volume is refused; the largest stored magnitude is
    what the writer stores for a value within [2^-50], relatively, of
    [abs(volume)], which the roundings of the pass leave: it is within 1 of
    [int(abs(volume) * 32767)] up to full scale, and 32767 from
    [1 + 2^-49] on (the sound is clipped). *)
Theorem encode_peak_any_volume (samples : list Q) (volume : Q) :
  samples <> [] -> (exists s, In s samples /\ ~ s == 0) ->
  exists scaled p,
    normalize_and_apply_volume samples volume = Ok scaled
    /\ peak_magnitude (map clamp_to_int16 scaled) = clamp_to_int16 p
    /\ Qabs volume * (1 - (1 # 1125899906842624)) <= p
       <= Qabs volume * (1 + (1 # 1125899906842624))
    /\ (Qabs volume <= 1 ->
        (Z.abs (clamp_to_int16 p - py_int (Qabs volume * 32767)) <= 1)%Z)
    /\ (1 + (1 # 562949953421312) <= Qabs volume -> clamp_to_int16 p = 32767%Z).
Proof.
  intros Hne Hnz.
  destruct (normalize_and_apply_volume_spec samples volume Hne)
    as (peak & s0 & Hin0 & Hpeak & Hall & Hrun).
  pose proof (peak_positive samples peak Hall Hnz) as Hpos.
  rewrite (proj2 (Qltb_lt 0 peak) Hpos) in Hrun.
  pose proof (Qabs_nonneg volume) as Hv.
  pose proof (rounded_pass_peak peak (Qabs volume) Hpos Hv) as [Hb1 Hb2].
  set (p := float_mul (float_mul peak (fl (fl 1.0 / fl peak))) (Qabs volume)) in *.
  eexists. exists p. split; [exact Hrun |].
  split; [exact (rounded_pass_stored_peak samples volume peak s0 Hpos Hin0 Hpeak Hall) |].
  split; [split; assumption |]. split.
  - intros Hv1.
    assert (Hy : 0 <= Qabs volume * 32767) by lra.
    rewrite (py_int_nonneg _ Hy).
    pose proof (Qfloor_le (Qabs volume * 32767)) as G1.
    pose proof (Qlt_floor (Qabs volume * 32767)) as G2.
    set (G := Qfloor (Qabs volume * 32767)) in *.
    rewrite inject_Z_plus in G2. change (inject_Z 1) with 1 in G2.
    rewrite clamp_to_int16_spec. unfold spec_clamp.
    destruct (Qltb p (-1)) eqn:E1; [apply Qltb_lt in E1; lra |].
    destruct (Qltb 1 p) eqn:E2.
    + apply Qltb_lt in E2. change (py_int (1 * 32767)) with 32767%Z.
      assert (H1 : inject_Z 32765 < inject_Z G).
      { change (inject_Z 32765) with 32765. lra. }
      assert (H2 : inject_Z G < inject_Z 32768).
      { change (inject_Z 32768) with 32768. lra. }
      rewrite <- Zlt_Qlt in H1, H2. lia.
    + apply Qltb_ge in E2.
      assert (Hp : 0 <= p * 32767) by lra.
      rewrite (py_int_nonneg _ Hp).
      pose proof (Qfloor_le (p * 32767)) as F1.
      pose proof (Qlt_floor (p * 32767)) as F2.
      set (F := Qfloor (p * 32767)) in *.
      rewrite inject_Z_plus in F2. change (inject_Z 1) with 1 in F2.
      assert (H1 : inject_Z F < inject_Z (G + 2)).
      { rewrite inject_Z_plus. change (inject_Z 2) with 2. lra. }
      assert (H2 : inject_Z G < inject_Z (F + 2)).
      { rewrite inject_Z_plus. change (inject_Z 2) with 2. lra. }
      rewrite <- Zlt_Qlt in H1, H2. lia.
  - intros Hv1. apply Z.le_antisymm; [apply clamp_to_int16_range |].
    change 32767%Z with (clamp_to_int16 1). apply clamp_to_int16_mono. lra.
Qed.

End AnyVolume.

(** A run of X7: a buffer whose peak is 1.667490337121478, at volume 1.
    The peak is multiplied by the rounded [1.0 / peak], which gives
    [1 - 2^-53], not 1: 32766 is stored, where [int(1.0 * 32767)] is
    32767. *)
Lemma encode_peak_any_volume_witness :
  exists scaled,
    normalize_and_apply_volume [1.667490337121478]%Q 1.0%Q = Ok scaled
    /\ peak_magnitude (map clamp_to_int16 scaled) = 32766%Z
    /\ py_int (1.0 * 32767)%Q = 32767%Z.
Proof.
  destruct (encode_peak_any_volume [1.667490337121478]%Q 1.0%Q)
    as (scaled & p & E & _).
  - discriminate.
  - exists 1.667490337121478%Q. split; [now left | discriminate].
  - exists scaled. split; [exact E |]. split; [| reflexivity].
    vm_compute in E. injection E as <-. vm_compute. reflexivity.
Defined.

(** ** Reading a payload back *)

Section Writer.

Lemma unpack_pack (x : Z) :
  int16 x -> unpack_h (Z.land x 255) (Z.land (Z.shiftr x 8) 255) = x.
Proof.
  intros [Hlo Hhi]. unfold unpack_h.
  change 255 with (Z.ones 8). rewrite !Z.land_ones by lia.
  rewrite Z.shiftr_div_pow2 by lia. change (2 ^ 8) with 256.
  pose proof (Z.div_mod x 256 ltac:(lia)) as Hdm.
  pose proof (Z.mod_pos_bound x 256 ltac:(lia)) as Hr.
  set (q := x / 256) in *. set (r := x mod 256) in *.
  assert (Hq : -128 <= q <= 127) by lia.
  destruct (Z_lt_le_dec q 0) as [Hn | Hp].
  - assert (E : q mod 256 = q + 256).
    { rewrite <- (Z_mod_plus_full q 1 256). apply Z.mod_small. lia. }
    rewrite E. cbv zeta.
    destruct (r + 256 * (q + 256) <? 32768) eqn:E1;
      [apply Z.ltb_lt in E1 | apply Z.ltb_ge in E1]; lia.
  - rewrite (Z.mod_small q 256) by lia. cbv zeta.
    destruct (r + 256 * q <? 32768) eqn:E1;
      [apply Z.ltb_lt in E1 | apply Z.ltb_ge in E1]; lia.
Qed.

Lemma read_frame_bytes (ints : list Z) :
  Forall int16 ints -> read_frames (frame_bytes ints) = ints.
Proof.
  induction ints as [| x l IH]; intros Hall; [reflexivity |].
  apply Forall_cons in Hall as [Hx Hl].
  unfold frame_bytes in *. cbn [map concat app read_frames].
  rewrite (unpack_pack x Hx). f_equal. exact (IH Hl).
Qed.

(** X8. The write loop on values that fit 16 bits, with room on the device:
    a destination that can be opened is replaced by a mono, 16-bit,
    44100 Hz container of two bytes per sample, and reading the payload
    back as little-endian signed 16-bit frames gives the values written; no
    other file and not the generator is touched.  A destination that cannot
    be opened is refused with OSError, and nothing changes. *)
Theorem write_wav_round_trip {A} (filename : string) (to_int : A -> Z)
    (samples : list A) (w : world) :
  Forall (fun s => int16 (to_int s)) samples ->
  (2 * length samples <= space w)%nat ->
  exists file,
    write_wav filename to_int samples w
    = (if unwritable w filename
       then (Raise OSError, w)
       else (Ok tt, {| rng := rng w;
                       fs := <[filename := file]> (fs w);
                       space := space w - 2 * length samples;
                       unwritable := unwritable w |}))
    /\ params file = Some (1, 2, 44100)
    /\ length (payload file) = (2 * length samples)%nat
    /\ read_frames (payload file) = map to_int samples.
Proof.
  intros Hall Hroom.
  assert (Hdiv : (length samples <= space w / 2)%nat)
    by (apply Nat.div_le_lower_bound; lia).
  rewrite (write_wav_outcome filename to_int samples w Hall). unfold write_outcome.
  rewrite length_map, (proj2 (Nat.leb_le _ _) Hdiv).
  replace (Nat.min (length samples) (space w / 2)) with (length samples) by lia.
  rewrite <- (length_map to_int), firstn_all, length_map.
  eexists. split; [reflexivity |]. cbn [params payload].
  split; [reflexivity |]. split.
  - now rewrite length_frame_bytes, length_map.
  - apply read_frame_bytes. now rewrite Forall_map.
Qed.

Lemma struct_pack_h_error (x : Z) : ~ int16 x -> struct_pack_h x = Raise StructError.
Proof.
  intros Hx. unfold struct_pack_h, int16 in *.
  destruct (-32768 <=? x) eqn:E1; [| reflexivity].
  destruct (x <=? 32767) eqn:E2; [| reflexivity].
  apply Z.leb_le in E1, E2. lia.
Qed.

(** X9. The write loop stops at the first value that does not fit 16 bits:
    with room for the frames before it, at a destination that can be
    opened, the call fails with struct.error and the destination is left
    with the header and those frames.  A destination that cannot be opened
    is refused with OSError before any value is packed. *)
Theorem write_wav_struct_error {A} (filename : string) (to_int : A -> Z)
    (good : list A) (bad : A) (rest : list A) (w : world) :
  Forall (fun s => int16 (to_int s)) good -> ~ int16 (to_int bad) ->
  (2 * length good <= space w)%nat ->
  write_wav filename to_int (good ++ bad :: rest) w
  = if unwritable w filename
    then (Raise OSError, w)
    else (Raise StructError,
          {| rng := rng w;
             fs := <[filename := {| params := Some wav_header;
                                    payload := frame_bytes (map to_int good) |}]> (fs w);
             space := space w - 2 * length good;
             unwritable := unwritable w |}).
Proof.
  intros Hgood Hbad Hroom.
  assert (Hdiv : (length good <= space w / 2)%nat)
    by (apply Nat.div_le_lower_bound; lia).
  destruct (unwritable w filename) eqn:Hun; [now apply write_wav_refused |].
  unfold write_wav, with_wave_open.
  erewrite bind_ok by (apply wave_open_ok; exact Hun).
  set (f := setframerate _ _).
  rewrite for_each_app.
  pose proof (write_loop_spec f to_int good (rng w) (fs w) None [] (space w)
                (unwritable w) Hgood) as H.
  cbv zeta in H. change (wpath f) with filename in H.
  rewrite (proj2 (Nat.leb_le _ _) Hdiv) in H.
  replace (Nat.min (length good) (space w / 2)) with (length good) in H by lia.
  rewrite firstn_all in H. cbn [app] in H.
  unfold empty_wav. cbn [rng fs space unwritable].
  erewrite bind_ok by exact H.
  cbn [for_each].
  erewrite bind_raise; cycle 1.
  { erewrite bind_raise by (unfold lift; rewrite struct_pack_h_error by exact Hbad; reflexivity).
    reflexivity. }
  unfold wave_close, file_at. cbn [rng fs space unwritable wpath].
  change (wpath f) with filename.
  rewrite lookup_insert_eq, insert_insert_eq. cbn [default payload].
  reflexivity.
Qed.

End Writer.

Lemma write_wav_round_trip_witness :
  exists file,
    write_wav "subtle.wav" (fun x : Z => x) [0; -1; 32767; -32768] (fresh_world 8)
    = (Ok tt, {| rng := rng (fresh_world 8);
                 fs := <["subtle.wav" := file]> (fs (fresh_world 8));
                 space := space (fresh_world 8) - 2 * 4;
                 unwritable := fun _ => false |})
    /\ read_frames (payload file) = [0; -1; 32767; -32768].
Proof.
  destruct (write_wav_round_trip "subtle.wav" (fun x : Z => x) [0; -1; 32767; -32768]
              (fresh_world 8)) as (file & E & _ & _ & H).
  - repeat constructor; vm_compute; discriminate.
  - vm_compute. repeat constructor.
  - exists file. split; [exact E | exact H].
Defined.

Lemma write_wav_struct_error_witness :
  fst (write_wav "subtle.wav" (fun x : Z => x) ([1; 2] ++ 40000 :: [3]) (fresh_world 8))
  = Raise StructError.
Proof.
  rewrite (write_wav_struct_error "subtle.wav" (fun x : Z => x) [1; 2] 40000 [3]
             (fresh_world 8)).
  - reflexivity.
  - repeat constructor; vm_compute; discriminate.
  - unfold int16. lia.
  - vm_compute. repeat constructor.
Defined.

(** ** Tones and chords, whole runs *)

Section ToneRuns.
Context {math : Math}.



(** X12. generate_chord with an empty list of frequencies and a duration of
    at least one sample fails with ZeroDivisionError at the first sample
    (the sum is divided by the number of frequencies), before the
    destination is opened: nothing is written. *)
Theorem chord_without_frequencies (filename : string) (duration volume : Q) (w : world) :
  (1 <= sample_rate * duration)%Q ->
  GenerateSounds.generate_chord filename [] duration volume w
  = (Raise ZeroDivisionError, w).
Proof.
  intros Hd.
  assert (Hn : 1 <= py_int (float_mul sample_rate duration)).
  { change 1 with (py_int (float_mul sample_rate (1 # 44100))). apply py_int_mono.
    unfold float_mul. apply fl_mono.
    rewrite !(Qmult_comm (fl sample_rate)).
    apply Qmult_le_compat_r; [| apply fl_nonneg; discriminate].
    apply fl_mono. change (inject_Z sample_rate) with 44100%Q in Hd. lra. }
  unfold GenerateSounds.generate_chord, GenerateSounds.chord_samples, for_range. cbv zeta.
  replace (py_int (float_mul sample_rate duration))
    with (py_int (float_mul sample_rate duration) - 1 + 1) by lia.
  unfold py_range.
  replace (Z.to_nat (py_int (float_mul sample_rate duration) - 1 + 1))
    with (S (Z.to_nat (py_int (float_mul sample_rate duration) - 1))) by lia.
  cbn [seq map for_each fold_left].
  erewrite bind_raise; [reflexivity |].
  erewrite bind_raise; [reflexivity |].
  erewrite bind_raise; [reflexivity |].
  reflexivity.
Qed.

End ToneRuns.



Lemma chord_without_frequencies_witness :
  @GenerateSounds.generate_chord rational_math "bell.wav" [] 0.4%Q 0.25%Q (fresh_world 0)
  = (Raise ZeroDivisionError, fresh_world 0).
Proof.
  apply (@chord_without_frequencies rational_math "bell.wav" 0.4%Q 0.25%Q (fresh_world 0)).
  vm_compute. discriminate.
Defined.


(** ** The silent tail of the single clicks *)

Section Tails.
Context {math : Math}.

Lemma leaves_tail_at (n start count bound : Z) (value : Z -> py Q)
    (h : Z -> world -> Q) (adv : world -> world) :
  advances value h adv -> 0 <= start -> start + count <= bound ->
  leaves_tail (add_samples_at n start count value) n bound.
Proof.
  intros Hadv Hs Hb samples w Hlen.
  destruct (add_samples_at_spec n start count value h adv samples w Hadv Hs Hlen)
    as (s' & Hrun & Hl & Hlook).
  eexists s', _. split; [exact Hrun |]. split; [exact Hl |].
  intros k Hk. rewrite Hlook. case_decide; [lia | reflexivity].
Qed.

Lemma leaves_tail_plain (n count bound : Z) (value : Z -> py Q)
    (h : Z -> world -> Q) (adv : world -> world) :
  advances value h adv -> count <= n -> count <= bound ->
  leaves_tail (add_samples count value) n bound.
Proof.
  intros Hadv Hc Hb samples w Hlen.
  destruct (add_samples_spec count value h adv samples w Hadv)
    as (s' & Hrun & Hl & Hlook); [lia |].
  eexists s', _. split; [exact Hrun |]. split; [exact Hl |].
  intros k Hk. rewrite Hlook. case_decide; [lia | reflexivity].
Qed.

Lemma leaves_tail_seq (c1 c2 : list Q -> py (list Q)) (n bound : Z) :
  leaves_tail c1 n bound -> leaves_tail c2 n bound ->
  leaves_tail (fun samples => s <- c1 samples ;; c2 s) n bound.
Proof.
  intros H1 H2 samples w Hlen.
  destruct (H1 samples w Hlen) as (s1 & w1 & E1 & L1 & K1).
  destruct (H2 s1 w1) as (s2 & w2 & E2 & L2 & K2); [unfold len in *; lia |].
  exists s2, w2. split; [erewrite bind_ok by exact E1; exact E2 |].
  split; [congruence |]. intros k Hk. rewrite K2, K1 by exact Hk. reflexivity.
Qed.

Lemma leaves_tail_seeded (c : list Q -> py (list Q)) (n bound seed : Z) :
  leaves_tail c n bound ->
  leaves_tail (fun samples => random_seed seed ;;; c samples) n bound.
Proof.
  intros H samples w Hlen.
  destruct (H samples (seeded seed w) Hlen) as (s & w' & E & L & K).
  exists s, w'. split; [erewrite bind_ok by apply random_seed_eq; exact E |].
  split; [exact L | exact K].
Qed.

(** The four components of the thock click end by sample 2381. *)
Lemma thock_click_tail (w : world) :
  exists samples w',
    AddThockSounds.thock_click_samples w = (Ok samples, w')
    /\ forall k : nat, 2381 <= Z.of_nat k -> samples !! k = zeros 3528 !! k.
Proof.
  unfold AddThockSounds.thock_click_samples.
  change (py_int (sample_rate * AddThockSounds.duration)) with 3528.
  assert (H : leaves_tail (fun samples =>
              s <- AddThockSounds.click_component 3528 samples ;;
              s <- AddThockSounds.clack_component 3528 s ;;
              s <- AddThockSounds.thock_component 3528 s ;;
              AddThockSounds.noise_component 3528 s) 3528 2381).
  { apply leaves_tail_seq.
    { eapply leaves_tail_plain; [apply advances_ret | |]; vm_compute; discriminate. }
    apply leaves_tail_seq.
    { eapply leaves_tail_at; [apply advances_ret | |]; vm_compute; discriminate. }
    apply leaves_tail_seq.
    { eapply leaves_tail_at; [apply advances_ret | |]; vm_compute; discriminate. }
    apply leaves_tail_seeded.
    eapply leaves_tail_plain; [apply advances_random | |]; vm_compute; discriminate. }
  destruct (H (zeros 3528) w) as (s & w' & E & _ & K); [rewrite len_zeros; lia |].
  exists s, w'. split; [exact E | exact K].
Qed.

(** The four components of the mechanical click end by sample 1543. *)
Lemma mechanical_click_tail (w : world) :
  exists samples w',
    AddMechanicalSound.mechanical_click_samples w = (Ok samples, w')
    /\ forall k : nat, 1543 <= Z.of_nat k -> samples !! k = zeros 2646 !! k.
Proof.
  unfold AddMechanicalSound.mechanical_click_samples.
  change (py_int (sample_rate * 0.06)) with 2646.
  assert (H : leaves_tail (fun samples =>
              s <- AddMechanicalSound.click_component 2646 samples ;;
              s <- AddMechanicalSound.clack_component 2646 s ;;
              s <- AddMechanicalSound.thock_component 2646 s ;;
              AddMechanicalSound.noise_component 2646 s) 2646 1543).
  { apply leaves_tail_seq.
    { eapply leaves_tail_plain; [apply advances_ret | |]; vm_compute; discriminate. }
    apply leaves_tail_seq.
    { eapply leaves_tail_at; [apply advances_ret | |]; vm_compute; discriminate. }
    apply leaves_tail_seq.
    { eapply leaves_tail_at; [apply advances_ret | |]; vm_compute; discriminate. }
    apply leaves_tail_seeded.
    eapply leaves_tail_plain; [apply advances_random | |]; vm_compute; discriminate. }
  destruct (H (zeros 2646) w) as (s & w' & E & _ & K); [rewrite len_zeros; lia |].
  exists s, w'. split; [exact E | exact K].
Qed.

(** A single click whose buffer is silent from [bound] on is stored with
    zeros from there on. *)
Lemma click_run_tail (synth : py (list Q)) (seed : Z) (draws_made : nat) (n : nat)
    (bound : Z) (filename : string) (volume : Q) (w : world) :
  n <> O ->
  (exists samples, synth w = (Ok samples, Nat.iter draws_made draw (seeded seed w))
                   /\ len samples = Z.of_nat n) ->
  (exists samples w', synth w = (Ok samples, w')
     /\ forall k : nat, bound <= Z.of_nat k -> samples !! k = zeros (Z.of_nat n) !! k) ->
  exists stored,
    length stored = n
    /\ (forall k : nat, bound <= Z.of_nat k < Z.of_nat n -> stored !! k = Some 0)
    /\ (samples <- synth ;;
        samples <- lift (normalize_and_apply_volume samples volume) ;;
        write_wav filename clamp_to_int16 samples) w
       = click_outcome seed draws_made filename stored w.
Proof.
  intros Hn (samples & Hsyn & Hlen) (samples2 & w2 & Hsyn2 & Htail).
  rewrite Hsyn in Hsyn2. injection Hsyn2 as <- _.
  assert (Hne : samples <> []).
  { intros ->. unfold len in Hlen. simpl in Hlen. lia. }
  destruct (click_run_stored synth seed draws_made filename volume w samples Hsyn Hne)
    as (scaled & Hnorm & Hl & Hrun).
  exists (map clamp_to_int16 scaled). split; [| split; [| exact Hrun]].
  - rewrite length_map, Hl. unfold len in Hlen. lia.
  - intros k Hk. specialize (Htail k (proj1 Hk)).
    assert (Hz : samples !! k = Some 0%Q).
    { rewrite Htail. unfold zeros, py_repeat. apply lookup_replicate_2. lia. }
    destruct (normalize_and_apply_volume_spec samples volume Hne)
      as (peak & s0 & _ & _ & _ & Hnorm').
    rewrite Hnorm' in Hnorm. injection Hnorm as <-.
    rewrite list_lookup_fmap.
    destruct (Qltb 0 peak); rewrite ?list_lookup_fmap, Hz; cbn;
      rewrite ?(float_mul_zero 0 (fl (fl 1.0 / fl peak))) by reflexivity;
      rewrite (float_mul_zero 0 volume) by reflexivity; reflexivity.
Qed.

(** X13. The components of generate_thock_click end by sample 2381 of
    3528: the last 1147 frames of the file (26 ms of 80) are zeros, at any
    volume. *)
Theorem thock_click_ends_in_silence (filename : string) (volume : Q) (w : world) :
  exists stored,
    length stored = 3528%nat
    /\ (forall k : nat, 2381 <= Z.of_nat k < 3528 -> stored !! k = Some 0)
    /\ AddThockSounds.generate_thock_click filename volume w
       = click_outcome 45 352 filename stored w.
Proof.
  apply (click_run_tail AddThockSounds.thock_click_samples 45 352 3528 2381);
    [discriminate | apply thock_click_samples_spec | apply thock_click_tail].
Qed.

(** X14. The components of generate_mechanical_keyboard_click end by sample
    1543 of 2646: the last 1103 frames of the file (25 ms of 60) are zeros,
    at any volume. *)
Theorem mechanical_click_ends_in_silence (filename : string) (volume : Q) (w : world) :
  exists stored,
    length stored = 2646%nat
    /\ (forall k : nat, 1543 <= Z.of_nat k < 2646 -> stored !! k = Some 0)
    /\ AddMechanicalSound.generate_mechanical_keyboard_click filename volume w
       = click_outcome 42 529 filename stored w.
Proof.
  apply (click_run_tail AddMechanicalSound.mechanical_click_samples 42 529 2646 1543);
    [discriminate | apply mechanical_click_samples_spec | apply mechanical_click_tail].
Qed.

End Tails.

(** ** The scripts as a whole *)

Section Scripts.
Context {math : Math}.

Lemma write_outcome_ok (filename : string) (stored : list Z) (w : world) :
  unwritable w filename = false ->
  (2 * length stored <= space w)%nat ->
  write_outcome filename stored w = (Ok tt, wrote filename stored w).
Proof.
  intros Hun Hroom.
  assert (Hdiv : (length stored <= space w / 2)%nat)
    by (apply Nat.div_le_lower_bound; lia).
  unfold write_outcome, wrote. rewrite Hun, (proj2 (Nat.leb_le _ _) Hdiv).
  replace (Nat.min (length stored) (space w / 2)) with (length stored) by lia.
  now rewrite firstn_all.
Qed.

Lemma chord_ok (filename : string) (frequencies : list Q) (duration volume : Q)
    (w : world) (n : Z) :
  frequencies <> [] -> (0 <= volume <= 1)%Q ->
  py_int (float_mul sample_rate duration) = n ->
  unwritable w filename = false -> 2 * n <= Z.of_nat (space w) ->
  exists stored,
    length stored = Z.to_nat n
    /\ GenerateSounds.generate_chord filename frequencies duration volume w
       = (Ok tt, wrote filename stored w).
Proof.
  intros Hne [Hv0 Hv1] Hn Hun Hroom.
  destruct (chord_samples_run frequencies duration volume w Hne Hv0)
    as (samples & E & Hl & Hall).
  rewrite Hn in Hl. exists samples. split; [exact Hl |].
  unfold GenerateSounds.generate_chord. erewrite bind_ok by exact E.
  rewrite write_wav_outcome, map_id.
  - apply write_outcome_ok; [exact Hun | lia].
  - eapply Forall_impl; [exact Hall |]. intros q Hq.
    now apply (within_volume_fits volume).
Qed.

Lemma tone_ok (filename : string) (frequency duration volume : Q) (w : world) (n : Z) :
  (0 <= volume <= 1)%Q -> py_int (float_mul sample_rate duration) = n ->
  unwritable w filename = false -> 2 * n <= Z.of_nat (space w) ->
  exists stored,
    length stored = Z.to_nat n
    /\ GenerateSounds.generate_tone filename frequency duration volume w
       = (Ok tt, wrote filename stored w).
Proof.
  intros [Hv0 Hv1] Hn Hun Hroom.
  destruct (tone_samples_run frequency duration volume w Hv0) as (samples & E & Hl & Hall).
  rewrite Hn in Hl. exists samples. split; [exact Hl |].
  unfold GenerateSounds.generate_tone. erewrite bind_ok by exact E.
  rewrite write_wav_outcome, map_id.
  - apply write_outcome_ok; [exact Hun | lia].
  - eapply Forall_impl; [exact Hall |]. intros q Hq.
    now apply (within_volume_fits volume).
Qed.

Lemma keyboard_ok (filename : string) (num_clicks : Z) (volume : Q) (w : world) :
  1 <= num_clicks -> unwritable w filename = false ->
  2 * (2646 * num_clicks - 1544) <= Z.of_nat (space w) ->
  exists stored,
    length stored = Z.to_nat (2646 * num_clicks - 1544)
    /\ GenerateSounds.generate_keyboard_click filename num_clicks volume w
       = (Ok tt, wrote filename stored (Nat.iter (Z.to_nat num_clicks * 1103) draw w)).
Proof.
  intros Hn Hun Hroom.
  destruct (keyboard_run filename num_clicks volume w Hn) as (samples & Hlen & _ & Hrun).
  exists (map clamp_to_int16 samples). split; [now rewrite length_map |].
  rewrite Hrun.
  apply write_outcome_ok; [now rewrite unwritable_iter_draw |].
  rewrite length_map, space_iter_draw. lia.
Qed.

Lemma path_join_inj (sounds_dir a b : string) :
  path_join sounds_dir a = path_join sounds_dir b -> a = b.
Proof.
  unfold path_join. induction sounds_dir as [| c s IH]; cbn.
  - intros H. now injection H.
  - intros H. injection H as H. now apply IH.
Qed.

Lemma fs_wrote (filename : string) (stored : list Z) (w : world) :
  fs (wrote filename stored w) = <[filename := wav_of stored]> (fs w).
Proof. reflexivity. Qed.

Lemma fs_seeded (n : Z) (w : world) : fs (seeded n w) = fs w.
Proof. reflexivity. Qed.

Lemma space_wrote (filename : string) (stored : list Z) (w : world) :
  space (wrote filename stored w) = (space w - 2 * length stored)%nat.
Proof. reflexivity. Qed.

Lemma space_seeded (n : Z) (w : world) : space (seeded n w) = space w.
Proof. reflexivity. Qed.

Lemma rng_wrote (filename : string) (stored : list Z) (w : world) :
  rng (wrote filename stored w) = rng w.
Proof. reflexivity. Qed.

Lemma rng_seeded (n : Z) (w : world) : rng (seeded n w) = MT.seed n.
Proof. reflexivity. Qed.

Lemma unwritable_wrote (filename : string) (stored : list Z) (w : world) :
  unwritable (wrote filename stored w) = unwritable w.
Proof. reflexivity. Qed.

Lemma unwritable_seeded (n : Z) (w : world) : unwritable (seeded n w) = unwritable w.
Proof. reflexivity. Qed.

(** The world [main] of generate-sounds.py leaves when every file can be
    opened and every write has room. *)
Lemma main_run (sounds_dir : string) (w : world) :
  (forall name : string, unwritable w (path_join sounds_dir name) = false) ->
  160522 <= Z.of_nat (space w) ->
  exists bell chime subtle complete click clicks,
    (Z.of_nat (length bell) = 17640 /\ Z.of_nat (length chime) = 22050
     /\ Z.of_nat (length subtle) = 6615 /\ Z.of_nat (length complete) = 26460
     /\ Z.of_nat (length click) = 1102 /\ Z.of_nat (length clicks) = 6394)
    /\ let w1 := wrote (path_join sounds_dir "bell.wav") bell w in
       let w2 := wrote (path_join sounds_dir "chime.wav") chime w1 in
       let w3 := wrote (path_join sounds_dir "subtle.wav") subtle w2 in
       let w4 := wrote (path_join sounds_dir "complete.wav") complete w3 in
       let w5 := wrote (path_join sounds_dir "click.wav") click
                   (Nat.iter 1103 draw (seeded 42 w4)) in
       GenerateSounds.main sounds_dir w
       = (Ok tt, wrote (path_join sounds_dir "clicks.wav") clicks
                   (Nat.iter 3309 draw (seeded 43 w5))).
Proof.
  intros Hun Hroom. unfold GenerateSounds.main.
  destruct (chord_ok (path_join sounds_dir "bell.wav") [800%Q; 1000%Q; 1200%Q]
              0.4%Q 0.25%Q w 17640) as (bell & L1 & E1);
    [discriminate | split; discriminate | vm_compute; reflexivity | apply Hun | lia |].
  erewrite bind_ok by exact E1. set (w1 := wrote _ bell w).
  assert (S1 : Z.of_nat (space w1) = Z.of_nat (space w) - 2 * 17640)
    by (unfold w1; rewrite space_wrote; lia).
  destruct (chord_ok (path_join sounds_dir "chime.wav") [1046.50%Q; 1318.51%Q]
              0.5%Q 0.3%Q w1 22050) as (chime & L2 & E2);
    [discriminate | split; discriminate | vm_compute; reflexivity | apply Hun | lia |].
  erewrite bind_ok by exact E2. set (w2 := wrote _ chime w1).
  assert (S2 : Z.of_nat (space w2) = Z.of_nat (space w1) - 2 * 22050)
    by (unfold w2; rewrite space_wrote; lia).
  destruct (tone_ok (path_join sounds_dir "subtle.wav") 880 0.15%Q 0.2%Q w2 6615)
    as (subtle & L3 & E3);
    [split; discriminate | vm_compute; reflexivity | apply Hun | lia |].
  erewrite bind_ok by exact E3. set (w3 := wrote _ subtle w2).
  assert (S3 : Z.of_nat (space w3) = Z.of_nat (space w2) - 2 * 6615)
    by (unfold w3; rewrite space_wrote; lia).
  destruct (complete_samples_within w3) as (melody & E4 & L4' & Hmelody).
  erewrite bind_ok by exact E4.
  set (complete := map (fun sample => py_int (sample * 32767)%Q) melody).
  assert (L4 : length complete = Z.to_nat 26460).
  { unfold complete. rewrite length_map. unfold len in L4'. lia. }
  assert (E4w : write_wav (path_join sounds_dir "complete.wav")
                  (fun sample => py_int (sample * 32767)%Q) melody w3
                = (Ok tt, wrote (path_join sounds_dir "complete.wav") complete w3)).
  { rewrite write_wav_outcome.
    - apply write_outcome_ok; [apply Hun |]. fold complete. lia.
    - eapply Forall_impl; [exact Hmelody |]. intros s Hs. now apply within_quarter_fits. }
  erewrite bind_ok by exact E4w. clear E4w.
  set (w4 := wrote _ complete w3).
  assert (S4 : Z.of_nat (space w4) = Z.of_nat (space w3) - 2 * 26460)
    by (unfold w4; rewrite space_wrote; lia).
  erewrite bind_ok by apply random_seed_eq.
  destruct (keyboard_ok (path_join sounds_dir "click.wav") 1 0.15%Q (seeded 42 w4))
    as (click & L5 & E5); [lia | apply Hun | rewrite space_seeded; lia |].
  replace (Z.to_nat 1 * 1103)%nat with 1103%nat in E5 by reflexivity.
  erewrite bind_ok by exact E5.
  set (w5 := wrote _ click _).
  assert (S5 : Z.of_nat (space w5) = Z.of_nat (space w4) - 2 * 1102).
  { unfold w5. rewrite space_wrote, space_iter_draw, space_seeded. lia. }
  erewrite bind_ok by apply random_seed_eq.
  destruct (keyboard_ok (path_join sounds_dir "clicks.wav") 3 0.15%Q (seeded 43 w5))
    as (clicks & L6 & E6);
    [lia | unfold w5; rewrite unwritable_seeded, unwritable_wrote, unwritable_iter_draw;
           apply Hun
     | rewrite space_seeded; lia |].
  replace (Z.to_nat 3 * 1103)%nat with 3309%nat in E6 by reflexivity.
  rewrite E6.
  exists bell, chime, subtle, complete, click, clicks.
  split; [repeat split; lia | reflexivity].
Qed.

End Scripts.

Ltac path_ne :=
  let H := fresh in
  intros H; apply path_join_inj in H; discriminate H.

Section Mains.
Context {math : Math}.

(** X15. main of generate-sounds.py, when the files of [sounds_dir] can be
    opened and there is room on the device for every
    file: it returns, and leaves six mono, 16-bit, 44100 Hz files in
    [sounds_dir]: bell.wav (17640 frames), chime.wav (22050), subtle.wav
    (6615), complete.wav (26460), click.wav (1102) and clicks.wav (6394);
    no other file is touched, 160522 payload bytes are used, and the shared
    generator is left 3309 draws after [random.seed(43)]. *)

Theorem main_writes_six_files (sounds_dir : string) (w : world) :
  (forall name : string, unwritable w (path_join sounds_dir name) = false) ->
  160522 <= Z.of_nat (space w) ->
  exists bell chime subtle complete click clicks,
    (Z.of_nat (length bell) = 17640 /\ Z.of_nat (length chime) = 22050
     /\ Z.of_nat (length subtle) = 6615 /\ Z.of_nat (length complete) = 26460
     /\ Z.of_nat (length click) = 1102 /\ Z.of_nat (length clicks) = 6394)
    /\ fst (GenerateSounds.main sounds_dir w) = Ok tt
    /\ (let files := fs (snd (GenerateSounds.main sounds_dir w)) in
        files !! path_join sounds_dir "bell.wav" = Some (wav_of bell)
        /\ files !! path_join sounds_dir "chime.wav" = Some (wav_of chime)
        /\ files !! path_join sounds_dir "subtle.wav" = Some (wav_of subtle)
        /\ files !! path_join sounds_dir "complete.wav" = Some (wav_of complete)
        /\ files !! path_join sounds_dir "click.wav" = Some (wav_of click)
        /\ files !! path_join sounds_dir "clicks.wav" = Some (wav_of clicks)
        /\ forall p : string,
             (forall name, In name ["bell.wav"; "chime.wav"; "subtle.wav";
                                    "complete.wav"; "click.wav"; "clicks.wav"] ->
                           p <> path_join sounds_dir name) ->
             files !! p = fs w !! p)
    /\ rng (snd (GenerateSounds.main sounds_dir w)) = draws 3309 (MT.seed 43)
    /\ Z.of_nat (space (snd (GenerateSounds.main sounds_dir w)))
       = Z.of_nat (space w) - 160522.
Proof.
  intros Hun Hroom.
  destruct (main_run sounds_dir w Hun Hroom)
    as (bell & chime & subtle & complete & click & clicks & Hlen & Hrun).
  exists bell, chime, subtle, complete, click, clicks.
  split; [exact Hlen |]. cbv zeta in Hrun.
  set (run := GenerateSounds.main sounds_dir w) in *. clearbody run. subst run.
  cbn [fst snd].
  split; [reflexivity |]. split; [| split].
  - cbv zeta.
    rewrite !fs_wrote, !fs_iter_draw, !fs_seeded,
            !fs_wrote, !fs_iter_draw, !fs_seeded, !fs_wrote.
    split; [| split; [| split; [| split; [| split; [| split]]]]].
    + rewrite !lookup_insert_ne by path_ne. apply lookup_insert_eq.
    + rewrite !lookup_insert_ne by path_ne. apply lookup_insert_eq.
    + rewrite !lookup_insert_ne by path_ne. apply lookup_insert_eq.
    + rewrite !lookup_insert_ne by path_ne. apply lookup_insert_eq.
    + rewrite !lookup_insert_ne by path_ne. apply lookup_insert_eq.
    + apply lookup_insert_eq.
    + intros p Hp.
      rewrite !lookup_insert_ne; try reflexivity;
        intros <-; (eapply Hp; [| reflexivity]); cbn; tauto.
  - rewrite rng_wrote, rng_iter_draw, rng_seeded. reflexivity.
  - destruct Hlen as (L1 & L2 & L3 & L4 & L5 & L6).
    rewrite !space_wrote, !space_iter_draw, !space_seeded,
            !space_wrote, !space_iter_draw, !space_seeded, !space_wrote.
    lia.
Qed.

End Mains.

Lemma main_writes_six_files_witness :
  fst (@GenerateSounds.main rational_math "sounds"
         (fresh_world (Z.to_nat 160522))) = Ok tt.
Proof.
  destruct (@main_writes_six_files rational_math "sounds"
              (fresh_world (Z.to_nat 160522)))
    as (bell & chime & subtle & complete & click & clicks & _ & H & _).
  - intros name. reflexivity.
  - cbn [space fresh_world]. lia.
  - exact H.
Defined.

Section ClickScripts.
Context {math : Math}.

(** A write that had room for every frame. *)
Lemma outcome_ok (g : MT.state) (m : gmap string wav_data) (sp : nat)
    (un : string -> bool) (filename : string) (stored : list Z) :
  (2 * length stored <= sp)%nat ->
  (if (length stored <=? sp / 2)%nat then Ok tt else Raise OSError,
   {| rng := g;
      fs := <[filename := {| params := Some wav_header;
                             payload := frame_bytes
                               (take (Nat.min (length stored) (sp / 2)) stored) |}]> m;
      space := sp - 2 * Nat.min (length stored) (sp / 2);
      unwritable := un |})
  = (Ok tt, {| rng := g; fs := <[filename := wav_of stored]> m;
               space := sp - 2 * length stored; unwritable := un |}).
Proof.
  intros Hroom.
  assert (Hdiv : (length stored <= sp / 2)%nat)
    by (apply Nat.div_le_lower_bound; lia).
  rewrite (proj2 (Nat.leb_le _ _) Hdiv).
  replace (Nat.min (length stored) (sp / 2)) with (length stored) by lia.
  now rewrite firstn_all.
Qed.

(** The gaps drawn depend on the state of the generator only. *)
Lemma gaps_drawn_rng (gap range : Q) (m : nat) (w w' : world) :
  rng w = rng w' -> gaps_drawn gap range m w = gaps_drawn gap range m w'.
Proof.
  revert w w'. induction m as [| m IH]; intros w w' E; [reflexivity |].
  cbn [gaps_drawn]. unfold drawn. rewrite E. f_equal.
  apply IH. unfold draw. cbn [rng]. now rewrite E.
Qed.

(** The two files a click script leaves, when both can be opened and
    every write has room. *)
Lemma click_script_run (seed1 : Z) (draws_made : nat) (n1 n2 : Z)
    (single typing : py unit) (path1 path2 : string) (w : world) :
  (forall w0, exists stored,
     Z.of_nat (length stored) = n1
     /\ single w0 = click_outcome seed1 draws_made path1 stored w0) ->
  (forall w0, exists stored g,
     Z.of_nat (length stored) = n2
     /\ typing w0
        = if unwritable w0 path2
          then (Raise OSError,
                {| rng := g; fs := fs w0; space := space w0;
                   unwritable := unwritable w0 |})
          else (if (length stored <=? space w0 / 2)%nat then Ok tt else Raise OSError,
                {| rng := g;
                   fs := <[path2 := {| params := Some wav_header;
                                       payload := frame_bytes
                                         (take (Nat.min (length stored) (space w0 / 2))
                                            stored) |}]>
                           (fs w0);
                   space := space w0 - 2 * Nat.min (length stored) (space w0 / 2);
                   unwritable := unwritable w0 |})) ->
  unwritable w path1 = false -> unwritable w path2 = false ->
  2 * (n1 + n2) <= Z.of_nat (space w) ->
  exists first second g,
    Z.of_nat (length first) = n1 /\ Z.of_nat (length second) = n2
    /\ (single ;;; typing) w
       = (Ok tt, {| rng := g;
                    fs := <[path2 := wav_of second]> (<[path1 := wav_of first]> (fs w));
                    space := space w - 2 * length first - 2 * length second;
                    unwritable := unwritable w |}).
Proof.
  intros Hsingle Htyping Hun1 Hun2 Hroom.
  assert (Hn2 : 0 <= n2) by (destruct (Htyping w) as (s0 & g0 & L0 & _); lia).
  destruct (Hsingle w) as (first & L1 & E1).
  unfold click_outcome in E1. rewrite Hun1, outcome_ok in E1 by lia.
  erewrite bind_ok by exact E1.
  set (w1 := {| rng := _; fs := _; space := _; unwritable := _ |}).
  destruct (Htyping w1) as (second & g & L2 & E2).
  assert (Hsp : space w1 = (space w - 2 * length first)%nat) by reflexivity.
  change (unwritable w1) with (unwritable w) in E2.
  rewrite Hun2, outcome_ok in E2 by lia.
  exists first, second, g. split; [exact L1 |]. split; [exact L2 |].
  rewrite E2. reflexivity.
Qed.

Lemma thock_typing_three (filename : string) (w0 : world) :
  exists stored g,
    Z.of_nat (length stored) = 14807
    /\ AddThockSounds.generate_multiple_thock_clicks filename 3 0.15%Q w0
       = if unwritable w0 filename
         then (Raise OSError,
               {| rng := g; fs := fs w0; space := space w0;
                  unwritable := unwritable w0 |})
         else (if (length stored <=? space w0 / 2)%nat then Ok tt else Raise OSError,
               {| rng := g;
                  fs := <[filename := {| params := Some wav_header;
                                         payload := frame_bytes
                                           (take (Nat.min (length stored) (space w0 / 2))
                                              stored) |}]>
                          (fs w0);
                  space := space w0 - 2 * Nat.min (length stored) (space w0 / 2);
                  unwritable := unwritable w0 |}).
Proof.
  rewrite thock_typing_sound.
  destruct (typing_sound_run 46 AddThockSounds.one_click AddThockSounds.click_base_duration
              AddThockSounds.gap_duration filename 3 0.15%Q w0)
    as (stored & g & Hlen & _ & _ & Hrun).
  { apply thock_click_returns. } { vm_compute. discriminate. }
  { vm_compute. discriminate. } { lia. }
  exists stored, g. split; [| exact Hrun].
  rewrite Hlen.
  assert (Eg : gaps_drawn AddThockSounds.gap_duration 0.02 (Z.to_nat (3 - 1)) (seeded 46 w0)
               = gaps_drawn AddThockSounds.gap_duration 0.02 (Z.to_nat (3 - 1))
                   (seeded 46 (fresh_world 0)))
    by (apply gaps_drawn_rng; rewrite !rng_seeded; reflexivity).
  rewrite Eg. clear Eg.
  assert (E : py_int (sample_rate * (AddThockSounds.click_base_duration * 3%Z
                + py_sum (gaps_drawn AddThockSounds.gap_duration 0.02 (Z.to_nat (3 - 1))
                            (seeded 46 (fresh_world 0)))))%Q = 14807)
    by (vm_compute; reflexivity).
  rewrite E. reflexivity.
Qed.

Lemma mechanical_typing_three (filename : string) (w0 : world) :
  exists stored g,
    Z.of_nat (length stored) = 11422
    /\ AddMechanicalSound.generate_multiple_mechanical_clicks filename 3 0.15%Q w0
       = if unwritable w0 filename
         then (Raise OSError,
               {| rng := g; fs := fs w0; space := space w0;
                  unwritable := unwritable w0 |})
         else (if (length stored <=? space w0 / 2)%nat then Ok tt else Raise OSError,
               {| rng := g;
                  fs := <[filename := {| params := Some wav_header;
                                         payload := frame_bytes
                                           (take (Nat.min (length stored) (space w0 / 2))
                                              stored) |}]>
                          (fs w0);
                  space := space w0 - 2 * Nat.min (length stored) (space w0 / 2);
                  unwritable := unwritable w0 |}).
Proof.
  rewrite mechanical_typing_sound.
  destruct (typing_sound_run 44 AddMechanicalSound.one_click
              AddMechanicalSound.click_base_duration
              AddMechanicalSound.gap_duration filename 3 0.15%Q w0)
    as (stored & g & Hlen & _ & _ & Hrun).
  { apply mechanical_click_returns. } { vm_compute. discriminate. }
  { vm_compute. discriminate. } { lia. }
  exists stored, g. split; [| exact Hrun].
  rewrite Hlen.
  assert (Eg : gaps_drawn AddMechanicalSound.gap_duration 0.02 (Z.to_nat (3 - 1))
                 (seeded 44 w0)
               = gaps_drawn AddMechanicalSound.gap_duration 0.02 (Z.to_nat (3 - 1))
                   (seeded 44 (fresh_world 0)))
    by (apply gaps_drawn_rng; rewrite !rng_seeded; reflexivity).
  rewrite Eg. clear Eg.
  assert (E : py_int (sample_rate * (AddMechanicalSound.click_base_duration * 3%Z
                + py_sum (gaps_drawn AddMechanicalSound.gap_duration 0.02 (Z.to_nat (3 - 1))
                            (seeded 44 (fresh_world 0)))))%Q = 11422)
    by (vm_compute; reflexivity).
  rewrite E. reflexivity.
Qed.

(** X16. main of add-thock-sounds.py, when both files can be opened and
    there is room on the device for them: it returns and leaves thock.wav with 3528 frames and thocks.wav,
    three clicks with the gaps drawn after [random.seed(46)], with 14807
    frames; no other file is touched and 36670 payload bytes are used. *)
Theorem thock_main_writes_two_files (sounds_dir : string) (w : world) :
  (forall name : string, unwritable w (path_join sounds_dir name) = false) ->
  36670 <= Z.of_nat (space w) ->
  exists thock thocks,
    Z.of_nat (length thock) = 3528 /\ Z.of_nat (length thocks) = 14807
    /\ fst (AddThockSounds.main sounds_dir w) = Ok tt
    /\ (let files := fs (snd (AddThockSounds.main sounds_dir w)) in
        files !! path_join sounds_dir "thock.wav" = Some (wav_of thock)
        /\ files !! path_join sounds_dir "thocks.wav" = Some (wav_of thocks)
        /\ forall p : string,
             p <> path_join sounds_dir "thock.wav" ->
             p <> path_join sounds_dir "thocks.wav" ->
             files !! p = fs w !! p)
    /\ Z.of_nat (space (snd (AddThockSounds.main sounds_dir w)))
       = Z.of_nat (space w) - 36670.
Proof.
  intros Hun Hroom. unfold AddThockSounds.main.
  destruct (click_script_run 45 352 3528 14807
              (AddThockSounds.generate_thock_click (path_join sounds_dir "thock.wav") 0.15%Q)
              (AddThockSounds.generate_multiple_thock_clicks
                 (path_join sounds_dir "thocks.wav") 3 0.15%Q)
              (path_join sounds_dir "thock.wav") (path_join sounds_dir "thocks.wav") w)
    as (thock & thocks & g & L1 & L2 & Hrun).
  { intros w0.
    destruct (thock_click_run (path_join sounds_dir "thock.wav") 0.15%Q w0)
      as (stored & Hl & _ & E).
    exists stored. split; [rewrite Hl; reflexivity | exact E]. }
  { intros w0. apply thock_typing_three. }
  { apply Hun. } { apply Hun. } { lia. }
  exists thock, thocks. split; [exact L1 |]. split; [exact L2 |].
  rewrite Hrun. cbn [fst snd fs space].
  split; [reflexivity |]. split; [| lia].
  cbv zeta. split; [| split].
  - rewrite lookup_insert_ne by path_ne. apply lookup_insert_eq.
  - apply lookup_insert_eq.
  - intros p H1 H2. rewrite !lookup_insert_ne by congruence. reflexivity.
Qed.

(** X17. main of add-mechanical-sound.py, when both files can be opened
    and there is room on the device for them: it returns and leaves mech.wav with 2646 frames and mechs.wav,
    three clicks with the gaps drawn after [random.seed(44)], with 11422
    frames; no other file is touched and 28136 payload bytes are used. *)
Theorem mechanical_main_writes_two_files (sounds_dir : string) (w : world) :
  (forall name : string, unwritable w (path_join sounds_dir name) = false) ->
  28136 <= Z.of_nat (space w) ->
  exists mech mechs,
    Z.of_nat (length mech) = 2646 /\ Z.of_nat (length mechs) = 11422
    /\ fst (AddMechanicalSound.main sounds_dir w) = Ok tt
    /\ (let files := fs (snd (AddMechanicalSound.main sounds_dir w)) in
        files !! path_join sounds_dir "mech.wav" = Some (wav_of mech)
        /\ files !! path_join sounds_dir "mechs.wav" = Some (wav_of mechs)
        /\ forall p : string,
             p <> path_join sounds_dir "mech.wav" ->
             p <> path_join sounds_dir "mechs.wav" ->
             files !! p = fs w !! p)
    /\ Z.of_nat (space (snd (AddMechanicalSound.main sounds_dir w)))
       = Z.of_nat (space w) - 28136.
Proof.
  intros Hun Hroom. unfold AddMechanicalSound.main.
  destruct (click_script_run 42 529 2646 11422
              (AddMechanicalSound.generate_mechanical_keyboard_click
                 (path_join sounds_dir "mech.wav") 0.15%Q)
              (AddMechanicalSound.generate_multiple_mechanical_clicks
                 (path_join sounds_dir "mechs.wav") 3 0.15%Q)
              (path_join sounds_dir "mech.wav") (path_join sounds_dir "mechs.wav") w)
    as (mech & mechs & g & L1 & L2 & Hrun).
  { intros w0.
    destruct (mechanical_click_run (path_join sounds_dir "mech.wav") 0.15%Q w0)
      as (stored & Hl & _ & E).
    exists stored. split; [rewrite Hl; reflexivity | exact E]. }
  { intros w0. apply mechanical_typing_three. }
  { apply Hun. } { apply Hun. } { lia. }
  exists mech, mechs. split; [exact L1 |]. split; [exact L2 |].
  rewrite Hrun. cbn [fst snd fs space].
  split; [reflexivity |]. split; [| lia].
  cbv zeta. split; [| split].
  - rewrite lookup_insert_ne by path_ne. apply lookup_insert_eq.
  - apply lookup_insert_eq.
  - intros p H1 H2. rewrite !lookup_insert_ne by congruence. reflexivity.
Qed.

End ClickScripts.

Lemma thock_main_writes_two_files_witness :
  fst (@AddThockSounds.main rational_math "sounds"
         (fresh_world (Z.to_nat 36670))) = Ok tt.
Proof.
  destruct (@thock_main_writes_two_files rational_math "sounds"
              (fresh_world (Z.to_nat 36670)))
    as (thock & thocks & _ & _ & H & _).
  - intros name. reflexivity.
  - cbn [space fresh_world]. lia.
  - exact H.
Defined.

Lemma mechanical_main_writes_two_files_witness :
  fst (@AddMechanicalSound.main rational_math "sounds"
         (fresh_world (Z.to_nat 28136))) = Ok tt.
Proof.
  destruct (@mechanical_main_writes_two_files rational_math "sounds"
              (fresh_world (Z.to_nat 28136)))
    as (mech & mechs & _ & _ & H & _).
  - intros name. reflexivity.
  - cbn [space fresh_world]. lia.
  - exact H.
Defined.
